(** * Account authentication and lifecycle core

    A shallow embedding of the backend's user module:

    - [instances/user/userStore.ts]   the in-memory [UserStore] (a JS [Map]);
    - [utils/auth.ts]                 [hashPassword], [comparePassword],
                                      [generateToken], [verifyToken];
    - [services/user/userValidation.ts] the zod schemas;
    - [services/user/userService.ts]  [userRegister], [userLogin],
                                      [userGetProfile], [userUpdateProfile].

    Conventions.  A JS string is a [string] (a sequence of 8-bit code units,
    the Latin-1 range of JS strings).  A JS number that holds a counter or a
    Unix time is a [Z].  An ISO-8601 timestamp as produced by
    [Date.prototype.toISOString] is the [Z] of its milliseconds since the
    epoch ([new Date(iso).getTime()] is the inverse map).  The Node built-ins
    ([crypto], [Buffer], [JSON]) and zod's format checks are an interface
    ([NodeLib], [Zod]); every clock read ([Date.now()], [new Date()]) is an
    explicit argument. *)

From Stdlib Require Import String Ascii List ZArith Bool Lia.
From Stdlib Require Import DecimalString DecimalZ.
Import ListNotations.

Local Open Scope string_scope.
Local Open Scope Z_scope.

Set Implicit Arguments.

(* ================================================================== *)
(** ** JS string primitives *)

Module JsString.

(** [String.prototype.toLowerCase] on one code unit below 256: the ASCII
    capitals and the Latin-1 capitals U+00C0..U+00DE (but U+00D7, the
    multiplication sign) move up by 32. *)
Definition lowerChar (c : ascii) : ascii :=
  let n := nat_of_ascii c in
  if (((65 <=? n) && (n <=? 90))
      || ((192 <=? n) && (n <=? 222) && negb (n =? 215)))%nat
  then ascii_of_nat (n + 32) else c.

Fixpoint toLowerCase (s : string) : string :=
  match s with
  | EmptyString => EmptyString
  | String c rest => String (lowerChar c) (toLowerCase rest)
  end.

(** [s.split(sep)] for a one-character separator: never empty, the
    separator is dropped, empty components are kept. *)
Fixpoint split (sep : ascii) (s : string) : list string :=
  match s with
  | EmptyString => [EmptyString]
  | String c rest =>
      if Ascii.eqb c sep then EmptyString :: split sep rest
      else match split sep rest with
           | [] => [String c EmptyString]
           | w :: ws => String c w :: ws
           end
  end.

(** [parts.join(sep)]. *)
Fixpoint join (sep : string) (parts : list string) : string :=
  match parts with
  | [] => EmptyString
  | [p] => p
  | p :: ps => p ++ sep ++ join sep ps
  end.

Fixpoint forallb_string (p : ascii -> bool) (s : string) : bool :=
  match s with
  | EmptyString => true
  | String c rest => p c && forallb_string p rest
  end.

Fixpoint existsb_string (p : ascii -> bool) (s : string) : bool :=
  match s with
  | EmptyString => false
  | String c rest => p c || existsb_string p rest
  end.

(** The string holds no occurrence of [sep]. *)
Definition free_of (sep : ascii) (s : string) : bool :=
  forallb_string (fun c => negb (Ascii.eqb c sep)) s.

(** Truthiness of a string: only the empty string is falsy. *)
Definition truthy (s : string) : bool :=
  match s with EmptyString => false | _ => true end.

(** [s] with the code unit at index [i] replaced by [c] (unchanged when
    [i] is out of range). *)
Fixpoint setAt (i : nat) (c : ascii) (s : string) : string :=
  match s, i with
  | EmptyString, _ => EmptyString
  | String _ rest, O => String c rest
  | String a rest, S j => String a (setAt j c rest)
  end.

Definition isUpper (c : ascii) : bool :=
  let n := nat_of_ascii c in ((65 <=? n) && (n <=? 90))%nat.
Definition isLower (c : ascii) : bool :=
  let n := nat_of_ascii c in ((97 <=? n) && (n <=? 122))%nat.
Definition isDigit (c : ascii) : bool :=
  let n := nat_of_ascii c in ((48 <=? n) && (n <=? 57))%nat.
Definition isAlnum (c : ascii) : bool := isUpper c || isLower c || isDigit c.

End JsString.

(* ================================================================== *)
(** ** userTypes.ts / userStore.ts: the record *)

Inductive Profile : Type := iniciante | experiente | administrador.
Inductive Status : Type := ativo | inativo | bloqueado | pendente.

Definition Profile_toString (p : Profile) : string :=
  match p with
  | iniciante => "iniciante"
  | experiente => "experiente"
  | administrador => "administrador"
  end.

Definition Status_eqb (a b : Status) : bool :=
  match a, b with
  | ativo, ativo | inativo, inativo | bloqueado, bloqueado
  | pendente, pendente => true
  | _, _ => false
  end.

(** [interface UserRecord] (the same shape as [UserEntity]). *)
Record UserRecord : Type := mkUser {
  id : string;
  username : string;
  email : string;
  passwordHash : string;
  profile : Profile;
  avatar : option string;            (* string | null *)
  status : Status;
  loginAttempts : Z;
  lastLoginAttempt : option Z;       (* string | null *)
  dateCreated : Z;
  dateModified : Z
}.

(** [Partial<UserRecord>]: a field is [None] when the key is absent. *)
Record PartialUserRecord : Type := mkPartial {
  p_id : option string;
  p_username : option string;
  p_email : option string;
  p_passwordHash : option string;
  p_profile : option Profile;
  p_avatar : option (option string);
  p_status : option Status;
  p_loginAttempts : option Z;
  p_lastLoginAttempt : option (option Z);
  p_dateCreated : option Z;
  p_dateModified : option Z
}.

Definition emptyPartial : PartialUserRecord :=
  mkPartial None None None None None None None None None None None.

Definition orKeep {A : Type} (new : option A) (old : A) : A :=
  match new with Some v => v | None => old end.

(** The object spread [{ ...existing, ...data }]. *)
Definition spread (existing : UserRecord) (data : PartialUserRecord) : UserRecord :=
  {| id := orKeep (p_id data) (id existing);
     username := orKeep (p_username data) (username existing);
     email := orKeep (p_email data) (email existing);
     passwordHash := orKeep (p_passwordHash data) (passwordHash existing);
     profile := orKeep (p_profile data) (profile existing);
     avatar := orKeep (p_avatar data) (avatar existing);
     status := orKeep (p_status data) (status existing);
     loginAttempts := orKeep (p_loginAttempts data) (loginAttempts existing);
     lastLoginAttempt := orKeep (p_lastLoginAttempt data) (lastLoginAttempt existing);
     dateCreated := orKeep (p_dateCreated data) (dateCreated existing);
     dateModified := orKeep (p_dateModified data) (dateModified existing) |}.

(* ================================================================== *)
(** ** userStore.ts: class UserStore *)

(** [private records: Map<string, UserRecord>].  A JS [Map] iterates in
    insertion order and [Array.prototype.find] returns the first match, so
    the map is the list of its entries in insertion order. *)
Definition Records : Type := list (string * UserRecord).

Module UserStore.

(** [Map.prototype.get]. *)
Fixpoint get (k : string) (m : Records) : option UserRecord :=
  match m with
  | [] => None
  | (k', v) :: rest => if String.eqb k' k then Some v else get k rest
  end.

(** [Map.prototype.set]: an existing key keeps its position, a new key goes
    last. *)
Fixpoint set (k : string) (v : UserRecord) (m : Records) : Records :=
  match m with
  | [] => [(k, v)]
  | (k', v') :: rest =>
      if String.eqb k' k then (k', v) :: rest else (k', v') :: set k v rest
  end.

(** [Array.from(this.records.values())]. *)
Definition values (m : Records) : list UserRecord := map snd m.

Definition getAll (m : Records) : list UserRecord := values m.

Definition getById (m : Records) (i : string) : option UserRecord := get i m.

Definition findByUsername (m : Records) (name : string) : option UserRecord :=
  find (fun user =>
          String.eqb (JsString.toLowerCase (username user))
                     (JsString.toLowerCase name))
       (values m).

Definition findByEmail (m : Records) (mail : string) : option UserRecord :=
  find (fun user =>
          String.eqb (JsString.toLowerCase (email user))
                     (JsString.toLowerCase mail))
       (values m).

Definition add (m : Records) (record : UserRecord) : UserRecord * Records :=
  (record, set (id record) record m).

Definition update (m : Records) (i : string) (data : PartialUserRecord)
  : option UserRecord * Records :=
  match get i m with
  | None => (None, m)
  | Some existing =>
      let updated := spread existing data in
      (Some updated, set i updated m)
  end.

(** [Map.prototype.delete]: the flag tells whether the key was there. *)
Definition delete (m : Records) (i : string) : bool * Records :=
  (match get i m with Some _ => true | None => false end,
   filter (fun kv => negb (String.eqb (fst kv) i)) m).

Definition exists_ (m : Records) (i : string) : bool :=
  match get i m with Some _ => true | None => false end.

Definition clear (m : Records) : Records := [].

Definition count (m : Records) : nat := length m.

Fixpoint keysDistinct (m : Records) : bool :=
  match m with
  | [] => true
  | (k, _) :: rest =>
      negb (existsb (fun kv => String.eqb (fst kv) k) rest) && keysDistinct rest
  end.

(** The representation invariant of the store: a [Map] has each key once,
    and every record sits under its own [id] ([add] is the only way in). *)
Definition wf (m : Records) : bool :=
  keysDistinct m && forallb (fun kv => String.eqb (fst kv) (id (snd kv))) m.

End UserStore.

(* ================================================================== *)
(** ** The platform: Node built-ins and zod format checks *)

#[local] Set Warnings "-register-all".

(** A JS value as [JSON.parse] can return it ([JUndefined] is the value of a
    missing property).  Numbers are the integers the payloads carry. *)
Inductive JsValue : Type :=
| JUndefined
| JNull
| JBool (b : bool)
| JNumber (n : Z)
| JString (s : string)
| JArray (items : list JsValue)
| JObject (props : list (string * JsValue)).

(** The built-ins [utils/auth.ts] calls. *)
Class NodeLib : Type := {
  (** [crypto.createHash('sha256').update(s).digest('hex')] *)
  sha256_hex : string -> string;
  (** [crypto.createHmac('sha256', key).update(msg).digest('base64')] *)
  hmac_sha256_base64 : string -> string -> string;
  (** [Buffer.from(s).toString('base64')] *)
  toBase64 : string -> string;
  (** [Buffer.from(b, 'base64').toString()] *)
  fromBase64 : string -> string;
  JSON_stringify : JsValue -> string;
  (** [None] when [JSON.parse] throws a [SyntaxError]. *)
  JSON_parse : string -> option JsValue;
  (** [ToNumber] of a string or of an array (through [ToPrimitive]); [None]
      is [NaN]. *)
  ToNumber_text : JsValue -> option Z
}.

(** The string formats zod checks with its own regular expressions. *)
Class Zod : Type := {
  z_email : string -> bool;
  z_uuid : string -> bool;
  z_url : string -> bool
}.

(* ================================================================== *)
(** ** utils/auth.ts *)

Section Auth.
Context {L : NodeLib}.

Definition hashPassword (password : string) : string := sha256_hex password.

Definition comparePassword (password hash : string) : bool :=
  String.eqb (hashPassword password) hash.

(** The argument of [generateToken]. *)
Record TokenClaims : Type := mkClaims {
  c_id : string;
  c_username : string;
  c_profile : string
}.

Definition tokenHeader : JsValue :=
  JObject [("alg", JString "HS256"); ("typ", JString "JWT")].

(** [{ ...payload, iat, exp }] *)
Definition tokenPayload (payload : TokenClaims) (iat exp : Z) : JsValue :=
  JObject [("id", JString (c_id payload));
           ("username", JString (c_username payload));
           ("profile", JString (c_profile payload));
           ("iat", JNumber iat);
           ("exp", JNumber exp)].

Definition tokenTTL : Z := 24 * 60 * 60.

(** [nowIat] and [nowExp] are the two [Date.now()] reads, in
    milliseconds. *)
Definition tokenBody (payload : TokenClaims) (nowIat nowExp : Z) : string :=
  toBase64 (JSON_stringify
              (tokenPayload payload (nowIat / 1000) (nowExp / 1000 + tokenTTL))).

Definition tokenSignature (header body : string) : string :=
  hmac_sha256_base64 "secret-key" (header ++ "." ++ body).

Definition encodedHeader : string := toBase64 (JSON_stringify tokenHeader).

Definition generateToken (payload : TokenClaims) (nowIat nowExp : Z) : string :=
  let header := encodedHeader in
  let body := tokenBody payload nowIat nowExp in
  let signature := tokenSignature header body in
  header ++ "." ++ body ++ "." ++ signature.

(** [verifyToken] returns the payload or throws [Error('Invalid token')]. *)
Inductive TokenResult : Type :=
| TokenPayload (payload : JsValue)
| InvalidToken.

(** A destructured component inside a template literal: a missing one
    prints as [undefined]. *)
Definition templ (x : option string) : string :=
  match x with Some s => s | None => "undefined" end.

(** Property read [o.key]: [None] is the [TypeError] on [null] and
    [undefined]; a missing key, or any key of a primitive or an array that
    is not an own property, reads as [undefined]. *)
Fixpoint lookupProp (key : string) (props : list (string * JsValue)) : JsValue :=
  match props with
  | [] => JUndefined
  | (k, v) :: rest => if String.eqb k key then v else lookupProp key rest
  end.

Definition getProp (o : JsValue) (key : string) : option JsValue :=
  match o with
  | JUndefined | JNull => None
  | JObject props => Some (lookupProp key props)
  | _ => Some JUndefined
  end.

(** [ToPrimitive] of a value that [JSON.parse] returned throws a
    [TypeError] exactly when an own property [toString], which in parsed
    JSON is never callable, hides [Object.prototype.toString] (the inherited
    [valueOf] returns the object itself); for an array,
    [Array.prototype.toString] joins the elements and throws when one of
    them does. *)
Fixpoint throwsToPrimitive (v : JsValue) : bool :=
  match v with
  | JObject props => existsb (fun kv => String.eqb (fst kv) "toString") props
  | JArray items => existsb throwsToPrimitive items
  | _ => false
  end.

(** The result of [ToNumber]. *)
Inductive Numeric : Type :=
| Number (n : Z)
| NaN
| TypeError.

Definition ToNumber (v : JsValue) : Numeric :=
  if throwsToPrimitive v then TypeError
  else
    match v with
    | JUndefined => NaN
    | JNull => Number 0
    | JBool b => Number (if b then 1 else 0)
    | JNumber n => Number n
    | JString _ | JArray _ =>
        match ToNumber_text v with Some n => Number n | None => NaN end
    | JObject _ => NaN
    end.

(** [v < n] with [n] a number: false when [v] converts to [NaN], and
    [None] when the conversion throws. *)
Definition lessThan (v : JsValue) (n : Z) : option bool :=
  match ToNumber v with
  | Number x => Some (x <? n)
  | NaN => Some false
  | TypeError => None
  end.

(** [now] is the [Date.now()] read of the expiry check. *)
Definition verifyToken (token : string) (now : Z) : TokenResult :=
  let parts := JsString.split "." token in
  let header := nth_error parts 0 in
  let body := nth_error parts 1 in
  let signature := nth_error parts 2 in
  let expectedSignature :=
    hmac_sha256_base64 "secret-key" (templ header ++ "." ++ templ body) in
  match signature with
  | None => InvalidToken
  | Some sig =>
      if negb (String.eqb sig expectedSignature) then InvalidToken
      else
        match body with
        | None => InvalidToken
        | Some b =>
            match JSON_parse (fromBase64 b) with
            | None => InvalidToken
            | Some payload =>
                match getProp payload "exp" with
                | None => InvalidToken
                | Some exp =>
                    match lessThan exp (now / 1000) with
                    | None => InvalidToken
                    | Some expired =>
                        if expired then InvalidToken
                        else TokenPayload payload
                    end
                end
            end
        end
  end.

End Auth.

(** What the claims about the token codec need of the built-ins. *)
Record NodeLaws (L : NodeLib) : Prop := {
  (** the base64 alphabet has no dot *)
  toBase64_no_dot : forall s, JsString.free_of "." (toBase64 s) = true;
  hmac_no_dot :
    forall k msg, JsString.free_of "." (hmac_sha256_base64 k msg) = true;
  (** decoding inverts encoding *)
  fromBase64_toBase64 : forall s, fromBase64 (toBase64 s) = s;
  (** parsing inverts printing on the payload object *)
  JSON_parse_stringify :
    forall payload iat exp,
      JSON_parse (JSON_stringify (tokenPayload payload iat exp))
      = Some (tokenPayload payload iat exp)
}.

(* ================================================================== *)
(** ** userValidation.ts *)

Section Validation.
Context {Zd : Zod}.

Definition usernameSchema (s : string) : bool :=
  ((3 <=? String.length s)%nat && (String.length s <=? 30)%nat)
  && (JsString.truthy s
      && JsString.forallb_string
           (fun c => JsString.isAlnum c || Ascii.eqb c "_") s).

Definition emailSchema (s : string) : bool := z_email s.

Definition passwordSchema (s : string) : bool :=
  (8 <=? String.length s)%nat
  && JsString.existsb_string JsString.isUpper s
  && JsString.existsb_string JsString.isDigit s
  && JsString.existsb_string (fun c => negb (JsString.isAlnum c)) s.

(** [z.enum(['iniciante', 'experiente'])] *)
Definition selfServiceProfile (s : string) : option Profile :=
  if String.eqb s "iniciante" then Some iniciante
  else if String.eqb s "experiente" then Some experiente
  else None.

(** A request body with the keys the register schema reads. *)
Record RegisterBody : Type := mkRegisterBody {
  rb_username : string;
  rb_email : string;
  rb_password : string;
  rb_profile : string
}.

Record RegisterInput : Type := mkRegisterInput {
  ri_username : string;
  ri_email : string;
  ri_password : string;
  ri_profile : Profile
}.

(** [registerSchema.safeParse]: [None] when [success] is false. *)
Definition registerSchema (body : RegisterBody) : option RegisterInput :=
  if usernameSchema (rb_username body) && emailSchema (rb_email body)
     && passwordSchema (rb_password body)
  then match selfServiceProfile (rb_profile body) with
       | Some p => Some (mkRegisterInput (rb_username body) (rb_email body)
                                         (rb_password body) p)
       | None => None
       end
  else None.

Record LoginInput : Type := mkLoginInput {
  li_username : string;
  li_password : string
}.

Definition loginSchema (body : LoginInput) : option LoginInput :=
  if ((1 <=? String.length (li_username body))%nat
      && (1 <=? String.length (li_password body))%nat)
  then Some body else None.

(** A request body for the update: an absent key is [None]; [avatar] may
    also be [null]. *)
Record UpdateBody : Type := mkUpdateBody {
  ub_username : option string;
  ub_email : option string;
  ub_profile : option string;
  ub_avatar : option (option string)
}.

Record UpdateInput : Type := mkUpdateInput {
  ui_username : option string;
  ui_email : option string;
  ui_profile : option Profile;
  ui_avatar : option (option string)
}.

Definition optionalSchema (check : string -> bool) (x : option string) : bool :=
  match x with Some s => check s | None => true end.

Definition updateSchema (body : UpdateBody) : option UpdateInput :=
  if optionalSchema usernameSchema (ub_username body)
     && optionalSchema emailSchema (ub_email body)
     && match ub_avatar body with
        | Some (Some url) => z_url url
        | _ => true
        end
  then match ub_profile body with
       | None => Some (mkUpdateInput (ub_username body) (ub_email body) None
                                     (ub_avatar body))
       | Some s =>
           match selfServiceProfile s with
           | Some p => Some (mkUpdateInput (ub_username body) (ub_email body)
                                           (Some p) (ub_avatar body))
           | None => None
           end
       end
  else None.

(** [paramsSchema.safeParse] on [{ id }]. *)
Definition paramsSchema (i : string) : option string :=
  if z_uuid i then Some i else None.

(** [confirmEmailSchema] on [{ token }]. *)
Definition confirmEmailSchema (token : string) : option string :=
  if (1 <=? String.length token)%nat then Some token else None.

(** [requestPasswordResetSchema] on [{ email }]. *)
Definition requestPasswordResetSchema (mail : string) : option string :=
  if emailSchema mail then Some mail else None.

(** [resetPasswordSchema] on [{ token, newPassword }]. *)
Definition resetPasswordSchema (token newPassword : string)
  : option (string * string) :=
  if (1 <=? String.length token)%nat && passwordSchema newPassword
  then Some (token, newPassword) else None.

End Validation.

(* ================================================================== *)
(** ** utils: ServiceError, and the service's effects *)

Inductive ErrorCode : Type :=
| VALIDATION_ERROR
| DUPLICATE_USERNAME
| DUPLICATE_EMAIL
| INVALID_CREDENTIALS
| ACCOUNT_PENDING
| ACCOUNT_BLOCKED
| NOT_FOUND
| INVALID_TOKEN.

(** [new ServiceError(code, message, statusCode)], without the message. *)
Record ServiceError : Type := mkServiceError {
  code : ErrorCode;
  statusCode : Z
}.

(** How a call ends: with a value, with a [ServiceError], or with an
    exception that is not a [ServiceError] (the controller hands it to
    [next]). *)
Inductive Outcome (A : Type) : Type :=
| Returned (a : A)
| Thrown (e : ServiceError)
| Crashed.
Arguments Returned {A} a.
Arguments Thrown {A} e.
Arguments Crashed {A}.

(** A service function runs against the module-level [userStore]: it
    returns or throws, and what it wrote to the store before throwing
    stays written. *)
Definition Svc (A : Type) : Type := Records -> Outcome A * Records.

Definition ret {A : Type} (a : A) : Svc A := fun m => (Returned a, m).

Definition throw {A : Type} (c : ErrorCode) (st : Z) : Svc A :=
  fun m => (Thrown (mkServiceError c st), m).

Definition bind {A B : Type} (c : Svc A) (k : A -> Svc B) : Svc B :=
  fun m =>
    match c m with
    | (Returned a, m') => k a m'
    | (Thrown e, m') => (Thrown e, m')
    | (Crashed, m') => (Crashed, m')
    end.

Declare Scope svc_scope.
Delimit Scope svc_scope with svc.
Notation "x <- c ;; k" := (bind c (fun x => k))
  (at level 61, c at next level, right associativity) : svc_scope.
Notation "c ;; k" := (bind c (fun _ => k))
  (at level 61, right associativity) : svc_scope.

(** The calls on [userStore]. *)
Module StoreCall.
Definition getById (i : string) : Svc (option UserRecord) :=
  fun m => (Returned (UserStore.getById m i), m).
Definition findByUsername (name : string) : Svc (option UserRecord) :=
  fun m => (Returned (UserStore.findByUsername m name), m).
Definition findByEmail (mail : string) : Svc (option UserRecord) :=
  fun m => (Returned (UserStore.findByEmail m mail), m).
Definition add (record : UserRecord) : Svc UserRecord :=
  fun m => let (r, m') := UserStore.add m record in (Returned r, m').
Definition update (i : string) (data : PartialUserRecord)
  : Svc (option UserRecord) :=
  fun m => let (r, m') := UserStore.update m i data in (Returned r, m').
End StoreCall.

(* ================================================================== *)
(** ** userService.ts *)

Record UserProfileResponse : Type := mkProfileResponse {
  res_id : string;
  res_username : string;
  res_email : string;
  res_profile : string;
  res_avatar : option string;
  res_status : Status;
  res_dateCreated : Z
}.

Record UserLoginResponse : Type := mkLoginResponse {
  lr_id : string;
  lr_username : string;
  lr_email : string;
  lr_profile : string;
  lr_token : string
}.

(** The clock reads of one [userLogin] call, in milliseconds. *)
Record LoginClock : Type := mkLoginClock {
  atBlockCheck : Z;      (* Date.now() of the lock window test *)
  atFailure : Z;         (* new Date() of a failed password check *)
  atTokenIat : Z;        (* Date.now() of iat in generateToken *)
  atTokenExp : Z         (* Date.now() of exp in generateToken *)
}.

Section Service.
Context {L : NodeLib} {Zd : Zod}.
Local Open Scope svc_scope.

(** The object literal the profile operations return. *)
Definition profileResponse (u : UserRecord) : UserProfileResponse :=
  {| res_id := id u;
     res_username := username u;
     res_email := email u;
     res_profile := Profile_toString (profile u);
     res_avatar := avatar u;
     res_status := status u;
     res_dateCreated := dateCreated u |}.

(** [newId] is what [userStore.generateId()] returns, [now] the
    [new Date()] read. *)
Definition userRegister (body : RegisterBody) (newId : string) (now : Z)
  : Svc UserProfileResponse :=
  match registerSchema body with
  | None => throw VALIDATION_ERROR 400
  | Some params =>
      byName <- StoreCall.findByUsername (ri_username params) ;;
      match byName with
      | Some _ => throw DUPLICATE_USERNAME 409
      | None =>
          byMail <- StoreCall.findByEmail (ri_email params) ;;
          match byMail with
          | Some _ => throw DUPLICATE_EMAIL 409
          | None =>
              let newUser :=
                {| id := newId;
                   username := ri_username params;
                   email := ri_email params;
                   passwordHash := hashPassword (ri_password params);
                   profile := ri_profile params;
                   avatar := None;
                   status := pendente;
                   loginAttempts := 0;
                   lastLoginAttempt := None;
                   dateCreated := now;
                   dateModified := now |} in
              StoreCall.add newUser ;;
              ret (profileResponse newUser)
          end
      end
  end.

Definition thirtyMinutes : Z := 30 * 60 * 1000.

(** [findByUsername(name) || findByEmail(name)] *)
Definition findUser (name : string) : Svc (option UserRecord) :=
  byName <- StoreCall.findByUsername name ;;
  match byName with
  | Some u => ret (Some u)
  | None => StoreCall.findByEmail name
  end.

(** The object literals [userLogin] passes to [userStore.update]. *)
Definition unblockData : PartialUserRecord :=
  {| p_id := None; p_username := None; p_email := None;
     p_passwordHash := None; p_profile := None; p_avatar := None;
     p_status := Some ativo;
     p_loginAttempts := Some 0;
     p_lastLoginAttempt := Some None;
     p_dateCreated := None; p_dateModified := None |}.

Definition blockData (newAttempts now : Z) : PartialUserRecord :=
  {| p_id := None; p_username := None; p_email := None;
     p_passwordHash := None; p_profile := None; p_avatar := None;
     p_status := Some bloqueado;
     p_loginAttempts := Some newAttempts;
     p_lastLoginAttempt := Some (Some now);
     p_dateCreated := None; p_dateModified := None |}.

Definition countData (newAttempts now : Z) : PartialUserRecord :=
  {| p_id := None; p_username := None; p_email := None;
     p_passwordHash := None; p_profile := None; p_avatar := None;
     p_status := None;
     p_loginAttempts := Some newAttempts;
     p_lastLoginAttempt := Some (Some now);
     p_dateCreated := None; p_dateModified := None |}.

Definition resetData : PartialUserRecord :=
  {| p_id := None; p_username := None; p_email := None;
     p_passwordHash := None; p_profile := None; p_avatar := None;
     p_status := None;
     p_loginAttempts := Some 0;
     p_lastLoginAttempt := Some None;
     p_dateCreated := None; p_dateModified := None |}.

(** Lines 122-141: the lock window.  [user] is the object read from the
    store before the call; the update writes a new object to the store and
    leaves [user] as it was. *)
Definition checkBlocked (user : UserRecord) (now : Z) : Svc unit :=
  if Status_eqb (status user) bloqueado then
    let blockTime :=
      match lastLoginAttempt user with Some t => t | None => 0 end in
    if now - blockTime <? thirtyMinutes then throw ACCOUNT_BLOCKED 403
    else StoreCall.update (id user) unblockData ;; ret tt
  else ret tt.

(** Lines 151-175: a failed password check.  The counter is a JS number;
    [+ 1] on it is exact, as here on [Z], below [2 ^ 53]. *)
Definition failedAttempt {A : Type} (user : UserRecord) (now : Z) : Svc A :=
  let newAttempts := loginAttempts user + 1 in
  if 3 <=? newAttempts then
    StoreCall.update (id user) (blockData newAttempts now) ;;
    throw ACCOUNT_BLOCKED 403
  else
    StoreCall.update (id user) (countData newAttempts now) ;;
    throw INVALID_CREDENTIALS 401.

Definition loginClaims (user : UserRecord) : TokenClaims :=
  {| c_id := id user;
     c_username := username user;
     c_profile := Profile_toString (profile user) |}.

(** Lines 121-196, once the account is found. *)
Definition authenticate (user : UserRecord) (password : string)
           (clock : LoginClock) : Svc UserLoginResponse :=
  checkBlocked user (atBlockCheck clock) ;;
  if Status_eqb (status user) pendente then throw ACCOUNT_PENDING 403
  else if negb (comparePassword password (passwordHash user))
  then failedAttempt user (atFailure clock)
  else
    StoreCall.update (id user) resetData ;;
    ret {| lr_id := id user;
           lr_username := username user;
           lr_email := email user;
           lr_profile := Profile_toString (profile user);
           lr_token := generateToken (loginClaims user)
                         (atTokenIat clock) (atTokenExp clock) |}.

Definition userLogin (body : LoginInput) (clock : LoginClock)
  : Svc UserLoginResponse :=
  match loginSchema body with
  | None => throw VALIDATION_ERROR 400
  | Some params =>
      found <- findUser (li_username params) ;;
      match found with
      | None => throw INVALID_CREDENTIALS 401
      | Some user => authenticate user (li_password params) clock
      end
  end.

Definition userGetProfile (params : string) : Svc UserProfileResponse :=
  match paramsSchema params with
  | None => throw VALIDATION_ERROR 400
  | Some i =>
      found <- StoreCall.getById i ;;
      match found with
      | None => throw NOT_FOUND 404
      | Some user => ret (profileResponse user)
      end
  end.

(** [{ ...updateData, dateModified: now }] *)
Definition updatePatch (updateData : UpdateInput) (now : Z) : PartialUserRecord :=
  {| p_id := None;
     p_username := ui_username updateData;
     p_email := ui_email updateData;
     p_passwordHash := None;
     p_profile := ui_profile updateData;
     p_avatar := ui_avatar updateData;
     p_status := None;
     p_loginAttempts := None;
     p_lastLoginAttempt := None;
     p_dateCreated := None;
     p_dateModified := Some now |}.

(** [x && x !== current]: the key is present, not the empty string, and
    differs from the stored value code unit by code unit. *)
Definition changing (x : option string) (current : string) : option string :=
  match x with
  | Some s => if JsString.truthy s && negb (String.eqb s current)
              then Some s else None
  | None => None
  end.

Definition userUpdateProfile (params : string) (body : UpdateBody) (now : Z)
  : Svc UserProfileResponse :=
  match paramsSchema params with
  | None => throw VALIDATION_ERROR 400
  | Some i =>
      match updateSchema body with
      | None => throw VALIDATION_ERROR 400
      | Some updateData =>
          found <- StoreCall.getById i ;;
          match found with
          | None => throw NOT_FOUND 404
          | Some user =>
              (match changing (ui_username updateData) (username user) with
               | Some newName =>
                   existingUser <- StoreCall.findByUsername newName ;;
                   match existingUser with
                   | Some _ => throw DUPLICATE_USERNAME 409
                   | None => ret tt
                   end
               | None => ret tt
               end) ;;
              (match changing (ui_email updateData) (email user) with
               | Some newMail =>
                   existingUser <- StoreCall.findByEmail newMail ;;
                   match existingUser with
                   | Some _ => throw DUPLICATE_EMAIL 409
                   | None => ret tt
                   end
               | None => ret tt
               end) ;;
              updated <- StoreCall.update i (updatePatch updateData now) ;;
              match updated with
              | Some u => ret (profileResponse u)
              | None => fun m => (Crashed, m)   (* updated!.id on undefined *)
              end
          end
      end
  end.

(** The token check is not written yet: a well-formed body is refused. *)
Definition userConfirmEmail (token : string) : Svc unit :=
  match confirmEmailSchema token with
  | None => throw VALIDATION_ERROR 400
  | Some _ => throw INVALID_TOKEN 400
  end.

Definition userRequestPasswordReset (mail : string) : Svc unit :=
  match requestPasswordResetSchema mail with
  | None => throw VALIDATION_ERROR 400
  | Some e =>
      found <- StoreCall.findByEmail e ;;
      match found with
      | None => throw NOT_FOUND 404
      | Some _ => ret tt
      end
  end.

Definition userResetPassword (token newPassword : string) : Svc unit :=
  match resetPasswordSchema token newPassword with
  | None => throw VALIDATION_ERROR 400
  | Some _ => throw INVALID_TOKEN 400
  end.

End Service.

(* ================================================================== *)
(** ** Notions used in the statements *)

(** The record a login name resolves to: the value of
    [findByUsername(name) || findByEmail(name)]. *)
Definition resolve (m : Records) (name : string) : option UserRecord :=
  match UserStore.findByUsername m name with
  | Some u => Some u
  | None => UserStore.findByEmail m name
  end.

(** The start of the lock window of a record, as [userLogin] reads it. *)
Definition blockTime (user : UserRecord) : Z :=
  match lastLoginAttempt user with Some t => t | None => 0 end.

(** Two strings are equal up to letter case. *)
Definition sameIgnoringCase (a b : string) : Prop :=
  JsString.toLowerCase a = JsString.toLowerCase b.

(** No two stored accounts share an email up to letter case: what
    [userRegister] and [userUpdateProfile] check before they write. *)
Definition uniqueEmails (m : Records) : Prop :=
  forall a b, In a (UserStore.values m) -> In b (UserStore.values m) ->
              sameIgnoringCase (email a) (email b) -> id a = id b.

(** No two stored accounts share a username up to letter case. *)
Definition uniqueUsernames (m : Records) : Prop :=
  forall a b, In a (UserStore.values m) -> In b (UserStore.values m) ->
              sameIgnoringCase (username a) (username b) -> id a = id b.

(** What every call of the service finds and leaves behind. *)
Definition storeInvariant (m : Records) : Prop :=
  UserStore.wf m = true /\ uniqueUsernames m /\ uniqueEmails m.

(** What the update path needs of zod: the empty string is no email. *)
Record ZodLaws (Zd : Zod) : Prop := {
  z_email_nonempty : z_email "" = false
}.

(** The username of a patch passes lines 288-294 for the account
    [current]: the key is absent, or holds the current username, or holds one
    that no stored account has. *)
Definition usernameAccepted (m : Records) (current : UserRecord)
           (updateData : UpdateInput) : Prop :=
  forall name, ui_username updateData = Some name ->
               name = username current \/ UserStore.findByUsername m name = None.

(** The result and the store after a call. *)
Definition outcome {A : Type} (r : Outcome A * Records) : Outcome A := fst r.
Definition storeAfter {A : Type} (r : Outcome A * Records) : Records := snd r.

Definition failure {A : Type} (c : ErrorCode) (st : Z) : Outcome A :=
  Thrown (mkServiceError c st).

(** The object a successful [userLogin] returns for [user]. *)
Definition loginResponse {L : NodeLib} (user : UserRecord) (clock : LoginClock)
  : UserLoginResponse :=
  {| lr_id := id user;
     lr_username := username user;
     lr_email := email user;
     lr_profile := Profile_toString (profile user);
     lr_token := generateToken (loginClaims user)
                   (atTokenIat clock) (atTokenExp clock) |}.

(** The email of a patch passes lines 296-302 for the account [current]. *)
Definition emailAccepted (m : Records) (current : UserRecord)
           (updateData : UpdateInput) : Prop :=
  forall mail, ui_email updateData = Some mail ->
               mail = email current \/ UserStore.findByEmail m mail = None.

(** Every stored account waits for its email confirmation. *)
Definition onlyPending (m : Records) : Prop :=
  forall r, In r (UserStore.values m) -> status r = pendente.

Definition isReturned {A : Type} (o : Outcome A) : bool :=
  match o with Returned _ => true | _ => false end.

(* ================================================================== *)
(** ** api/internal/user/controller.ts and routes/internalRoutes.ts

    A handler runs the service function on the request and answers through
    [res], or hands an exception that is no [ServiceError] to [next].  The
    reply is its status and the envelope ([successResponse(data)] or
    [errorResponse(message, code, details)], kept by its code). *)

Inductive Envelope (A : Type) : Type :=
| successResponse (data : A)
| errorResponse (c : ErrorCode).
Arguments successResponse {A} data.
Arguments errorResponse {A} c.

Inductive Reply (A : Type) : Type :=
| Json (httpStatus : Z) (envelope : Envelope A)
| Next.
Arguments Json {A} httpStatus envelope.
Arguments Next {A}.

(** The [try]/[catch] every handler is made of; [okStatus] is 201 where the
    handler calls [res.status(201)] and 200 where it calls [res.json]
    directly. *)
Definition respond {A : Type} (okStatus : Z) (o : Outcome A) : Reply A :=
  match o with
  | Returned data => Json okStatus (successResponse data)
  | Thrown e => Json (statusCode e) (errorResponse (code e))
  | Crashed => Next
  end.

Definition handle {A : Type} (okStatus : Z) (call : Svc A)
  : Records -> Reply A * Records :=
  fun m => let (o, m') := call m in (respond okStatus o, m').

Section Controller.
Context {L : NodeLib} {Zd : Zod}.

Definition registerHandler (body : RegisterBody) (newId : string) (now : Z) :=
  handle 201 (userRegister body newId now).

Definition loginHandler (body : LoginInput) (clock : LoginClock) :=
  handle 200 (userLogin body clock).

Definition getProfileHandler (params : string) :=
  handle 200 (userGetProfile params).

Definition updateProfileHandler (params : string) (body : UpdateBody) (now : Z) :=
  handle 200 (userUpdateProfile params body now).

Definition confirmEmailHandler (token : string) :=
  handle 200 (userConfirmEmail token).

Definition requestPasswordResetHandler (mail : string) :=
  handle 200 (userRequestPasswordReset mail).

Definition resetPasswordHandler (token newPassword : string) :=
  handle 200 (userResetPassword token newPassword).

(** A request to one of the seven user routes of [internalRoutes.ts], with
    what the handler reads of it and the clock and id generator reads of the
    call. *)
Inductive Request : Type :=
| PostRegister (body : RegisterBody) (newId : string) (now : Z)
| PostLogin (body : LoginInput) (clock : LoginClock)
| GetProfile (params : string)
| PutProfile (params : string) (body : UpdateBody) (now : Z)
| PostConfirmEmail (token : string)
| PostRequestPasswordReset (mail : string)
| PostResetPassword (token newPassword : string).

(** The store after the router has served one request. *)
Definition serve (q : Request) (m : Records) : Records :=
  match q with
  | PostRegister body newId now => snd (registerHandler body newId now m)
  | PostLogin body clock => snd (loginHandler body clock m)
  | GetProfile params => snd (getProfileHandler params m)
  | PutProfile params body now => snd (updateProfileHandler params body now m)
  | PostConfirmEmail token => snd (confirmEmailHandler token m)
  | PostRequestPasswordReset mail => snd (requestPasswordResetHandler mail m)
  | PostResetPassword token newPassword =>
      snd (resetPasswordHandler token newPassword m)
  end.

(** The store after a run of requests, served one after the other. *)
Definition serveAll (qs : list Request) (m : Records) : Records :=
  fold_left (fun store q => serve q store) qs m.

End Controller.

(* ================================================================== *)
(** ** frontend: domain/auth/validations/auth.ts

    The schemas the forms are resolved with, on the same request bodies. *)

Module Client.
Section Schemas.
Context {Zd : Zod}.

(** The chain [.min(3).max(30).regex(/^[a-zA-Z0-9_]+$/)] of the register
    and update forms. *)
Definition usernameRule (username : string) : bool :=
  (3 <=? String.length username)%nat
  && (String.length username <=? 30)%nat
  && (JsString.truthy username
      && JsString.forallb_string
           (fun c => JsString.isLower c || JsString.isUpper c
                     || JsString.isDigit c || Ascii.eqb c "_") username).

(** The chain [.min(8).regex(/[A-Z]/).regex(/[0-9]/).regex(/[^a-zA-Z0-9]/)]
    of the register and reset forms. *)
Definition passwordRule (password : string) : bool :=
  (8 <=? String.length password)%nat
  && JsString.existsb_string JsString.isUpper password
  && JsString.existsb_string JsString.isDigit password
  && JsString.existsb_string
       (fun c => negb (JsString.isLower c || JsString.isUpper c
                       || JsString.isDigit c)) password.

(** [z.enum(profileOptions)] *)
Definition profileRule (p : string) : option Profile :=
  if String.eqb p "iniciante" then Some iniciante
  else if String.eqb p "experiente" then Some experiente
  else None.

Definition registerSchema (form : RegisterBody) : option RegisterInput :=
  if usernameRule (rb_username form) && z_email (rb_email form)
     && passwordRule (rb_password form)
  then match profileRule (rb_profile form) with
       | Some p => Some (mkRegisterInput (rb_username form) (rb_email form)
                                         (rb_password form) p)
       | None => None
       end
  else None.

Definition loginSchema (form : LoginInput) : option LoginInput :=
  if ((1 <=? String.length (li_username form))%nat
      && (1 <=? String.length (li_password form))%nat)
  then Some form else None.

(** The update form: [avatar] is a string or absent, never [null]. *)
Record UpdateProfileForm : Type := mkUpdateProfileForm {
  uf_username : option string;
  uf_email : option string;
  uf_profile : option string;
  uf_avatar : option string
}.

Record UpdateProfileFormOutput : Type := mkUpdateProfileFormOutput {
  uo_username : option string;
  uo_email : option string;
  uo_profile : option Profile;
  uo_avatar : option string
}.

Definition optional (rule : string -> bool) (x : option string) : bool :=
  match x with Some s => rule s | None => true end.

Definition updateProfileSchema (form : UpdateProfileForm)
  : option UpdateProfileFormOutput :=
  if optional usernameRule (uf_username form)
     && optional z_email (uf_email form)
     && optional z_url (uf_avatar form)
  then
    match uf_profile form with
    | None => Some (mkUpdateProfileFormOutput (uf_username form) (uf_email form)
                                              None (uf_avatar form))
    | Some p =>
        match profileRule p with
        | Some q => Some (mkUpdateProfileFormOutput (uf_username form)
                                                    (uf_email form) (Some q)
                                                    (uf_avatar form))
        | None => None
        end
    end
  else None.

Definition requestPasswordResetSchema (mail : string) : option string :=
  if z_email mail then Some mail else None.

Definition resetPasswordSchema (token newPassword : string)
  : option (string * string) :=
  if (1 <=? String.length token)%nat && passwordRule newPassword
  then Some (token, newPassword) else None.

(** The body [authService.updateProfile] puts on the wire for a form
    output: the keys that are present, as they are. *)
Definition updateBody (form : UpdateProfileForm) : UpdateBody :=
  {| ub_username := uf_username form;
     ub_email := uf_email form;
     ub_profile := uf_profile form;
     ub_avatar := option_map Some (uf_avatar form) |}.

End Schemas.
End Client.

(** The zod of the service ([Zs]) and the zod of the client ([Zc]) check
    emails and URLs alike. *)
Definition sameFormats (Zs Zc : Zod) : Prop :=
  (forall s, @z_email Zc s = @z_email Zs s) /\
  (forall s, @z_url Zc s = @z_url Zs s).

(* ================================================================== *)
(** ** An executable platform and sample data

    A small instance of [NodeLib] and [Zod] on which the service runs by
    computation.  It keeps the shape of the built-ins (digests and encodings
    are dot-free text, decoding inverts encoding, parsing inverts printing on
    the payload) with a hexadecimal encoding in place of SHA-256, HMAC and
    base64, and a comma-separated record in place of JSON text. *)

Module Model.

Definition hexDigit (n : nat) : ascii :=
  nth n (list_ascii_of_string "0123456789abcdef") "0"%char.

Definition hexValue (c : ascii) : nat :=
  let n := nat_of_ascii c in
  if JsString.isDigit c then (n - 48)%nat else (n - 87)%nat.

Fixpoint hexEncode (s : string) : string :=
  match s with
  | EmptyString => EmptyString
  | String c rest =>
      let n := nat_of_ascii c in
      String (hexDigit (n / 16)) (String (hexDigit (n mod 16)) (hexEncode rest))
  end.

Fixpoint hexDecode (s : string) : string :=
  match s with
  | String hi (String lo rest) =>
      String (ascii_of_nat (16 * hexValue hi + hexValue lo)) (hexDecode rest)
  | _ => EmptyString
  end.

Definition printZ (z : Z) : string := NilEmpty.string_of_int (Z.to_int z).

Definition readZ (s : string) : option Z :=
  option_map Z.of_int (NilEmpty.int_of_string s).

Definition stringify (v : JsValue) : string :=
  match v with
  | JObject [(_, JString a); (_, JString b); (_, JString c);
             (_, JNumber i); (_, JNumber e)] =>
      hexEncode a ++ "," ++ hexEncode b ++ "," ++ hexEncode c ++ ","
      ++ printZ i ++ "," ++ printZ e
  | _ => "{}"
  end.

Definition parse (s : string) : option JsValue :=
  match JsString.split "," s with
  | [a; b; c; i; e] =>
      match readZ i, readZ e with
      | Some iat, Some exp =>
          Some (JObject [("id", JString (hexDecode a));
                         ("username", JString (hexDecode b));
                         ("profile", JString (hexDecode c));
                         ("iat", JNumber iat);
                         ("exp", JNumber exp)])
      | _, _ => None
      end
  | _ => None
  end.

Definition node : NodeLib :=
  {| sha256_hex := hexEncode;
     hmac_sha256_base64 := fun key msg => hexEncode (key ++ ":" ++ msg);
     toBase64 := hexEncode;
     fromBase64 := hexDecode;
     JSON_stringify := stringify;
     JSON_parse := parse;
     ToNumber_text := fun _ => None |}.

Definition zod : Zod :=
  {| z_email := JsString.existsb_string (fun c => Ascii.eqb c "@");
     z_uuid := fun s => (String.length s =? 36)%nat;
     z_url := String.prefix "http" |}.

Definition idAlice : string := "00000000-0000-4000-8000-00000000000a".
Definition idBob : string := "00000000-0000-4000-8000-00000000000b".
Definition idCarol : string := "00000000-0000-4000-8000-00000000000c".

Definition alice : UserRecord :=
  {| id := idAlice; username := "alice"; email := "alice@example.com";
     passwordHash := hexEncode "Secret#1"; profile := iniciante;
     avatar := None; status := ativo; loginAttempts := 0;
     lastLoginAttempt := None; dateCreated := 1000; dateModified := 1000 |}.

Definition bob : UserRecord :=
  {| id := idBob; username := "bob"; email := "bob@example.com";
     passwordHash := hexEncode "Hunter#2"; profile := experiente;
     avatar := None; status := pendente; loginAttempts := 0;
     lastLoginAttempt := None; dateCreated := 2000; dateModified := 2000 |}.

(** Alice after three failed logins, the last at [t = 5000000]. *)
Definition aliceBlocked : UserRecord :=
  {| id := idAlice; username := "alice"; email := "alice@example.com";
     passwordHash := hexEncode "Secret#1"; profile := iniciante;
     avatar := None; status := bloqueado; loginAttempts := 3;
     lastLoginAttempt := Some 5000000; dateCreated := 1000;
     dateModified := 1000 |}.

Definition store : Records := [(idAlice, alice); (idBob, bob)].
Definition storeBlocked : Records := [(idAlice, aliceBlocked); (idBob, bob)].

Definition clockAt (t : Z) : LoginClock :=
  {| atBlockCheck := t; atFailure := t; atTokenIat := t; atTokenExp := t |}.

Definition aliceClaims : TokenClaims :=
  {| c_id := idAlice; c_username := "alice"; c_profile := "iniciante" |}.

End Model.

(** More sample data: an account that was switched off, and a platform
    whose [JSON.parse] also reads the empty object. *)
Module Model2.
Import Model.

Definition idDave : string := "00000000-0000-4000-8000-00000000000d".

Definition dave : UserRecord :=
  {| id := idDave; username := "dave"; email := "dave@example.com";
     passwordHash := hexEncode "Offline#3"; profile := administrador;
     avatar := Some "https://example.com/dave.png"; status := inativo;
     loginAttempts := 1; lastLoginAttempt := Some 4000;
     dateCreated := 3000; dateModified := 3500 |}.

Definition store3 : Records := [(idAlice, alice); (idBob, bob); (idDave, dave)].

Definition carolBody : RegisterBody :=
  mkRegisterBody "carol_9" "carol@example.com" "Passw0rd!" "experiente".

Definition carolInput : RegisterInput :=
  mkRegisterInput "carol_9" "carol@example.com" "Passw0rd!" experiente.

(** Alice after two failed logins. *)
Definition aliceTwoStrikes : UserRecord :=
  {| id := idAlice; username := "alice"; email := "alice@example.com";
     passwordHash := hexEncode "Secret#1"; profile := iniciante;
     avatar := None; status := ativo; loginAttempts := 2;
     lastLoginAttempt := Some 4000000; dateCreated := 1000;
     dateModified := 1000 |}.

Definition storeTwoStrikes : Records :=
  [(idAlice, aliceTwoStrikes); (idBob, bob)].

(** Dave, switched off, after two failed logins. *)
Definition daveTwoStrikes : UserRecord :=
  {| id := idDave; username := "dave"; email := "dave@example.com";
     passwordHash := hexEncode "Offline#3"; profile := administrador;
     avatar := Some "https://example.com/dave.png"; status := inativo;
     loginAttempts := 2; lastLoginAttempt := Some 4000000;
     dateCreated := 3000; dateModified := 3500 |}.

Definition storeDaveTwoStrikes : Records :=
  [(idAlice, alice); (idBob, bob); (idDave, daveTwoStrikes)].

(** Carol registers, a wrong password is tried on Alice, Bob renames
    himself, and Carol tries to log in. *)
Definition sampleRun : list Request :=
  [PostRegister carolBody idCarol 7000;
   PostLogin (mkLoginInput "alice" "nope") (clockAt 8000);
   PutProfile idBob (mkUpdateBody (Some "robert") None None None) 9000;
   PostLogin (mkLoginInput "carol_9" "Passw0rd!") (clockAt 10000);
   PostConfirmEmail "token"].

Definition looseNode : NodeLib :=
  {| sha256_hex := hexEncode;
     hmac_sha256_base64 := fun key msg => hexEncode (key ++ ":" ++ msg);
     toBase64 := hexEncode;
     fromBase64 := hexDecode;
     JSON_stringify := stringify;
     JSON_parse := fun s => if String.eqb s "{}" then Some (JObject [])
                            else parse s;
     ToNumber_text := fun _ => None |}.

End Model2.

(* ================================================================== *)
(** * Properties *)

Unset Implicit Arguments.

(** ** The store *)

Module StoreFacts.
Import UserStore.

Lemma get_set_same k v m : get k (set k v m) = Some v.
Proof.
  induction m as [|[k' v'] rest IH]; simpl.
  - now rewrite String.eqb_refl.
  - destruct (String.eqb k' k) eqn:E; simpl; rewrite E; auto.
Qed.

Lemma get_set_other k k' v m : k <> k' -> get k' (set k v m) = get k' m.
Proof.
  intros Hne. induction m as [|[k0 v0] rest IH]; simpl.
  - destruct (String.eqb k k') eqn:E; auto.
    apply String.eqb_eq in E. contradiction.
  - destruct (String.eqb k0 k) eqn:E; simpl.
    + apply String.eqb_eq in E. subst k0.
      destruct (String.eqb k k') eqn:E'; auto.
      apply String.eqb_eq in E'. contradiction.
    + now rewrite IH.
Qed.

(** On a key that is present, [set] rewrites that entry in place. *)
Lemma set_present k v old m :
  keysDistinct m = true -> get k m = Some old ->
  set k v m = map (fun kv => if String.eqb (fst kv) k then (fst kv, v) else kv) m.
Proof.
  induction m as [|[k0 v0] rest IH]; simpl; intros Hd Hg; [discriminate|].
  apply andb_true_iff in Hd as [Hfresh Hd].
  destruct (String.eqb k0 k) eqn:E.
  - f_equal. apply String.eqb_eq in E. subst k0.
    clear IH Hg Hd. induction rest as [|[k1 v1] rest IH]; simpl in *; auto.
    apply negb_true_iff, orb_false_iff in Hfresh as [H1 H2].
    rewrite H1. f_equal. apply IH. now rewrite H2.
  - f_equal. now apply IH.
Qed.

Lemma keys_set_present k v old m :
  keysDistinct m = true -> get k m = Some old ->
  map fst (set k v m) = map fst m.
Proof.
  intros Hd Hg. rewrite (set_present k v old m Hd Hg), map_map.
  apply map_ext. intros [k0 v0]; simpl. now destruct (String.eqb k0 k).
Qed.

Lemma keysDistinct_keys m m' :
  map fst m = map fst m' -> keysDistinct m = keysDistinct m'.
Proof.
  revert m'. induction m as [|[k v] rest IH]; intros [|[k' v'] rest'];
    simpl; intros H; try discriminate; auto.
  injection H as -> Hrest. rewrite (IH _ Hrest). f_equal. f_equal.
  clear IH. revert rest' Hrest.
  induction rest as [|[a b] rest IH]; intros [|[a' b'] rest'];
    simpl; intros H; try discriminate; auto.
  injection H as -> Hrest. now rewrite (IH _ Hrest).
Qed.

Lemma In_get k v m :
  keysDistinct m = true -> In (k, v) m -> get k m = Some v.
Proof.
  induction m as [|[k0 v0] rest IH]; simpl; intros Hd Hin; [contradiction|].
  apply andb_true_iff in Hd as [Hfresh Hd].
  destruct Hin as [Heq|Hin].
  - injection Heq as -> ->. now rewrite String.eqb_refl.
  - destruct (String.eqb k0 k) eqn:E; [|now apply IH].
    apply String.eqb_eq in E. subst k0. exfalso.
    apply negb_true_iff in Hfresh.
    assert (existsb (fun kv => String.eqb (fst kv) k) rest = true); [|congruence].
    apply existsb_exists. exists (k, v). split; auto. apply String.eqb_refl.
Qed.

Lemma get_In k v m : get k m = Some v -> In (k, v) m.
Proof.
  induction m as [|[k0 v0] rest IH]; simpl; [discriminate|].
  destruct (String.eqb k0 k) eqn:E; intros H.
  - apply String.eqb_eq in E. left. congruence.
  - right. now apply IH.
Qed.

Lemma wf_split m :
  wf m = true <->
  keysDistinct m = true /\
  forall k v, In (k, v) m -> k = id v.
Proof.
  unfold wf. rewrite andb_true_iff, forallb_forall. split.
  - intros [Hd Hk]. split; auto. intros k v Hin.
    apply String.eqb_eq. exact (Hk (k, v) Hin).
  - intros [Hd Hk]. split; auto. intros [k v] Hin. simpl.
    apply String.eqb_eq. now apply Hk.
Qed.

(** A record found by a scan of the values is stored under its own id. *)
Lemma wf_value_get m u :
  wf m = true -> In u (values m) -> get (id u) m = Some u.
Proof.
  intros Hwf Hin. apply wf_split in Hwf as [Hd Hk].
  apply in_map_iff in Hin as [[k v] [Hv Hin]]. simpl in Hv. subst v.
  rewrite <- (Hk _ _ Hin). now apply In_get.
Qed.

Lemma wf_get_id m k v : wf m = true -> get k m = Some v -> id v = k.
Proof.
  intros Hwf Hg. apply wf_split in Hwf as [_ Hk].
  symmetry. apply Hk. now apply get_In.
Qed.

(** Overwriting a stored record in place keeps the invariant, provided
    the new object keeps the id. *)
Lemma wf_set_present m k v old :
  wf m = true -> get k m = Some old -> id v = k -> wf (set k v m) = true.
Proof.
  intros Hwf Hg Hid. pose proof Hwf as Hwf'.
  apply wf_split in Hwf as [Hd Hk]. apply wf_split. split.
  - rewrite (keysDistinct_keys (set k v m) m); auto.
    eapply keys_set_present; eauto.
  - intros k0 v0. rewrite (set_present k v old m Hd Hg).
    intros Hin. apply in_map_iff in Hin as [[k1 v1] [Heq Hin]]. simpl in Heq.
    destruct (String.eqb k1 k) eqn:E.
    + apply String.eqb_eq in E. injection Heq as <- <-. congruence.
    + injection Heq as <- <-. now apply Hk.
Qed.

(** In-place rewriting seen on the values: the record with id [k] becomes
    [v], the others stay. *)
Lemma values_set_present m k v old :
  wf m = true -> get k m = Some old ->
  values (set k v m)
  = map (fun r => if String.eqb (id r) k then v else r) (values m).
Proof.
  intros Hwf Hg. apply wf_split in Hwf as [Hd Hk].
  rewrite (set_present k v old m Hd Hg). unfold values. rewrite !map_map.
  apply map_ext_in. intros [k0 v0] Hin. simpl.
  rewrite <- (Hk _ _ Hin). now destruct (String.eqb k0 k).
Qed.

(** A scan whose test cannot tell the old object from the new one finds
    the same entry after an in-place rewrite. *)
Lemma find_set_present (p : UserRecord -> bool) m k v old :
  wf m = true -> get k m = Some old -> p v = p old ->
  find p (values (set k v m))
  = option_map (fun r => if String.eqb (id r) k then v else r)
               (find p (values m)).
Proof.
  intros Hwf Hg Hp. rewrite (values_set_present m k v old Hwf Hg).
  assert (Hsame : forall r, In r (values m) ->
                            p (if String.eqb (id r) k then v else r) = p r).
  { intros r Hin. destruct (String.eqb (id r) k) eqn:E; auto.
    apply String.eqb_eq in E. pose proof (wf_value_get m r Hwf Hin) as Hr.
    rewrite E in Hr. congruence. }
  induction (values m) as [|r rest IH]; simpl; auto.
  rewrite (Hsame r (or_introl eq_refl)).
  destruct (p r); simpl; auto.
  apply IH. intros r' Hin. apply Hsame. now right.
Qed.

End StoreFacts.

(** ** Running the service *)

Module Run.
Import UserStore StoreFacts.

Lemma update_present m k data old :
  get k m = Some old ->
  UserStore.update m k data = (Some (spread old data), set k (spread old data) m).
Proof. unfold update. now intros ->. Qed.

Lemma set_set k v1 v2 m : set k v2 (set k v1 m) = set k v2 m.
Proof.
  induction m as [|[k0 v0] rest IH]; simpl.
  - now rewrite String.eqb_refl.
  - destruct (String.eqb k0 k) eqn:E; simpl; rewrite E; auto. now rewrite IH.
Qed.

Lemma findUser_run name m : findUser name m = (Returned (resolve m name), m).
Proof.
  unfold findUser, bind, StoreCall.findByUsername, StoreCall.findByEmail,
    resolve, ret.
  now destruct (findByUsername m name).
Qed.

Lemma resolve_In m name u : resolve m name = Some u -> In u (values m).
Proof.
  unfold resolve, findByUsername, findByEmail.
  destruct (find _ (values m)) eqn:E1.
  - intros [= <-]. now apply find_some in E1.
  - intros E2. now apply find_some in E2.
Qed.

Lemma resolve_get m name u :
  wf m = true -> resolve m name = Some u -> get (id u) m = Some u.
Proof. intros Hwf Hr. apply wf_value_get; auto. eapply resolve_In; eauto. Qed.

(** A login name keeps resolving to the same account while the account is
    rewritten in place with the same username and email. *)
Lemma resolve_set_present m k v old name :
  wf m = true -> get k m = Some old ->
  username v = username old -> email v = email old ->
  resolve (set k v m) name
  = option_map (fun r => if String.eqb (id r) k then v else r) (resolve m name).
Proof.
  intros Hwf Hg Hu He. unfold resolve, findByUsername, findByEmail.
  rewrite (find_set_present _ m k v old Hwf Hg) by now rewrite Hu.
  rewrite (find_set_present _ m k v old Hwf Hg) by now rewrite He.
  destruct (find _ (values m)); simpl; auto.
Qed.

Lemma loginSchema_id body params : loginSchema body = Some params -> params = body.
Proof. unfold loginSchema. destruct (_ && _); congruence. Qed.

Lemma userLogin_found {L : NodeLib} body clock m user :
  loginSchema body = Some body ->
  resolve m (li_username body) = Some user ->
  userLogin body clock m = authenticate user (li_password body) clock m.
Proof.
  intros Hv Hr. unfold userLogin. rewrite Hv. unfold bind.
  now rewrite findUser_run, Hr.
Qed.

End Run.

Ltac svc_unfold :=
  unfold authenticate, checkBlocked, failedAttempt, bind, ret, throw,
    StoreCall.update, StoreCall.getById, StoreCall.findByUsername,
    StoreCall.findByEmail, StoreCall.add, failure.

(** ** Login: the states that refuse before the password is looked at *)

Section LoginGates.
Context {L : NodeLib}.
Import UserStore StoreFacts Run.

(** C7.  A login that resolves to a [pendente] account throws
    [ACCOUNT_PENDING] whatever the password and whatever the hash function,
    and writes nothing: the password check is not on this path. *)
Theorem login_pending_account_refused :
  forall (m : Records) (body : LoginInput) (clock : LoginClock) (user : UserRecord),
    loginSchema body = Some body ->
    resolve m (li_username body) = Some user ->
    status user = pendente ->
    userLogin body clock m = (failure ACCOUNT_PENDING 403, m).
Proof.
  intros m body clock user Hv Hr Hs.
  rewrite (userLogin_found body clock m user Hv Hr).
  svc_unfold. rewrite Hs. reflexivity.
Qed.

(** C6.  A login that resolves to a [bloqueado] account whose
    [lastLoginAttempt] is less than thirty minutes before the clock read
    throws [ACCOUNT_BLOCKED] whatever the password, and leaves the whole
    store, hence the record and its [loginAttempts], as it was. *)
Theorem login_inside_lock_window_refused :
  forall (m : Records) (body : LoginInput) (clock : LoginClock)
         (user : UserRecord) (lastFailedAt : Z),
    loginSchema body = Some body ->
    resolve m (li_username body) = Some user ->
    status user = bloqueado ->
    lastLoginAttempt user = Some lastFailedAt ->
    atBlockCheck clock - lastFailedAt < thirtyMinutes ->
    userLogin body clock m = (failure ACCOUNT_BLOCKED 403, m).
Proof.
  intros m body clock user t Hv Hr Hs Hl Hw.
  rewrite (userLogin_found body clock m user Hv Hr).
  svc_unfold. rewrite Hs, Hl. simpl.
  apply Z.ltb_lt in Hw. rewrite Hw. reflexivity.
Qed.

End LoginGates.

(** ** Login: the password check and the attempt counter *)

Section LoginAttempts.
Context {L : NodeLib}.
Import UserStore StoreFacts Run.

(** The record a failed password check writes over [stored], computed from
    the attempts of the object [user] the call holds. *)
Lemma failedAttempt_run {A : Type} m user stored now :
  get (id user) m = Some stored ->
  @failedAttempt A user now m
  = if 3 <=? loginAttempts user + 1
    then (failure ACCOUNT_BLOCKED 403,
          set (id user) (spread stored (blockData (loginAttempts user + 1) now)) m)
    else (failure INVALID_CREDENTIALS 401,
          set (id user) (spread stored (countData (loginAttempts user + 1) now)) m).
Proof.
  intros Hg. svc_unfold.
  destruct (3 <=? loginAttempts user + 1);
    now rewrite (update_present m (id user) _ stored Hg).
Qed.

Lemma checkBlocked_open m user now :
  status user <> bloqueado -> checkBlocked user now m = (Returned tt, m).
Proof. unfold checkBlocked, ret. now destruct (status user). Qed.

Lemma checkBlocked_elapsed m user now :
  get (id user) m = Some user ->
  status user = bloqueado ->
  thirtyMinutes <= now - blockTime user ->
  checkBlocked user now m
  = (Returned tt, set (id user) (spread user unblockData) m).
Proof.
  intros Hg Hs Hw. svc_unfold. rewrite Hs. simpl.
  fold (blockTime user).
  apply Z.ltb_ge in Hw. rewrite Hw.
  now rewrite (update_present m (id user) _ user Hg).
Qed.

(** A wrong password against an account that is neither blocked nor
    pending. *)
Lemma authenticate_wrong_open m user password clock :
  get (id user) m = Some user ->
  status user = ativo \/ status user = inativo ->
  comparePassword password (passwordHash user) = false ->
  authenticate user password clock m
  = @failedAttempt UserLoginResponse user (atFailure clock) m.
Proof.
  intros Hg Hs Hp. unfold authenticate, bind.
  rewrite checkBlocked_open by (destruct Hs as [-> | ->]; discriminate).
  rewrite Hp. now destruct Hs as [-> | ->].
Qed.

(** A wrong password once the lock window is over: the store has the
    unblocked record, the call still holds the blocked one. *)
Lemma authenticate_wrong_after_unblock m user password clock :
  get (id user) m = Some user ->
  status user = bloqueado ->
  thirtyMinutes <= atBlockCheck clock - blockTime user ->
  comparePassword password (passwordHash user) = false ->
  authenticate user password clock m
  = @failedAttempt UserLoginResponse user (atFailure clock)
      (set (id user) (spread user unblockData) m).
Proof.
  intros Hg Hs Hw Hp. unfold authenticate, bind.
  rewrite checkBlocked_elapsed by assumption.
  now rewrite Hs, Hp.
Qed.

(** One wrong password against an [ativo] account. *)
Lemma login_wrong_password_step m user body clock :
  wf m = true ->
  loginSchema body = Some body ->
  resolve m (li_username body) = Some user ->
  status user = ativo ->
  comparePassword (li_password body) (passwordHash user) = false ->
  let n := loginAttempts user + 1 in
  let user' := spread user (if 3 <=? n then blockData n (atFailure clock)
                            else countData n (atFailure clock)) in
  userLogin body clock m
  = (failure (if 3 <=? n then ACCOUNT_BLOCKED else INVALID_CREDENTIALS)
             (if 3 <=? n then 403 else 401),
     set (id user) user' m)
  /\ wf (set (id user) user' m) = true
  /\ forall name, resolve m name = Some user ->
                  resolve (set (id user) user' m) name = Some user'.
Proof.
  intros Hwf Hv Hr Hs Hp n user'.
  pose proof (resolve_get m _ user Hwf Hr) as Hg.
  assert (Hid : id user' = id user) by (unfold user'; now destruct (3 <=? n)).
  split; [|split].
  - rewrite (userLogin_found body clock m user Hv Hr).
    rewrite authenticate_wrong_open by auto.
    rewrite (failedAttempt_run m user user _ Hg).
    fold n. unfold user'. now destruct (3 <=? n).
  - now apply (wf_set_present m (id user) user' user).
  - intros name Hn.
    rewrite (resolve_set_present m (id user) user' user name Hwf Hg).
    + rewrite Hn. simpl. now rewrite String.eqb_refl.
    + unfold user'. now destruct (3 <=? n).
    + unfold user'. now destruct (3 <=? n).
Qed.

(** C3.  Against an [ativo] account with [loginAttempts = 0], three
    logins in a row that resolve to it with a wrong password: the first two
    throw [INVALID_CREDENTIALS], the third throws [ACCOUNT_BLOCKED] and
    leaves the account [bloqueado]. *)
Theorem three_wrong_passwords_block_account :
  forall (m : Records) (user : UserRecord)
         (b1 b2 b3 : LoginInput) (c1 c2 c3 : LoginClock),
    wf m = true ->
    status user = ativo ->
    loginAttempts user = 0 ->
    (forall b, In b [b1; b2; b3] ->
               loginSchema b = Some b /\
               resolve m (li_username b) = Some user /\
               comparePassword (li_password b) (passwordHash user) = false) ->
    let r1 := userLogin b1 c1 m in
    let r2 := userLogin b2 c2 (storeAfter r1) in
    let r3 := userLogin b3 c3 (storeAfter r2) in
    outcome r1 = failure INVALID_CREDENTIALS 401 /\
    outcome r2 = failure INVALID_CREDENTIALS 401 /\
    outcome r3 = failure ACCOUNT_BLOCKED 403 /\
    option_map status (get (id user) (storeAfter r3)) = Some bloqueado.
Proof.
  intros m user b1 b2 b3 c1 c2 c3 Hwf Hs Ha Hall.
  destruct (Hall b1) as (Hv1 & Hr1 & Hp1); [simpl; auto|].
  destruct (Hall b2) as (Hv2 & Hr2 & Hp2); [simpl; auto|].
  destruct (Hall b3) as (Hv3 & Hr3 & Hp3); [simpl; auto|].
  pose proof (login_wrong_password_step m user b1 c1 Hwf Hv1 Hr1 Hs Hp1) as S1.
  cbv zeta in S1. rewrite Ha in S1.
  change (3 <=? 0 + 1) with false in S1. cbv iota in S1.
  set (u1 := spread user (countData (0 + 1) (atFailure c1))) in *.
  set (m1 := set (id user) u1 m) in *.
  destruct S1 as (E1 & Hwf1 & Hres1).
  assert (Hs1 : status u1 = ativo) by exact Hs.
  pose proof (login_wrong_password_step m1 u1 b2 c2 Hwf1 Hv2 (Hres1 _ Hr2)
                Hs1 Hp2) as S2.
  cbv zeta in S2.
  change (loginAttempts u1) with (0 + 1) in S2.
  change (3 <=? 0 + 1 + 1) with false in S2. cbv iota in S2.
  change (id u1) with (id user) in S2.
  set (u2 := spread u1 (countData (0 + 1 + 1) (atFailure c2))) in *.
  set (m2 := set (id user) u2 m1) in *.
  destruct S2 as (E2 & Hwf2 & Hres2).
  assert (Hs2 : status u2 = ativo) by exact Hs.
  pose proof (login_wrong_password_step m2 u2 b3 c3 Hwf2 Hv3
                (Hres2 _ (Hres1 _ Hr3)) Hs2 Hp3) as S3.
  cbv zeta in S3.
  change (loginAttempts u2) with (0 + 1 + 1) in S3.
  change (3 <=? 0 + 1 + 1 + 1) with true in S3. cbv iota in S3.
  change (id u2) with (id user) in S3.
  destruct S3 as (E3 & _ & _).
  intros r1 r2 r3. unfold r3, r2, r1, storeAfter, outcome.
  rewrite E1. simpl. rewrite E2. simpl. rewrite E3. simpl.
  repeat split. now rewrite get_set_same.
Qed.

(** C1, as the code has it.  A login that resolves to a [bloqueado]
    account once thirty minutes have passed, with a wrong password: the
    store is first given the unblocked record, but the new count is taken
    from the object read before that, so with [loginAttempts >= 2] in that
    object (3 after a lockout) the call throws [ACCOUNT_BLOCKED] and leaves
    the account [bloqueado] with one attempt more than it had. *)
Theorem login_after_lock_window_wrong_password :
  forall (m : Records) (body : LoginInput) (clock : LoginClock) (user : UserRecord),
    wf m = true ->
    loginSchema body = Some body ->
    resolve m (li_username body) = Some user ->
    status user = bloqueado ->
    thirtyMinutes <= atBlockCheck clock - blockTime user ->
    comparePassword (li_password body) (passwordHash user) = false ->
    2 <= loginAttempts user ->
    let r := userLogin body clock m in
    outcome r = failure ACCOUNT_BLOCKED 403 /\
    exists stored,
      getById (storeAfter r) (id user) = Some stored /\
      status stored = bloqueado /\
      loginAttempts stored = loginAttempts user + 1 /\
      lastLoginAttempt stored = Some (atFailure clock).
Proof.
  intros m body clock user Hwf Hv Hr Hs Hw Hp Hn r.
  pose proof (resolve_get m _ user Hwf Hr) as Hg.
  assert (E : r = (failure ACCOUNT_BLOCKED 403,
                   set (id user)
                       (spread (spread user unblockData)
                               (blockData (loginAttempts user + 1) (atFailure clock)))
                       m)).
  { unfold r. rewrite (userLogin_found body clock m user Hv Hr).
    rewrite authenticate_wrong_after_unblock by auto.
    rewrite (failedAttempt_run _ user (spread user unblockData))
      by apply get_set_same.
    replace (3 <=? loginAttempts user + 1) with true
      by (symmetry; apply Z.leb_le; lia).
    now rewrite set_set. }
  rewrite E. unfold outcome, storeAfter, getById. simpl. split; auto.
  eexists. split; [apply get_set_same|]. repeat split.
Qed.

End LoginAttempts.

(** ** Login: success *)

Section LoginSuccess.
Context {L : NodeLib}.
Import UserStore StoreFacts Run.

Lemma authenticate_ok_open m user password clock :
  get (id user) m = Some user ->
  status user = ativo \/ status user = inativo ->
  comparePassword password (passwordHash user) = true ->
  authenticate user password clock m
  = (Returned (loginResponse user clock),
     set (id user) (spread user resetData) m).
Proof.
  intros Hg Hs Hp. unfold authenticate, bind.
  rewrite checkBlocked_open by (destruct Hs as [-> | ->]; discriminate).
  rewrite Hp. simpl.
  replace (Status_eqb (status user) pendente) with false
    by (now destruct Hs as [-> | ->]).
  unfold StoreCall.update. now rewrite (update_present m (id user) _ user Hg).
Qed.

Lemma authenticate_ok_after_unblock m user password clock :
  get (id user) m = Some user ->
  status user = bloqueado ->
  thirtyMinutes <= atBlockCheck clock - blockTime user ->
  comparePassword password (passwordHash user) = true ->
  authenticate user password clock m
  = (Returned (loginResponse user clock),
     set (id user) (spread (spread user unblockData) resetData) m).
Proof.
  intros Hg Hs Hw Hp. unfold authenticate, bind.
  rewrite checkBlocked_elapsed by assumption.
  rewrite Hs, Hp. simpl. unfold StoreCall.update.
  rewrite (update_present _ (id user) _ (spread user unblockData))
    by apply get_set_same.
  now rewrite set_set.
Qed.

(** [authenticate] returns only past the lock window, for a record that
    is not pending, with the right password. *)
Lemma authenticate_returns m user password clock response m' :
  get (id user) m = Some user ->
  authenticate user password clock m = (Returned response, m') ->
  comparePassword password (passwordHash user) = true /\
  response = loginResponse user clock /\
  m' = set (id user)
           (spread (if Status_eqb (status user) bloqueado
                    then spread user unblockData else user) resetData) m.
Proof.
  intros Hg Hrun.
  destruct (comparePassword password (passwordHash user)) eqn:Hp.
  - destruct (status user) eqn:Hs.
    + rewrite authenticate_ok_open in Hrun by auto.
      injection Hrun as <- <-. auto.
    + rewrite authenticate_ok_open in Hrun by auto.
      injection Hrun as <- <-. auto.
    + destruct (Z.lt_ge_cases (atBlockCheck clock - blockTime user) thirtyMinutes)
        as [Hin | Hout].
      * exfalso. revert Hrun. svc_unfold. rewrite Hs. simpl.
        fold (blockTime user). apply Z.ltb_lt in Hin. now rewrite Hin.
      * rewrite authenticate_ok_after_unblock in Hrun by auto.
        injection Hrun as <- <-. auto.
    + exfalso. revert Hrun. svc_unfold. now rewrite Hs.
  - exfalso. destruct (status user) eqn:Hs.
    + rewrite authenticate_wrong_open, (failedAttempt_run m user user _ Hg)
        in Hrun by auto.
      now destruct (3 <=? loginAttempts user + 1).
    + rewrite authenticate_wrong_open, (failedAttempt_run m user user _ Hg)
        in Hrun by auto.
      now destruct (3 <=? loginAttempts user + 1).
    + destruct (Z.lt_ge_cases (atBlockCheck clock - blockTime user) thirtyMinutes)
        as [Hin | Hout].
      * revert Hrun. svc_unfold. rewrite Hs. simpl.
        fold (blockTime user). apply Z.ltb_lt in Hin. now rewrite Hin.
      * rewrite authenticate_wrong_after_unblock in Hrun by auto.
        rewrite (failedAttempt_run _ user (spread user unblockData)) in Hrun
          by apply get_set_same.
        now destruct (3 <=? loginAttempts user + 1).
    + revert Hrun. svc_unfold. now rewrite Hs.
Qed.

End LoginSuccess.

(** ** Registration *)

Section Registration.
Context {L : NodeLib} {Zd : Zod}.
Import UserStore StoreFacts Run.

Lemma registerSchema_fields body params :
  registerSchema body = Some params ->
  ri_username params = rb_username body /\
  ri_email params = rb_email body /\
  ri_password params = rb_password body.
Proof.
  unfold registerSchema.
  destruct (_ && _); [|discriminate].
  destruct (selfServiceProfile (rb_profile body)); [|discriminate].
  now intros [= <-].
Qed.

Lemma findByUsername_none m name :
  (forall r, In r (values m) -> ~ sameIgnoringCase (username r) name) ->
  findByUsername m name = None.
Proof.
  intros H. unfold findByUsername.
  destruct (find _ (values m)) as [r|] eqn:E; auto.
  apply find_some in E as [Hin Heq]. apply String.eqb_eq in Heq.
  now destruct (H r Hin).
Qed.

Lemma findByEmail_none m mail :
  (forall r, In r (values m) -> ~ sameIgnoringCase (email r) mail) ->
  findByEmail m mail = None.
Proof.
  intros H. unfold findByEmail.
  destruct (find _ (values m)) as [r|] eqn:E; auto.
  apply find_some in E as [Hin Heq]. apply String.eqb_eq in Heq.
  now destruct (H r Hin).
Qed.

(** C8.  A body that passes [registerSchema] and whose username and email
    match no stored account up to letter case is registered: the call
    returns, the record stored under the new id is [pendente] with
    [loginAttempts = 0], no [lastLoginAttempt], and [dateCreated =
    dateModified = now]; the response is the seven public fields, none of
    them computed from the password or its hash. *)
Theorem register_creates_pending_account :
  forall (m : Records) (body : RegisterBody) (params : RegisterInput)
         (newId : string) (now : Z),
    registerSchema body = Some params ->
    (forall r, In r (values m) -> ~ sameIgnoringCase (username r) (rb_username body)) ->
    (forall r, In r (values m) -> ~ sameIgnoringCase (email r) (rb_email body)) ->
    exists created,
      userRegister body newId now m
      = (Returned {| res_id := newId;
                     res_username := rb_username body;
                     res_email := rb_email body;
                     res_profile := Profile_toString (ri_profile params);
                     res_avatar := None;
                     res_status := pendente;
                     res_dateCreated := now |},
         set newId created m) /\
      getById (set newId created m) newId = Some created /\
      id created = newId /\
      username created = rb_username body /\
      email created = rb_email body /\
      passwordHash created = hashPassword (rb_password body) /\
      profile created = ri_profile params /\
      status created = pendente /\
      loginAttempts created = 0 /\
      lastLoginAttempt created = None /\
      dateCreated created = now /\
      dateModified created = now.
Proof.
  intros m body params newId now Hv Hu He.
  destruct (registerSchema_fields body params Hv) as (Eu & Ee & Ep).
  eexists. split.
  - unfold userRegister. rewrite Hv. svc_unfold.
    rewrite Eu, Ee, Ep.
    rewrite (findByUsername_none m _ Hu), (findByEmail_none m _ He).
    simpl. reflexivity.
  - unfold getById. rewrite get_set_same. simpl. repeat split; reflexivity.
Qed.

End Registration.

(** ** Profile update *)

Section ProfileUpdate.
Context {Zd : Zod}.
Import UserStore StoreFacts Run.

Lemma paramsSchema_id i j : paramsSchema i = Some j -> j = i.
Proof. unfold paramsSchema. destruct (z_uuid i); congruence. Qed.

Lemma updateSchema_fields body updateData :
  updateSchema body = Some updateData ->
  (forall name, ui_username updateData = Some name -> usernameSchema name = true) /\
  (forall mail, ui_email updateData = Some mail -> z_email mail = true).
Proof.
  unfold updateSchema.
  destruct (optionalSchema usernameSchema (ub_username body)) eqn:E1;
    [|discriminate].
  destruct (optionalSchema emailSchema (ub_email body)) eqn:E2;
    [|discriminate].
  simpl. destruct (match ub_avatar body with Some (Some _) => _ | _ => _ end);
    [|discriminate].
  intros H.
  assert (ui_username updateData = ub_username body
          /\ ui_email updateData = ub_email body) as [-> ->].
  { destruct (ub_profile body) as [s|].
    - destruct (selfServiceProfile s); [|discriminate]. now injection H as <-.
    - now injection H as <-. }
  split; intros x Hx.
  - now rewrite Hx in E1.
  - now rewrite Hx in E2.
Qed.

Lemma usernameSchema_truthy name : usernameSchema name = true -> JsString.truthy name = true.
Proof.
  unfold usernameSchema. intros H.
  apply andb_true_iff in H as [_ H]. now apply andb_true_iff in H as [H _].
Qed.

Lemma findByUsername_hit m a name :
  In a (values m) -> sameIgnoringCase (username a) name ->
  exists r, findByUsername m name = Some r.
Proof.
  intros Hin Hsame. unfold findByUsername.
  destruct (find _ (values m)) as [r|] eqn:E; [now exists r|].
  apply (find_none _ _ E) in Hin. apply String.eqb_neq in Hin.
  contradiction.
Qed.

Lemma findByEmail_hit m a mail :
  In a (values m) -> sameIgnoringCase (email a) mail ->
  exists r, findByEmail m mail = Some r.
Proof.
  intros Hin Hsame. unfold findByEmail.
  destruct (find _ (values m)) as [r|] eqn:E; [now exists r|].
  apply (find_none _ _ E) in Hin. apply String.eqb_neq in Hin.
  contradiction.
Qed.

Lemma changing_some x current s :
  x = Some s -> JsString.truthy s = true -> s <> current ->
  changing x current = Some s.
Proof.
  intros -> Ht Hne. unfold changing. rewrite Ht.
  apply String.eqb_neq in Hne. now rewrite Hne.
Qed.

(** The username block of the update throws when the new name, which
    differs from the current one, is found by the scan. *)
Lemma update_username_taken m i body updateData now current holder name :
  paramsSchema i = Some i ->
  updateSchema body = Some updateData ->
  getById m i = Some current ->
  ui_username updateData = Some name ->
  name <> username current ->
  findByUsername m name = Some holder ->
  userUpdateProfile i body now m = (failure DUPLICATE_USERNAME 409, m).
Proof.
  intros Hi Hv Hg Hn Hne Hfind.
  destruct (updateSchema_fields body updateData Hv) as [Hname _].
  unfold userUpdateProfile. rewrite Hi, Hv. svc_unfold. rewrite Hg.
  rewrite (changing_some _ (username current) name Hn
             (usernameSchema_truthy _ (Hname _ Hn)) Hne).
  now rewrite Hfind.
Qed.

Lemma update_username_collision m i body updateData now current holder name :
  paramsSchema i = Some i ->
  updateSchema body = Some updateData ->
  getById m i = Some current ->
  ui_username updateData = Some name ->
  name <> username current ->
  In holder (values m) ->
  sameIgnoringCase (username holder) name ->
  userUpdateProfile i body now m = (failure DUPLICATE_USERNAME 409, m).
Proof.
  intros Hi Hv Hg Hn Hne Hin Hsame.
  destruct (findByUsername_hit m holder name Hin Hsame) as [r Hr].
  now apply (update_username_taken m i body updateData now current r name).
Qed.

(** The username of a patch either passes the username block or is a new
    name that the scan finds. *)
Lemma usernameAccepted_cases m current updateData :
  usernameAccepted m current updateData \/
  exists name holder,
    ui_username updateData = Some name /\
    name <> username current /\
    findByUsername m name = Some holder.
Proof.
  unfold usernameAccepted.
  destruct (ui_username updateData) as [n|]; [|left; discriminate].
  destruct (String.eqb n (username current)) eqn:E.
  - apply String.eqb_eq in E. left. intros name [= <-]. now left.
  - apply String.eqb_neq in E.
    destruct (findByUsername m n) as [holder|] eqn:F.
    + right. now exists n, holder.
    + left. intros name [= <-]. now right.
Qed.

(** The email block throws when the username block lets the patch through
    and the new address, which differs from the current one, is the email
    of a stored account up to letter case. *)
Lemma update_email_collision m i body updateData now current holder mail :
  ZodLaws Zd ->
  paramsSchema i = Some i ->
  updateSchema body = Some updateData ->
  getById m i = Some current ->
  usernameAccepted m current updateData ->
  ui_email updateData = Some mail ->
  mail <> email current ->
  In holder (values m) ->
  sameIgnoringCase (email holder) mail ->
  userUpdateProfile i body now m = (failure DUPLICATE_EMAIL 409, m).
Proof.
  intros [Hz] Hi Hv Hg Hacc Hm Hne Hin Hsame.
  destruct (updateSchema_fields body updateData Hv) as [Hname Hmail].
  unfold userUpdateProfile. rewrite Hi, Hv. svc_unfold. rewrite Hg.
  assert (Hu : match changing (ui_username updateData) (username current) with
               | Some newName => findByUsername m newName = None
               | None => True
               end).
  { unfold usernameAccepted in Hacc. unfold changing.
    destruct (ui_username updateData) as [n|]; auto.
    destruct (Hacc n eq_refl) as [-> | Hfree].
    - rewrite String.eqb_refl, andb_false_r. exact I.
    - now destruct (_ && _). }
  assert (Ht : JsString.truthy mail = true).
  { destruct mail; [|reflexivity]. specialize (Hmail _ Hm). congruence. }
  destruct (changing (ui_username updateData) (username current)) as [n|].
  - rewrite Hu.
    rewrite (changing_some _ (email current) mail Hm Ht Hne).
    now destruct (findByEmail_hit m holder mail Hin Hsame) as [r ->].
  - rewrite (changing_some _ (email current) mail Hm Ht Hne).
    now destruct (findByEmail_hit m holder mail Hin Hsame) as [r ->].
Qed.

Lemma getById_In m i a : getById m i = Some a -> In a (values m).
Proof.
  intros Hg. apply get_In in Hg. unfold values.
  apply in_map_iff. now exists (i, a).
Qed.

(** C5.  With the stored emails unique up to letter case, a validated
    patch for account [a] whose email equals, up to letter case, the email of
    another stored account [b] is refused, and the store after the call is
    the store before it: both records read back as they were.  The username
    block runs first: when the patch also carries a username other than
    [a]'s own that a stored account has up to letter case, the error is
    [DUPLICATE_USERNAME]; in every other case (no username, [a]'s own, or
    one the store does not know) it is [DUPLICATE_EMAIL]. *)
Theorem update_to_taken_email_rejected :
  forall (m : Records) (i : string) (body : UpdateBody) (updateData : UpdateInput)
         (now : Z) (a b : UserRecord) (mail : string),
    ZodLaws Zd ->
    wf m = true ->
    uniqueEmails m ->
    paramsSchema i = Some i ->
    updateSchema body = Some updateData ->
    getById m i = Some a ->
    In b (values m) ->
    id b <> id a ->
    ui_email updateData = Some mail ->
    sameIgnoringCase mail (email b) ->
    let r := userUpdateProfile i body now m in
    (usernameAccepted m a updateData -> outcome r = failure DUPLICATE_EMAIL 409) /\
    (forall name holder,
        ui_username updateData = Some name ->
        name <> username a ->
        In holder (values m) ->
        sameIgnoringCase (username holder) name ->
        outcome r = failure DUPLICATE_USERNAME 409) /\
    (outcome r = failure DUPLICATE_EMAIL 409 \/
     outcome r = failure DUPLICATE_USERNAME 409) /\
    storeAfter r = m /\
    getById (storeAfter r) (id a) = Some a /\
    getById (storeAfter r) (id b) = Some b.
Proof.
  intros m i body updateData now a b mail Hz Hwf Huniq Hi Hv Hg Hb Hab Hm Hsame.
  pose proof (getById_In m i a Hg) as Ha.
  assert (Hne : mail <> email a).
  { intros ->. apply Hab. symmetry. now apply Huniq. }
  assert (Hmail : usernameAccepted m a updateData ->
                  userUpdateProfile i body now m = (failure DUPLICATE_EMAIL 409, m)).
  { intros Hacc.
    apply (update_email_collision m i body updateData now a b mail); auto.
    unfold sameIgnoringCase in *. congruence. }
  assert (Hrun : userUpdateProfile i body now m = (failure DUPLICATE_EMAIL 409, m)
                 \/ userUpdateProfile i body now m
                    = (failure DUPLICATE_USERNAME 409, m)).
  { destruct (usernameAccepted_cases m a updateData)
      as [Hacc | (name & holder & Hn & Hnew & Hfind)].
    - left. now apply Hmail.
    - right.
      now apply (update_username_taken m i body updateData now a holder name). }
  intros r. unfold r, outcome, storeAfter, getById.
  split; [intros Hacc; now rewrite (Hmail Hacc)|].
  split.
  { intros name holder Hn Hnew Hin Hs.
    now rewrite (update_username_collision m i body updateData now a holder name). }
  split; [destruct Hrun as [-> | ->]; simpl; auto|].
  destruct Hrun as [-> | ->]; simpl; repeat split; now apply wf_value_get.
Qed.

(** C10.  A patch for account [a] whose username differs from [a]'s own
    only by letter case is refused with [DUPLICATE_USERNAME]: the scan finds
    a record, if no other then [a] itself.  One whose email differs from
    [a]'s own only by letter case is refused as well, the store left as it
    was.  The username block runs first: the error is [DUPLICATE_USERNAME]
    when the patch also carries a username other than [a]'s own that a
    stored account has up to letter case, and [DUPLICATE_EMAIL] in every
    other case (no username, [a]'s own, or one the store does not know). *)
Theorem update_case_only_change_rejected :
  forall (m : Records) (i : string) (body : UpdateBody) (updateData : UpdateInput)
         (now : Z) (a : UserRecord),
    ZodLaws Zd ->
    paramsSchema i = Some i ->
    updateSchema body = Some updateData ->
    getById m i = Some a ->
    (forall name,
        ui_username updateData = Some name ->
        name <> username a ->
        sameIgnoringCase name (username a) ->
        userUpdateProfile i body now m = (failure DUPLICATE_USERNAME 409, m))
    /\
    (forall mail,
        ui_email updateData = Some mail ->
        mail <> email a ->
        sameIgnoringCase mail (email a) ->
        (usernameAccepted m a updateData ->
         userUpdateProfile i body now m = (failure DUPLICATE_EMAIL 409, m)) /\
        (forall name holder,
            ui_username updateData = Some name ->
            name <> username a ->
            In holder (values m) ->
            sameIgnoringCase (username holder) name ->
            userUpdateProfile i body now m = (failure DUPLICATE_USERNAME 409, m)) /\
        (userUpdateProfile i body now m = (failure DUPLICATE_EMAIL 409, m) \/
         userUpdateProfile i body now m = (failure DUPLICATE_USERNAME 409, m))).
Proof.
  intros m i body updateData now a Hz Hi Hv Hg.
  pose proof (getById_In m i a Hg) as Ha.
  split.
  - intros name Hn Hne Hsame.
    apply (update_username_collision m i body updateData now a a name); auto.
    unfold sameIgnoringCase in *. congruence.
  - intros mail Hm Hne Hsame.
    assert (Hmail : usernameAccepted m a updateData ->
                    userUpdateProfile i body now m
                    = (failure DUPLICATE_EMAIL 409, m)).
    { intros Hacc.
      apply (update_email_collision m i body updateData now a a mail); auto.
      unfold sameIgnoringCase in *. congruence. }
    split; [exact Hmail|]. split.
    + intros name holder Hn Hnew Hin Hs.
      now apply (update_username_collision m i body updateData now a holder name).
    + destruct (usernameAccepted_cases m a updateData)
        as [Hacc | (name & holder & Hn & Hnew & Hfind)].
      * left. now apply Hmail.
      * right.
        now apply (update_username_taken m i body updateData now a holder name).
Qed.

End ProfileUpdate.

(** ** The store invariant is kept by every operation *)

Section Invariant.
Context {L : NodeLib} {Zd : Zod}.
Import UserStore StoreFacts Run.

Lemma keys_set k v m :
  forall k', In k' (map fst (set k v m)) <-> k' = k \/ In k' (map fst m).
Proof.
  intros k'. induction m as [|[k0 v0] rest IH]; simpl.
  - intuition congruence.
  - destruct (String.eqb k0 k) eqn:E; simpl.
    + apply String.eqb_eq in E. subst k0. intuition congruence.
    + rewrite IH. tauto.
Qed.

Lemma keysDistinct_spec m : keysDistinct m = true <-> NoDup (map fst m).
Proof.
  induction m as [|[k v] rest IH]; simpl.
  - split; [constructor | reflexivity].
  - rewrite andb_true_iff, negb_true_iff, IH. split.
    + intros [Hfresh Hnd]. constructor; auto. intros Hin.
      apply in_map_iff in Hin as [[k' v'] [Hk Hin]]. simpl in Hk. subst k'.
      assert (existsb (fun kv => String.eqb (fst kv) k) rest = true); [|congruence].
      apply existsb_exists. exists (k, v'). split; auto. apply String.eqb_refl.
    + intros Hnd. inversion Hnd as [|? ? Hnotin Hnd']; subst. split; auto.
      destruct (existsb _ rest) eqn:E; auto.
      apply existsb_exists in E as [[k' v'] [Hin Hk]]. simpl in Hk.
      apply String.eqb_eq in Hk. subst k'. exfalso. apply Hnotin.
      apply in_map_iff. now exists (k, v').
Qed.

Lemma NoDup_keys_set k v m : NoDup (map fst m) -> NoDup (map fst (set k v m)).
Proof.
  induction m as [|[k0 v0] rest IH]; simpl; intros Hnd.
  - repeat constructor. simpl. tauto.
  - inversion Hnd as [|? ? Hnotin Hnd']; subst.
    destruct (String.eqb k0 k) eqn:E; simpl.
    + now constructor.
    + constructor; auto. rewrite keys_set. intros [-> | Hin]; auto.
      now rewrite String.eqb_refl in E.
Qed.

(** The entries after a [set]: the new one, and the old ones under the
    other keys. *)
Lemma In_set k v m k' v' :
  NoDup (map fst m) ->
  In (k', v') (set k v m) -> (k' = k /\ v' = v) \/ (In (k', v') m /\ k' <> k).
Proof.
  induction m as [|[k0 v0] rest IH]; simpl; intros Hnd.
  - intros [[= <- <-] | []]. now left.
  - inversion Hnd as [|? ? Hnotin Hnd']; subst.
    destruct (String.eqb k0 k) eqn:E; simpl.
    + apply String.eqb_eq in E. subst k0.
      intros [[= <- <-] | Hin]; [now left|].
      right. split; auto. intros ->. apply Hnotin.
      apply in_map_iff. now exists (k, v').
    + apply String.eqb_neq in E.
      intros [[= <- <-] | Hin]; [right; auto|].
      destruct (IH Hnd' Hin) as [? | [? ?]]; auto.
Qed.

Lemma wf_set m k v : wf m = true -> id v = k -> wf (set k v m) = true.
Proof.
  intros Hwf Hid. apply wf_split in Hwf as [Hd Hk]. apply wf_split. split.
  - apply keysDistinct_spec, NoDup_keys_set. now apply keysDistinct_spec.
  - intros k' v' Hin.
    apply In_set in Hin as [[-> ->] | [Hin _]]; auto.
    now apply keysDistinct_spec.
Qed.

Lemma In_values_set m k v r :
  wf m = true -> In r (values (set k v m)) ->
  r = v \/ (In r (values m) /\ id r <> k).
Proof.
  intros Hwf Hin. apply wf_split in Hwf as [Hd Hk].
  apply in_map_iff in Hin as [[k' v'] [Hr Hin]]. simpl in Hr. subst v'.
  apply In_set in Hin as [[_ ->] | [Hin Hne]]; [now left| |now apply keysDistinct_spec].
  right. split.
  - apply in_map_iff. now exists (k', r).
  - now rewrite <- (Hk _ _ Hin).
Qed.

(** Writing under [k] a record with id [k] that collides with no record
    stored under another key keeps the invariant. *)
Lemma invariant_set m k v :
  storeInvariant m ->
  id v = k ->
  (forall r, In r (values m) -> id r <> k ->
             ~ sameIgnoringCase (username r) (username v)) ->
  (forall r, In r (values m) -> id r <> k ->
             ~ sameIgnoringCase (email r) (email v)) ->
  storeInvariant (set k v m).
Proof.
  intros (Hwf & Hun & Hum) Hid Hu He. split; [|split].
  - now apply wf_set.
  - intros a b Ha Hb Hsame.
    apply (In_values_set m k v a Hwf) in Ha as [-> | [Ha Hak]];
      apply (In_values_set m k v b Hwf) in Hb as [-> | [Hb Hbk]]; auto.
    + destruct (Hu b Hb Hbk). unfold sameIgnoringCase in *. congruence.
    + now destruct (Hu a Ha Hak).
  - intros a b Ha Hb Hsame.
    apply (In_values_set m k v a Hwf) in Ha as [-> | [Ha Hak]];
      apply (In_values_set m k v b Hwf) in Hb as [-> | [Hb Hbk]]; auto.
    + destruct (He b Hb Hbk). unfold sameIgnoringCase in *. congruence.
    + now destruct (He a Ha Hak).
Qed.

(** Rewriting a stored record without touching id, username or email. *)
Lemma invariant_set_same m k v old :
  storeInvariant m ->
  get k m = Some old ->
  id v = id old -> username v = username old -> email v = email old ->
  storeInvariant (set k v m).
Proof.
  intros Hinv Hg Hid Hu He. pose proof Hinv as (Hwf & Hun & Hum).
  pose proof (wf_get_id m k old Hwf Hg) as Hk.
  assert (Hold : In old (values m)).
  { apply in_map_iff. exists (k, old). split; auto. now apply get_In. }
  apply invariant_set; auto; try congruence.
  - intros r Hr Hne Hsame. apply Hne. rewrite <- Hk. apply Hun; auto. congruence.
  - intros r Hr Hne Hsame. apply Hne. rewrite <- Hk. apply Hum; auto. congruence.
Qed.

Lemma invariant_empty : storeInvariant [].
Proof. split; [reflexivity|]. split; intros a b []. Qed.

Lemma findByUsername_fresh m name r :
  findByUsername m name = None -> In r (values m) ->
  ~ sameIgnoringCase (username r) name.
Proof.
  unfold findByUsername. intros Hnone Hin Hsame.
  apply (find_none _ _ Hnone) in Hin. apply String.eqb_neq in Hin. contradiction.
Qed.

Lemma findByEmail_fresh m mail r :
  findByEmail m mail = None -> In r (values m) ->
  ~ sameIgnoringCase (email r) mail.
Proof.
  unfold findByEmail. intros Hnone Hin Hsame.
  apply (find_none _ _ Hnone) in Hin. apply String.eqb_neq in Hin. contradiction.
Qed.

(** [userRegister] keeps the invariant, whatever id the generator hands
    out. *)
Lemma userRegister_invariant m body newId now :
  storeInvariant m ->
  storeInvariant (storeAfter (userRegister body newId now m)).
Proof.
  intros Hinv. unfold userRegister, storeAfter.
  destruct (registerSchema body) as [params|]; [|exact Hinv].
  svc_unfold.
  destruct (findByUsername m (ri_username params)) eqn:Hu; [exact Hinv|].
  destruct (findByEmail m (ri_email params)) eqn:He; [exact Hinv|].
  simpl. apply invariant_set; auto.
  - intros r Hr _. now apply (findByUsername_fresh m _ r Hu).
  - intros r Hr _. now apply (findByEmail_fresh m _ r He).
Qed.

(** [userLogin] keeps the invariant. *)
Lemma userLogin_invariant m body clock :
  storeInvariant m ->
  storeInvariant (storeAfter (userLogin body clock m)).
Proof.
  intros Hinv. pose proof Hinv as (Hwf & _ & _). unfold userLogin, storeAfter.
  destruct (loginSchema body) as [params|] eqn:Hv; [|exact Hinv].
  unfold bind. rewrite findUser_run.
  destruct (resolve m (li_username params)) as [user|] eqn:Hr; [|exact Hinv].
  pose proof (resolve_get m _ user Hwf Hr) as Hg.
  set (password := li_password params).
  assert (Hunblock : storeInvariant (set (id user) (spread user unblockData) m))
    by now apply (invariant_set_same m (id user) _ user).
  destruct (comparePassword password (passwordHash user)) eqn:Hp;
    destruct (status user) eqn:Hs.
  - rewrite authenticate_ok_open by auto.
    now apply (invariant_set_same m (id user) _ user).
  - rewrite authenticate_ok_open by auto.
    now apply (invariant_set_same m (id user) _ user).
  - destruct (Z.lt_ge_cases (atBlockCheck clock - blockTime user) thirtyMinutes)
      as [Hin | Hout].
    + svc_unfold. rewrite Hs. simpl. fold (blockTime user).
      apply Z.ltb_lt in Hin. now rewrite Hin.
    + rewrite authenticate_ok_after_unblock by auto.
      now apply (invariant_set_same m (id user) _ user).
  - svc_unfold. now rewrite Hs.
  - rewrite authenticate_wrong_open, (failedAttempt_run m user user _ Hg) by auto.
    destruct (3 <=? loginAttempts user + 1); simpl;
      now apply (invariant_set_same m (id user) _ user).
  - rewrite authenticate_wrong_open, (failedAttempt_run m user user _ Hg) by auto.
    destruct (3 <=? loginAttempts user + 1); simpl;
      now apply (invariant_set_same m (id user) _ user).
  - destruct (Z.lt_ge_cases (atBlockCheck clock - blockTime user) thirtyMinutes)
      as [Hin | Hout].
    + svc_unfold. rewrite Hs. simpl. fold (blockTime user).
      apply Z.ltb_lt in Hin. now rewrite Hin.
    + rewrite authenticate_wrong_after_unblock by auto.
      rewrite (failedAttempt_run _ user (spread user unblockData))
        by apply get_set_same.
      destruct (3 <=? loginAttempts user + 1); simpl; rewrite set_set;
        now apply (invariant_set_same m (id user) _ user).
  - svc_unfold. now rewrite Hs.
Qed.

Lemma changing_cases x current :
  (changing x current = None /\
   forall s, x = Some s -> JsString.truthy s = true -> s = current)
  \/ (exists s, changing x current = Some s /\ x = Some s).
Proof.
  unfold changing. destruct x as [s|].
  - destruct (JsString.truthy s) eqn:Ht; simpl.
    + destruct (String.eqb s current) eqn:E; simpl.
      * left. split; auto. intros s' [= <-] _. now apply String.eqb_eq.
      * right. now exists s.
    + left. split; auto. intros s' [= <-]. congruence.
  - left. split; auto. discriminate.
Qed.

(** [userUpdateProfile] keeps the invariant. *)
Lemma userUpdateProfile_invariant m i body now :
  ZodLaws Zd ->
  storeInvariant m ->
  storeInvariant (storeAfter (userUpdateProfile i body now m)).
Proof.
  intros [Hz] Hinv. pose proof Hinv as (Hwf & Hun & Hum).
  unfold userUpdateProfile, storeAfter.
  destruct (paramsSchema i) as [j|] eqn:Hi; [|exact Hinv].
  apply paramsSchema_id in Hi. subst j.
  destruct (updateSchema body) as [updateData|] eqn:Hv; [|exact Hinv].
  destruct (updateSchema_fields body updateData Hv) as [Hname Hmail].
  svc_unfold. unfold getById.
  destruct (get i m) as [user|] eqn:Hg; [|exact Hinv].
  pose proof (wf_get_id m i user Hwf Hg) as Hid.
  assert (Huser : In user (values m)).
  { apply in_map_iff. exists (i, user). split; auto. now apply get_In. }
  assert (Hu : forall r, In r (values m) -> id r <> i ->
                         ~ sameIgnoringCase (username r) (username user)).
  { intros r Hr Hne Hsame. apply Hne. rewrite <- Hid. now apply Hun. }
  assert (He : forall r, In r (values m) -> id r <> i ->
                         ~ sameIgnoringCase (email r) (email user)).
  { intros r Hr Hne Hsame. apply Hne. rewrite <- Hid. now apply Hum. }
  destruct (changing_cases (ui_username updateData) (username user))
    as [[Cu Ku] | (n & Cu & Xu)]; rewrite Cu.
  - destruct (changing_cases (ui_email updateData) (email user))
      as [[Ce Ke] | (e & Ce & Xe)]; rewrite Ce.
    + rewrite (update_present m i _ user Hg). simpl.
      apply invariant_set; auto; simpl.
      * destruct (ui_username updateData) as [s|] eqn:Xs; simpl; auto.
        rewrite (Ku s eq_refl (usernameSchema_truthy _ (Hname _ eq_refl))). auto.
      * destruct (ui_email updateData) as [s|] eqn:Xs; simpl; auto.
        rewrite (Ke s eq_refl); auto.
        destruct s; [|reflexivity]. specialize (Hmail _ eq_refl). congruence.
    + destruct (findByEmail m e) eqn:Fe; [exact Hinv|].
      rewrite (update_present m i _ user Hg). simpl.
      apply invariant_set; auto; simpl.
      * destruct (ui_username updateData) as [s|] eqn:Xs; simpl; auto.
        rewrite (Ku s eq_refl (usernameSchema_truthy _ (Hname _ eq_refl))). auto.
      * rewrite Xe. simpl. intros r Hr _. now apply (findByEmail_fresh m e r Fe).
  - destruct (findByUsername m n) eqn:Fu; [exact Hinv|].
    destruct (changing_cases (ui_email updateData) (email user))
      as [[Ce Ke] | (e & Ce & Xe)]; rewrite Ce.
    + rewrite (update_present m i _ user Hg). simpl.
      apply invariant_set; auto; simpl.
      * rewrite Xu. simpl. intros r Hr _. now apply (findByUsername_fresh m n r Fu).
      * destruct (ui_email updateData) as [s|] eqn:Xs; simpl; auto.
        rewrite (Ke s eq_refl); auto.
        destruct s; [|reflexivity]. specialize (Hmail _ eq_refl). congruence.
    + destruct (findByEmail m e) eqn:Fe; [exact Hinv|].
      rewrite (update_present m i _ user Hg). simpl.
      apply invariant_set; auto; simpl.
      * rewrite Xu. simpl. intros r Hr _. now apply (findByUsername_fresh m n r Fu).
      * rewrite Xe. simpl. intros r Hr _. now apply (findByEmail_fresh m e r Fe).
Qed.

End Invariant.

(** ** The token codec *)

Module SplitFacts.
Import JsString.

Lemma split_not_nil sep s : split sep s <> [].
Proof.
  destruct s as [|c rest]; simpl; [discriminate|].
  destruct (Ascii.eqb c sep); [discriminate|].
  destruct (split sep rest); discriminate.
Qed.

(** A string without the separator is its own single component. *)
Lemma split_free sep s : free_of sep s = true -> split sep s = [s].
Proof.
  unfold free_of. induction s as [|c rest IH]; simpl; auto.
  intros H. apply andb_true_iff in H as [Hc Hrest].
  apply negb_true_iff in Hc. rewrite Hc, (IH Hrest). reflexivity.
Qed.

(** The first component ends at the first separator. *)
Lemma split_app sep a b :
  free_of sep a = true -> split sep (a ++ String sep b) = a :: split sep b.
Proof.
  unfold free_of. induction a as [|c rest IH]; simpl.
  - intros _. now rewrite Ascii.eqb_refl.
  - intros H. apply andb_true_iff in H as [Hc Hrest].
    apply negb_true_iff in Hc. rewrite Hc, (IH Hrest). reflexivity.
Qed.

(** Every component is free of the separator. *)
Lemma split_components_free sep s :
  Forall (fun w => free_of sep w = true) (split sep s).
Proof.
  unfold free_of. induction s as [|c rest IH]; simpl.
  - repeat constructor.
  - destruct (Ascii.eqb c sep) eqn:E.
    + constructor; auto.
    + destruct (split sep rest) as [|w ws]; simpl.
      * repeat constructor. simpl. now rewrite E.
      * inversion IH; subst. constructor; auto. simpl. now rewrite E.
Qed.

(** The first component is the whole string or strictly shorter. *)
Lemma split_head_length sep s w ws :
  split sep s = w :: ws ->
  (ws = [] /\ w = s) \/ (String.length w < String.length s)%nat.
Proof.
  revert w ws. induction s as [|c rest IH]; simpl; intros w ws H.
  - injection H as <- <-. now left.
  - destruct (Ascii.eqb c sep).
    + injection H as <- <-. right. simpl. lia.
    + destruct (split sep rest) as [|w' ws'] eqn:E.
      * injection H as <- <-. now destruct (split_not_nil sep rest).
      * injection H as <- <-.
        destruct (IH w' ws' eq_refl) as [[-> ->] | Hlt]; [now left|].
        right. simpl. lia.
Qed.

Lemma setAt_length i c s : String.length (setAt i c s) = String.length s.
Proof.
  revert i. induction s as [|a rest IH]; intros [|j]; simpl; auto.
Qed.

Lemma setAt_changes i c s :
  (i < String.length s)%nat -> String.get i s <> Some c -> setAt i c s <> s.
Proof.
  revert i. induction s as [|a rest IH]; intros [|j]; simpl; intros Hi Hc.
  - lia.
  - lia.
  - intros [= ->]. now apply Hc.
  - intros [= E]. apply (IH j); auto. lia.
Qed.

End SplitFacts.

Section TokenCodec.
Context {L : NodeLib}.
Import JsString SplitFacts.

(** [verifyToken] reads the first three components and nothing else. *)
Lemma verifyToken_first_three token token' now :
  firstn 3 (split "." token) = firstn 3 (split "." token') ->
  verifyToken token now = verifyToken token' now.
Proof.
  intros H. unfold verifyToken.
  assert (Hn : forall n, (n < 3)%nat ->
               nth_error (split "." token) n = nth_error (split "." token') n).
  { intros n Hn.
    pose proof (nth_error_firstn 3 (split "." token) n) as E1.
    pose proof (nth_error_firstn 3 (split "." token') n) as E2.
    apply Nat.ltb_lt in Hn. rewrite Hn in E1, E2.
    rewrite <- E1, <- E2. now rewrite H. }
  rewrite (Hn 0%nat), (Hn 1%nat), (Hn 2%nat) by lia. reflexivity.
Qed.

Lemma split_three h b s :
  free_of "." h = true -> free_of "." b = true -> free_of "." s = true ->
  split "." (h ++ "." ++ b ++ "." ++ s) = [h; b; s].
Proof.
  intros Hh Hb Hs.
  change (h ++ "." ++ b ++ "." ++ s)
    with (h ++ String "." (b ++ String "." s)).
  now rewrite (split_app "." h _ Hh), (split_app "." b _ Hb), (split_free "." s Hs).
Qed.

(** A supplied signature that is not the recomputed one is refused. *)
Lemma verifyToken_bad_signature token now h b s rest :
  split "." token = h :: b :: s :: rest ->
  s <> hmac_sha256_base64 "secret-key" (h ++ "." ++ b) ->
  verifyToken token now = InvalidToken.
Proof.
  intros Hsplit Hne. unfold verifyToken. rewrite Hsplit.
  cbn [nth_error templ].
  apply String.eqb_neq in Hne. now rewrite Hne.
Qed.

End TokenCodec.

Section TokenRoundTrip.
Context {L : NodeLib} (laws : NodeLaws L).
Import JsString SplitFacts.

Lemma generateToken_split claims nowIat nowExp :
  split "." (generateToken claims nowIat nowExp)
  = [encodedHeader;
     tokenBody claims nowIat nowExp;
     tokenSignature encodedHeader (tokenBody claims nowIat nowExp)].
Proof.
  unfold generateToken. apply split_three.
  - apply (toBase64_no_dot laws).
  - apply (toBase64_no_dot laws).
  - apply (hmac_no_dot laws).
Qed.

(** What [verifyToken] makes of a token it issued: the payload, unless the
    second of the clock is past [exp]. *)
Lemma verifyToken_generateToken claims nowIat nowExp now :
  verifyToken (generateToken claims nowIat nowExp) now
  = if nowExp / 1000 + tokenTTL <? now / 1000 then InvalidToken
    else TokenPayload (tokenPayload claims (nowIat / 1000)
                                    (nowExp / 1000 + tokenTTL)).
Proof.
  unfold verifyToken. rewrite generateToken_split.
  cbn [nth_error templ]. unfold tokenSignature at 1.
  rewrite String.eqb_refl. cbn [negb].
  unfold tokenBody. rewrite (fromBase64_toBase64 laws).
  rewrite (JSON_parse_stringify laws). reflexivity.
Qed.

(** C4.  A token issued for [claims] (the clock not running backwards
    between the two reads) verifies, at every time strictly before
    [iat + 24h], to the object that holds the [id], [username] and
    [profile] of [claims] as they were given, then [iat] and
    [exp = second of the second read + 24h]; it is refused once the clock's
    second is past [exp]; and it is refused at any time when one code unit
    of its signature component is replaced by another. *)
Theorem token_round_trip :
  forall (claims : TokenClaims) (nowIat nowExp now : Z),
    nowIat <= nowExp ->
    let header := encodedHeader in
    let body := tokenBody claims nowIat nowExp in
    let signature := tokenSignature header body in
    let iat := nowIat / 1000 in
    let exp := nowExp / 1000 + tokenTTL in
    generateToken claims nowIat nowExp = header ++ "." ++ body ++ "." ++ signature /\
    (now / 1000 < iat + tokenTTL ->
     verifyToken (generateToken claims nowIat nowExp) now
     = TokenPayload (JObject [("id", JString (c_id claims));
                              ("username", JString (c_username claims));
                              ("profile", JString (c_profile claims));
                              ("iat", JNumber iat);
                              ("exp", JNumber exp)])) /\
    (exp < now / 1000 ->
     verifyToken (generateToken claims nowIat nowExp) now = InvalidToken) /\
    (forall (i : nat) (c : ascii),
        (i < String.length signature)%nat ->
        String.get i signature <> Some c ->
        verifyToken (header ++ "." ++ body ++ "." ++ setAt i c signature) now
        = InvalidToken).
Proof.
  intros claims nowIat nowExp now Hclock header body signature iat exp.
  split; [reflexivity|]. split; [|split].
  - intros Hbefore. rewrite verifyToken_generateToken.
    assert (Hle : nowIat / 1000 <= nowExp / 1000)
      by (apply Z.div_le_mono; lia).
    fold iat exp.
    replace (exp <? now / 1000) with false; [reflexivity|].
    symmetry. apply Z.ltb_ge. unfold exp, iat in *. lia.
  - intros Hafter. rewrite verifyToken_generateToken. fold exp.
    apply Z.ltb_lt in Hafter. now rewrite Hafter.
  - intros i c Hi Hc.
    destruct (split "." (setAt i c signature)) as [|w ws] eqn:Hw;
      [now destruct (split_not_nil "." (setAt i c signature))|].
    apply (verifyToken_bad_signature _ now header body w ws).
    + change (header ++ "." ++ body ++ "." ++ setAt i c signature)
        with (header ++ String "." (body ++ String "." (setAt i c signature))).
      rewrite (split_app "." header), (split_app "." body), Hw; auto.
      * apply (toBase64_no_dot laws).
      * apply (toBase64_no_dot laws).
    + fold (tokenSignature header body). fold signature.
      destruct (split_head_length "." _ w ws Hw) as [[_ ->] | Hlt].
      * now apply setAt_changes.
      * rewrite setAt_length in Hlt. intros ->. lia.
Qed.

Lemma append_assoc (a b c : string) : ((a ++ b) ++ c = a ++ (b ++ c))%string.
Proof. induction a as [|x a IH]; simpl; auto. now rewrite IH. Qed.

(** What follows the signature of an issued token is not looked at. *)
Lemma verifyToken_generateToken_suffix claims nowIat nowExp now extra :
  verifyToken (generateToken claims nowIat nowExp ++ "." ++ extra) now
  = verifyToken (generateToken claims nowIat nowExp) now.
Proof.
  apply verifyToken_first_three.
  rewrite generateToken_split. unfold generateToken.
  change (encodedHeader ++ "." ++ tokenBody claims nowIat nowExp ++ "."
          ++ tokenSignature encodedHeader (tokenBody claims nowIat nowExp))
    with (encodedHeader ++ String "." (tokenBody claims nowIat nowExp ++ String "."
          (tokenSignature encodedHeader (tokenBody claims nowIat nowExp)))).
  rewrite append_assoc. cbn [append]. rewrite append_assoc. cbn [append].
  change ("." ++ extra) with (String "." extra).
  rewrite (split_app "." encodedHeader), (split_app "." (tokenBody claims nowIat nowExp)),
    (split_app "." (tokenSignature _ _)).
  - reflexivity.
  - apply (hmac_no_dot laws).
  - apply (toBase64_no_dot laws).
  - apply (toBase64_no_dot laws).
Qed.

End TokenRoundTrip.

Section LoginSuccessToken.
Context {L : NodeLib} (laws : NodeLaws L).
Import UserStore StoreFacts Run.

(** C9.  Whenever [userLogin] returns, it has resolved the name to an
    account and matched its password; the stored record then has
    [loginAttempts = 0] and [lastLoginAttempt = null] and the
    [dateModified] it had, and the other records are untouched.  The token
    of the response is bound to the account: until the end of its last
    second [verifyToken] reads from it the object that holds the account's
    [id], [username] and [profile], then [iat] and [exp] from the clock
    reads of the login. *)
Theorem login_success_resets_counters :
  forall (m m' : Records) (body : LoginInput) (clock : LoginClock)
         (response : UserLoginResponse),
    wf m = true ->
    userLogin body clock m = (Returned response, m') ->
    exists user stored,
      resolve m (li_username body) = Some user /\
      comparePassword (li_password body) (passwordHash user) = true /\
      get (id user) m' = Some stored /\
      loginAttempts stored = 0 /\
      lastLoginAttempt stored = None /\
      dateModified stored = dateModified user /\
      status stored = (if Status_eqb (status user) bloqueado then ativo
                       else status user) /\
      (forall now,
          now / 1000 <= atTokenExp clock / 1000 + tokenTTL ->
          verifyToken (lr_token response) now
          = TokenPayload
              (JObject [("id", JString (id user));
                        ("username", JString (username user));
                        ("profile", JString (Profile_toString (profile user)));
                        ("iat", JNumber (atTokenIat clock / 1000));
                        ("exp", JNumber (atTokenExp clock / 1000 + tokenTTL))])) /\
      forall k, k <> id user -> get k m' = get k m.
Proof.
  intros m m' body clock response Hwf Hrun.
  unfold userLogin in Hrun.
  destruct (loginSchema body) as [params|] eqn:Hv; [|discriminate].
  apply loginSchema_id in Hv. subst params.
  unfold bind in Hrun. rewrite findUser_run in Hrun.
  destruct (resolve m (li_username body)) as [user|] eqn:Hr; [|discriminate].
  pose proof (resolve_get m _ user Hwf Hr) as Hg.
  apply authenticate_returns in Hrun as (Hp & -> & ->); auto.
  exists user,
    (spread (if Status_eqb (status user) bloqueado
             then spread user unblockData else user) resetData).
  split; [reflexivity|]. split; [exact Hp|].
  split; [apply get_set_same|].
  split; [reflexivity|]. split; [reflexivity|].
  split; [now destruct (Status_eqb (status user) bloqueado)|].
  split; [now destruct (Status_eqb (status user) bloqueado)|].
  split.
  - intros now Hnow. unfold loginResponse. cbn [lr_token].
    rewrite (verifyToken_generateToken laws).
    replace (atTokenExp clock / 1000 + tokenTTL <? now / 1000) with false
      by (symmetry; apply Z.ltb_ge; lia).
    reflexivity.
  - intros k Hk. apply get_set_other. congruence.
Qed.

End LoginSuccessToken.

Section TokenComponents.
Context {L : NodeLib}.
Import JsString SplitFacts.

(** C2, as the code has it.  A token with fewer than three dot-separated
    components is refused.  A token with four or more is judged on its
    first three alone: it verifies exactly as the token made of those
    three, the components after the third being ignored. *)
Theorem verifyToken_component_count :
  forall (token : string) (now : Z),
    ((List.length (split "." token) < 3)%nat ->
     verifyToken token now = InvalidToken) /\
    (forall h b s rest,
        split "." token = h :: b :: s :: rest ->
        verifyToken token now = verifyToken (h ++ "." ++ b ++ "." ++ s) now).
Proof.
  intros token now. split.
  - intros Hlen. unfold verifyToken.
    destruct (split "." token) as [|h [|b [|s rest]]]; simpl in *;
      try reflexivity; lia.
  - intros h b s rest Hsplit.
    apply verifyToken_first_three.
    pose proof (split_components_free "." token) as Hfree.
    rewrite Hsplit in Hfree.
    inversion Hfree as [|? ? Hh Hfree1]; subst.
    inversion Hfree1 as [|? ? Hb Hfree2]; subst.
    inversion Hfree2 as [|? ? Hs _]; subst.
    now rewrite Hsplit, (split_three h b s Hh Hb Hs).
Qed.

End TokenComponents.

(** ** The store, seen by its callers *)

Section StoreContract.
Import UserStore StoreFacts Run.

Lemma length_set k v m :
  List.length (set k v m)
  = match get k m with Some _ => List.length m | None => S (List.length m) end.
Proof.
  induction m as [|[k0 v0] rest IH]; simpl; auto.
  destruct (String.eqb k0 k); simpl; auto.
  rewrite IH. now destruct (get k rest).
Qed.

Lemma keys_set_get k v old m :
  get k m = Some old -> map fst (set k v m) = map fst m.
Proof.
  induction m as [|[k0 v0] rest IH]; simpl; [discriminate|].
  destruct (String.eqb k0 k); simpl; auto.
  intros H. now rewrite IH.
Qed.

(** X1.  [add] returns the record it was given and stores it under the
    record's own id: [getById] then reads it back, every other id reads as
    before, and [count] grows by one for a new id and stays for an id that
    was there (the old record is replaced). *)
Theorem add_then_getById :
  forall (m : Records) (record : UserRecord),
    fst (add m record) = record /\
    getById (snd (add m record)) (id record) = Some record /\
    (forall i, i <> id record ->
               getById (snd (add m record)) i = getById m i) /\
    count (snd (add m record))
    = (if exists_ m (id record) then count m else S (count m)).
Proof.
  intros m record. unfold add, getById, count, exists_. simpl.
  repeat split.
  - apply get_set_same.
  - intros i Hi. apply get_set_other. congruence.
  - rewrite length_set. now destruct (get (id record) m).
Qed.

(** X2.  [update] never adds, drops or reorders a key.  On an id that is
    not stored it returns [undefined] and leaves the store as it was; on a
    stored id it returns the spread of the stored record and the data, which
    is what [getById] reads afterwards.  Every other id reads as before. *)
Theorem update_contract :
  forall (m : Records) (i : string) (data : PartialUserRecord),
    map fst (snd (update m i data)) = map fst m /\
    (getById m i = None -> update m i data = (None, m)) /\
    (forall existing,
        getById m i = Some existing ->
        fst (update m i data) = Some (spread existing data) /\
        getById (snd (update m i data)) i = Some (spread existing data)) /\
    (forall j, j <> i -> getById (snd (update m i data)) j = getById m j).
Proof.
  intros m i data. unfold update, getById.
  destruct (get i m) as [existing|] eqn:Hg; simpl.
  - repeat split.
    + now apply (keys_set_get i _ existing).
    + discriminate.
    + now injection H as <-.
    + injection H as <-. apply get_set_same.
    + intros j Hj. apply get_set_other. congruence.
  - repeat split; try discriminate; auto.
Qed.

Lemma get_filter_other i j m :
  j <> i ->
  get j (filter (fun kv => negb (String.eqb (fst kv) i)) m) = get j m.
Proof.
  intros Hne. induction m as [|[k v] rest IH]; simpl; auto.
  destruct (String.eqb k i) eqn:E; simpl.
  - apply String.eqb_eq in E. subst k.
    destruct (String.eqb i j) eqn:E'; auto.
    apply String.eqb_eq in E'. congruence.
  - now rewrite IH.
Qed.

Lemma get_filter_same i m :
  get i (filter (fun kv => negb (String.eqb (fst kv) i)) m) = None.
Proof.
  induction m as [|[k v] rest IH]; simpl; auto.
  destruct (String.eqb k i) eqn:E; simpl; auto. now rewrite E.
Qed.

Lemma filter_absent i m :
  get i m = None ->
  filter (fun kv => negb (String.eqb (fst kv) i)) m = m.
Proof.
  induction m as [|[k v] rest IH]; simpl; auto.
  destruct (String.eqb k i) eqn:E; simpl; [discriminate|].
  intros H. now rewrite IH.
Qed.

Lemma length_filter_present i v m :
  keysDistinct m = true -> get i m = Some v ->
  S (List.length (filter (fun kv => negb (String.eqb (fst kv) i)) m))
  = List.length m.
Proof.
  induction m as [|[k v0] rest IH]; simpl; [discriminate|].
  intros Hd Hg. apply andb_true_iff in Hd as [Hfresh Hd].
  destruct (String.eqb k i) eqn:E; simpl.
  - apply String.eqb_eq in E. subst k. f_equal. f_equal.
    apply filter_absent.
    destruct (get i rest) as [w|] eqn:Hr; auto.
    apply get_In in Hr. apply negb_true_iff in Hfresh.
    assert (existsb (fun kv => String.eqb (fst kv) i) rest = true); [|congruence].
    apply existsb_exists. exists (i, w). split; auto. apply String.eqb_refl.
  - f_equal. now apply IH.
Qed.

(** X3.  [delete] answers whether the id was stored.  Afterwards the id
    is gone ([getById] reads nothing, [exists] is false) and every other id
    reads as before; deleting an id that was not stored changes nothing, and
    deleting a stored one from a store with each key once takes [count] down
    by exactly one. *)
Theorem delete_contract :
  forall (m : Records) (i : string),
    fst (delete m i) = exists_ m i /\
    getById (snd (delete m i)) i = None /\
    exists_ (snd (delete m i)) i = false /\
    (forall j, j <> i -> getById (snd (delete m i)) j = getById m j) /\
    (exists_ m i = false -> snd (delete m i) = m) /\
    (keysDistinct m = true -> exists_ m i = true ->
     S (count (snd (delete m i))) = count m).
Proof.
  intros m i. unfold delete, exists_, getById, count. simpl.
  rewrite get_filter_same. repeat split; auto.
  - intros j Hj. now apply get_filter_other.
  - destruct (get i m) eqn:Hg; [discriminate|]. intros _. now apply filter_absent.
  - intros Hd He. destruct (get i m) as [v|] eqn:Hg; [|discriminate].
    now apply (length_filter_present i v).
Qed.

Lemma find_first {A : Type} (p : A -> bool) (l : list A) (x : A) :
  find p l = Some x ->
  exists before after,
    l = (before ++ x :: after)%list /\ p x = true /\
    forall y, In y before -> p y = false.
Proof.
  induction l as [|a l IH]; simpl; [discriminate|].
  destruct (p a) eqn:Ha.
  - intros [= <-]. exists [], l. repeat split; auto. intros y [].
  - intros H. destruct (IH H) as (before & after & -> & Hx & Hb).
    exists (a :: before), after. repeat split; auto.
    intros y [<- | Hy]; auto.
Qed.

(** X4.  [findByUsername] and [findByEmail] compare without regard to
    letter case.  A record they return is stored, matches, and is the first
    match in insertion order; they return nothing exactly when no stored
    record matches. *)
Theorem find_by_name_contract :
  forall (m : Records) (name : string),
    (forall u, findByUsername m name = Some u ->
               sameIgnoringCase (username u) name /\
               exists before after,
                 values m = (before ++ u :: after)%list /\
                 forall r, In r before -> ~ sameIgnoringCase (username r) name) /\
    (findByUsername m name = None <->
     forall r, In r (values m) -> ~ sameIgnoringCase (username r) name) /\
    (forall u, findByEmail m name = Some u ->
               sameIgnoringCase (email u) name /\
               exists before after,
                 values m = (before ++ u :: after)%list /\
                 forall r, In r before -> ~ sameIgnoringCase (email r) name) /\
    (findByEmail m name = None <->
     forall r, In r (values m) -> ~ sameIgnoringCase (email r) name).
Proof.
  intros m name. unfold findByUsername, findByEmail, sameIgnoringCase.
  repeat split.
  - apply find_first in H as (before & after & _ & Hp & _).
    now apply String.eqb_eq.
  - apply find_first in H as (before & after & Hsplit & _ & Hb).
    exists before, after. split; auto.
    intros r Hr. apply String.eqb_neq. now apply Hb.
  - intros Hnone r Hr. apply String.eqb_neq. now apply (find_none _ _ Hnone).
  - intros Hall. destruct (find _ (values m)) as [u|] eqn:E; auto.
    apply find_some in E as [Hin Heq]. apply String.eqb_eq in Heq.
    now destruct (Hall u Hin).
  - apply find_first in H as (before & after & _ & Hp & _).
    now apply String.eqb_eq.
  - apply find_first in H as (before & after & Hsplit & _ & Hb).
    exists before, after. split; auto.
    intros r Hr. apply String.eqb_neq. now apply Hb.
  - intros Hnone r Hr. apply String.eqb_neq. now apply (find_none _ _ Hnone).
  - intros Hall. destruct (find _ (values m)) as [u|] eqn:E; auto.
    apply find_some in E as [Hin Heq]. apply String.eqb_eq in Heq.
    now destruct (Hall u Hin).
Qed.

End StoreContract.

(** ** The token codec, seen by its callers *)

Section TokenContract.
Context {L : NodeLib}.
Import JsString SplitFacts.

(** X5.  [verifyToken] returns a payload only for a token whose third
    component is the HMAC of its first two joined by a dot; the payload is
    what [JSON.parse] reads from the decoded second component, it is not
    [null], and when its [exp] is a number the clock's second is not past
    it. *)
Theorem verifyToken_accepts_only_signed :
  forall (token : string) (now : Z) (payload : JsValue),
    verifyToken token now = TokenPayload payload ->
    exists h b s rest,
      split "." token = h :: b :: s :: rest /\
      s = hmac_sha256_base64 "secret-key" (h ++ "." ++ b) /\
      JSON_parse (fromBase64 b) = Some payload /\
      payload <> JNull /\
      forall e, getProp payload "exp" = Some (JNumber e) -> now / 1000 <= e.
Proof.
  intros token now payload. unfold verifyToken.
  destruct (split "." token) as [|h [|b [|s rest]]] eqn:Hsplit;
    cbn [nth_error templ]; try discriminate.
  destruct (String.eqb s (hmac_sha256_base64 "secret-key" (h ++ "." ++ b)))
    eqn:Hsig; cbn [negb]; [|discriminate].
  apply String.eqb_eq in Hsig.
  destruct (JSON_parse (fromBase64 b)) as [parsed|] eqn:Hparse; [|discriminate].
  destruct (getProp parsed "exp") as [exp|] eqn:Hexp; [|discriminate].
  destruct (lessThan exp (now / 1000)) as [[|]|] eqn:Hlt; try discriminate.
  intros [= <-]. exists h, b, s, rest. repeat split; auto.
  - intros ->. discriminate Hexp.
  - intros e He. rewrite Hexp in He. injection He as ->.
    unfold lessThan in Hlt. simpl in Hlt. injection Hlt as Hlt.
    now apply Z.ltb_ge in Hlt.
Qed.

(** X6.  Expiry is checked only against an [exp] that converts to a
    number: a correctly signed token whose payload has no [exp] (an object
    without the key, or a number, string, boolean or array) is accepted at
    every time. *)
Theorem verifyToken_without_exp_never_expires :
  forall (token h b s : string) (rest : list string) (payload : JsValue),
    split "." token = h :: b :: s :: rest ->
    s = hmac_sha256_base64 "secret-key" (h ++ "." ++ b) ->
    JSON_parse (fromBase64 b) = Some payload ->
    getProp payload "exp" = Some JUndefined ->
    forall now, verifyToken token now = TokenPayload payload.
Proof.
  intros token h b s rest payload Hsplit -> Hparse Hexp now.
  unfold verifyToken. rewrite Hsplit. cbn [nth_error templ].
  rewrite String.eqb_refl. cbn [negb]. now rewrite Hparse, Hexp.
Qed.

End TokenContract.

Section IssuedTokens.
Context {L : NodeLib} (laws : NodeLaws L).
Import UserStore StoreFacts Run.

(** X7.  A token from [generateToken] is accepted exactly as long as the
    clock's second is not past its [exp]: through the whole last second, and
    never after. *)
Theorem issued_token_accepted_until_exp :
  forall (claims : TokenClaims) (nowIat nowExp now : Z),
    verifyToken (generateToken claims nowIat nowExp) now
    = TokenPayload (tokenPayload claims (nowIat / 1000)
                                 (nowExp / 1000 + tokenTTL))
    <-> now < (nowExp / 1000 + tokenTTL + 1) * 1000.
Proof.
  intros claims nowIat nowExp now.
  rewrite (verifyToken_generateToken laws).
  assert (Hdiv : now / 1000 <= nowExp / 1000 + tokenTTL
                 <-> now < (nowExp / 1000 + tokenTTL + 1) * 1000).
  { pose proof (Z.div_mod now 1000 ltac:(lia)) as Hdm.
    pose proof (Z.mod_pos_bound now 1000 ltac:(lia)) as Hmod.
    split; intros H; lia. }
  rewrite <- Hdiv.
  destruct (nowExp / 1000 + tokenTTL <? now / 1000) eqn:E.
  - apply Z.ltb_lt in E. split; [discriminate | lia].
  - apply Z.ltb_ge in E. split; auto.
Qed.

(** X8.  The token a successful [userLogin] hands out verifies, up to the
    end of its last second, to the id, username and profile of the account
    the login resolved to, with [iat] and [exp] taken from the clock reads of
    that login. *)
Theorem login_token_verifies :
  forall (m m' : Records) (body : LoginInput) (clock : LoginClock)
         (response : UserLoginResponse) (now : Z),
    wf m = true ->
    userLogin body clock m = (Returned response, m') ->
    now / 1000 <= atTokenExp clock / 1000 + tokenTTL ->
    exists user,
      resolve m (li_username body) = Some user /\
      verifyToken (lr_token response) now
      = TokenPayload
          (JObject [("id", JString (id user));
                    ("username", JString (username user));
                    ("profile", JString (Profile_toString (profile user)));
                    ("iat", JNumber (atTokenIat clock / 1000));
                    ("exp", JNumber (atTokenExp clock / 1000 + tokenTTL))]).
Proof.
  intros m m' body clock response now Hwf Hrun Hnow.
  unfold userLogin in Hrun.
  destruct (loginSchema body) as [params|] eqn:Hv; [|discriminate].
  apply loginSchema_id in Hv. subst params.
  unfold bind in Hrun. rewrite findUser_run in Hrun.
  destruct (resolve m (li_username body)) as [user|] eqn:Hr; [|discriminate].
  pose proof (resolve_get m _ user Hwf Hr) as Hg.
  apply authenticate_returns in Hrun as (_ & -> & _); auto.
  exists user. split; auto. unfold loginResponse. cbn [lr_token].
  rewrite (verifyToken_generateToken laws).
  replace (atTokenExp clock / 1000 + tokenTTL <? now / 1000) with false
    by (symmetry; apply Z.ltb_ge; lia).
  reflexivity.
Qed.

End IssuedTokens.

(** ** Registration and profile, seen by their callers *)

Section AccountContract.
Context {L : NodeLib} {Zd : Zod}.
Import UserStore StoreFacts Run.

(** What [userRegister] does with a body that collides with nothing. *)
Lemma userRegister_fresh_run m body params newId now :
  registerSchema body = Some params ->
  findByUsername m (rb_username body) = None ->
  findByEmail m (rb_email body) = None ->
  let newUser :=
    {| id := newId; username := rb_username body; email := rb_email body;
       passwordHash := hashPassword (rb_password body);
       profile := ri_profile params; avatar := None; status := pendente;
       loginAttempts := 0; lastLoginAttempt := None;
       dateCreated := now; dateModified := now |} in
  userRegister body newId now m
  = (Returned (profileResponse newUser), set newId newUser m).
Proof.
  intros Hv Hu He newUser.
  destruct (registerSchema_fields body params Hv) as (Eu & Ee & Ep).
  unfold userRegister. rewrite Hv. svc_unfold.
  rewrite Eu, Ee, Ep, Hu, He. reflexivity.
Qed.

Lemma In_values_set_any k v m r :
  In r (values (set k v m)) -> r = v \/ In r (values m).
Proof.
  induction m as [|[k0 v0] rest IH]; simpl.
  - intros [<- | []]. now left.
  - destruct (String.eqb k0 k); simpl.
    + intros [<- | Hin]; auto.
    + intros [<- | Hin]; auto. destruct (IH Hin); auto.
Qed.

Lemma In_values_set_new k v m : In v (values (set k v m)).
Proof.
  induction m as [|[k0 v0] rest IH]; simpl; auto.
  destruct (String.eqb k0 k); simpl; auto.
Qed.

Lemma userRegister_username_taken m body params newId now holder :
  registerSchema body = Some params ->
  In holder (values m) ->
  sameIgnoringCase (username holder) (rb_username body) ->
  userRegister body newId now m = (failure DUPLICATE_USERNAME 409, m).
Proof.
  intros Hv Hin Hsame.
  destruct (registerSchema_fields body params Hv) as (Eu & Ee & Ep).
  unfold userRegister. rewrite Hv. svc_unfold. rewrite Eu.
  now destruct (findByUsername_hit m holder _ Hin Hsame) as [r ->].
Qed.

Lemma userRegister_email_taken m body params newId now holder :
  registerSchema body = Some params ->
  In holder (values m) ->
  sameIgnoringCase (email holder) (rb_email body) ->
  (forall r, In r (values m) ->
             ~ sameIgnoringCase (username r) (rb_username body)) ->
  userRegister body newId now m = (failure DUPLICATE_EMAIL 409, m).
Proof.
  intros Hv Hin Hsame Hfree.
  destruct (registerSchema_fields body params Hv) as (Eu & Ee & Ep).
  unfold userRegister. rewrite Hv. svc_unfold. rewrite Eu, Ee.
  rewrite (findByUsername_none m _ Hfree).
  now destruct (findByEmail_hit m holder _ Hin Hsame) as [r ->].
Qed.

(** X9.  A valid registration whose username is the username of a stored
    account up to letter case is refused with [DUPLICATE_USERNAME]; one whose
    username is free and whose email is the email of a stored account up to
    letter case is refused with [DUPLICATE_EMAIL].  Neither writes to the
    store. *)
Theorem register_duplicates_refused :
  forall (m : Records) (body : RegisterBody) (params : RegisterInput)
         (newId : string) (now : Z),
    registerSchema body = Some params ->
    (forall holder,
        In holder (values m) ->
        sameIgnoringCase (username holder) (rb_username body) ->
        userRegister body newId now m = (failure DUPLICATE_USERNAME 409, m)) /\
    (forall holder,
        In holder (values m) ->
        sameIgnoringCase (email holder) (rb_email body) ->
        (forall r, In r (values m) ->
                   ~ sameIgnoringCase (username r) (rb_username body)) ->
        userRegister body newId now m = (failure DUPLICATE_EMAIL 409, m)).
Proof.
  intros m body params newId now Hv. split.
  - intros holder. now apply userRegister_username_taken with (params := params).
  - intros holder. now apply userRegister_email_taken with (params := params).
Qed.

(** X10.  After a registration that went through, [userGetProfile] on the
    new id returns the very response the registration returned, and leaves
    the store as the registration left it. *)
Theorem register_then_getProfile :
  forall (m : Records) (body : RegisterBody) (params : RegisterInput)
         (newId : string) (now : Z),
    registerSchema body = Some params ->
    paramsSchema newId = Some newId ->
    (forall r, In r (values m) -> ~ sameIgnoringCase (username r) (rb_username body)) ->
    (forall r, In r (values m) -> ~ sameIgnoringCase (email r) (rb_email body)) ->
    let r := userRegister body newId now m in
    exists response,
      outcome r = Returned response /\
      userGetProfile newId (storeAfter r) = (Returned response, storeAfter r).
Proof.
  intros m body params newId now Hv Hid Hu He r.
  unfold r.
  rewrite (userRegister_fresh_run m body params newId now Hv
             (findByUsername_none m _ Hu) (findByEmail_none m _ He)).
  eexists. split; [reflexivity|].
  unfold storeAfter, userGetProfile. simpl snd. rewrite Hid. svc_unfold.
  unfold getById. now rewrite get_set_same.
Qed.

(** X11.  Once a registration went through, a second valid registration
    with the same username up to letter case is refused with
    [DUPLICATE_USERNAME], and one with another username that the store does
    not know but the same email up to letter case with [DUPLICATE_EMAIL];
    the store stays as the first registration left it. *)
Theorem register_twice_refused :
  forall (m : Records) (body body2 : RegisterBody) (params params2 : RegisterInput)
         (newId newId2 : string) (now now2 : Z),
    registerSchema body = Some params ->
    (forall r, In r (values m) -> ~ sameIgnoringCase (username r) (rb_username body)) ->
    (forall r, In r (values m) -> ~ sameIgnoringCase (email r) (rb_email body)) ->
    registerSchema body2 = Some params2 ->
    let m1 := storeAfter (userRegister body newId now m) in
    (sameIgnoringCase (rb_username body2) (rb_username body) ->
     userRegister body2 newId2 now2 m1 = (failure DUPLICATE_USERNAME 409, m1)) /\
    (sameIgnoringCase (rb_email body2) (rb_email body) ->
     ~ sameIgnoringCase (rb_username body2) (rb_username body) ->
     (forall r, In r (values m) -> ~ sameIgnoringCase (username r) (rb_username body2)) ->
     userRegister body2 newId2 now2 m1 = (failure DUPLICATE_EMAIL 409, m1)).
Proof.
  intros m body body2 params params2 newId newId2 now now2 Hv Hu He Hv2 m1.
  unfold m1.
  rewrite (userRegister_fresh_run m body params newId now Hv
             (findByUsername_none m _ Hu) (findByEmail_none m _ He)).
  unfold storeAfter. simpl snd.
  set (newUser := {| id := newId; username := rb_username body |}).
  set (m' := set newId newUser m).
  assert (Hnew : In newUser (values m')) by apply In_values_set_new.
  split.
  - intros Hsame.
    apply (userRegister_username_taken m' body2 params2 newId2 now2 newUser Hv2 Hnew).
    unfold sameIgnoringCase in *. simpl. congruence.
  - intros Hsame Hother Hfree.
    apply (userRegister_email_taken m' body2 params2 newId2 now2 newUser Hv2 Hnew).
    + unfold sameIgnoringCase in *. simpl. congruence.
    + intros r Hr. apply In_values_set_any in Hr as [-> | Hr]; auto.
      simpl. unfold sameIgnoringCase in *. congruence.
Qed.

End AccountContract.

Section ServiceContract.
Context {L : NodeLib} {Zd : Zod}.
Import UserStore StoreFacts Run.

(** X12.  [userRegister] and [userUpdateProfile] write to the store only
    when they return: a call that throws leaves the store as it found it.
    [userGetProfile], [userConfirmEmail], [userRequestPasswordReset] and
    [userResetPassword] never write. *)
Theorem refused_calls_write_nothing :
  forall (m : Records),
    (forall body newId now,
        isReturned (outcome (userRegister body newId now m)) = false ->
        storeAfter (userRegister body newId now m) = m) /\
    (forall params body now,
        isReturned (outcome (userUpdateProfile params body now m)) = false ->
        storeAfter (userUpdateProfile params body now m) = m) /\
    (forall params, storeAfter (userGetProfile params m) = m) /\
    (forall token, storeAfter (userConfirmEmail token m) = m) /\
    (forall mail, storeAfter (userRequestPasswordReset mail m) = m) /\
    (forall token newPassword,
        storeAfter (userResetPassword token newPassword m) = m).
Proof.
  intros m. unfold outcome, storeAfter. repeat split.
  - intros body newId now. unfold userRegister.
    destruct (registerSchema body); svc_unfold; auto.
    destruct (findByUsername m _); auto.
    destruct (findByEmail m _); auto. simpl. discriminate.
  - intros params body now. unfold userUpdateProfile.
    destruct (paramsSchema params) as [i|]; svc_unfold; auto.
    destruct (updateSchema body) as [updateData|]; auto.
    destruct (getById m i) as [user|] eqn:Hg; auto.
    destruct (changing (ui_username updateData) (username user));
      [destruct (findByUsername m _); auto|];
      (destruct (changing (ui_email updateData) (email user));
       [destruct (findByEmail m _); auto|]);
      rewrite (update_present m i _ user Hg); simpl; discriminate.
  - intros params. unfold userGetProfile.
    destruct (paramsSchema params); svc_unfold; auto.
    now destruct (getById m _).
  - intros token. unfold userConfirmEmail.
    now destruct (confirmEmailSchema token).
  - intros mail. unfold userRequestPasswordReset.
    destruct (requestPasswordResetSchema mail); svc_unfold; auto.
    now destruct (findByEmail m _).
  - intros token newPassword. unfold userResetPassword.
    now destruct (resetPasswordSchema token newPassword).
Qed.

Lemma accepted_username_block m user updateData :
  usernameAccepted m user updateData ->
  match changing (ui_username updateData) (username user) with
  | Some newName => findByUsername m newName = None
  | None => True
  end.
Proof.
  unfold usernameAccepted, changing. intros Hacc.
  destruct (ui_username updateData) as [n|]; auto.
  destruct (Hacc n eq_refl) as [-> | Hfree].
  - rewrite String.eqb_refl, andb_false_r. exact I.
  - now destruct (_ && _).
Qed.

Lemma accepted_email_block m user updateData :
  emailAccepted m user updateData ->
  match changing (ui_email updateData) (email user) with
  | Some newMail => findByEmail m newMail = None
  | None => True
  end.
Proof.
  unfold emailAccepted, changing. intros Hacc.
  destruct (ui_email updateData) as [n|]; auto.
  destruct (Hacc n eq_refl) as [-> | Hfree].
  - rewrite String.eqb_refl, andb_false_r. exact I.
  - now destruct (_ && _).
Qed.

(** X13.  A valid patch for a stored account, each of whose username and
    email is absent, unchanged, or unknown to the store, is applied: the
    stored record takes the keys the patch carries and [dateModified = now],
    and keeps its id, password hash, status, attempt counter, last attempt
    and creation date.  The response is the projection of the new record,
    and [userGetProfile] returns the same afterwards. *)
Theorem update_accepted_patch_applied :
  forall (m : Records) (i : string) (body : UpdateBody) (updateData : UpdateInput)
         (now : Z) (user : UserRecord),
    paramsSchema i = Some i ->
    updateSchema body = Some updateData ->
    getById m i = Some user ->
    usernameAccepted m user updateData ->
    emailAccepted m user updateData ->
    exists updated,
      userUpdateProfile i body now m
      = (Returned (profileResponse updated), set i updated m) /\
      getById (set i updated m) i = Some updated /\
      userGetProfile i (set i updated m)
      = (Returned (profileResponse updated), set i updated m) /\
      username updated = orKeep (ui_username updateData) (username user) /\
      email updated = orKeep (ui_email updateData) (email user) /\
      profile updated = orKeep (ui_profile updateData) (profile user) /\
      avatar updated = orKeep (ui_avatar updateData) (avatar user) /\
      dateModified updated = now /\
      id updated = id user /\
      passwordHash updated = passwordHash user /\
      status updated = status user /\
      loginAttempts updated = loginAttempts user /\
      lastLoginAttempt updated = lastLoginAttempt user /\
      dateCreated updated = dateCreated user.
Proof.
  intros m i body updateData now user Hi Hv Hg Hu He.
  exists (spread user (updatePatch updateData now)).
  assert (Hrun : userUpdateProfile i body now m
                 = (Returned (profileResponse (spread user (updatePatch updateData now))),
                    set i (spread user (updatePatch updateData now)) m)).
  { unfold userUpdateProfile. rewrite Hi, Hv. svc_unfold. rewrite Hg.
    pose proof (accepted_username_block m user updateData Hu) as Bu.
    pose proof (accepted_email_block m user updateData He) as Be.
    destruct (changing (ui_username updateData) (username user));
      [rewrite Bu|];
      (destruct (changing (ui_email updateData) (email user)); [rewrite Be|]);
      now rewrite (update_present m i _ user Hg). }
  split; [exact Hrun|]. split; [apply get_set_same|]. split.
  - unfold userGetProfile. rewrite Hi. svc_unfold. unfold getById.
    now rewrite get_set_same.
  - repeat split.
Qed.

(** X14.  The service ends every call by returning or by throwing a
    [ServiceError] with one of the codes and statuses its documentation
    lists; no call ends in another exception (the [updated!] of
    [userUpdateProfile] is never [undefined]). *)
Theorem service_throws_only_documented_errors :
  forall (m : Records),
    (forall body newId now,
        match outcome (userRegister body newId now m) with
        | Returned _ => True
        | Thrown e =>
            In (code e, statusCode e)
               [(VALIDATION_ERROR, 400); (DUPLICATE_USERNAME, 409);
                (DUPLICATE_EMAIL, 409)]
        | Crashed => False
        end) /\
    (forall body clock,
        match outcome (userLogin body clock m) with
        | Returned _ => True
        | Thrown e =>
            In (code e, statusCode e)
               [(VALIDATION_ERROR, 400); (INVALID_CREDENTIALS, 401);
                (ACCOUNT_PENDING, 403); (ACCOUNT_BLOCKED, 403)]
        | Crashed => False
        end) /\
    (forall params,
        match outcome (userGetProfile params m) with
        | Returned _ => True
        | Thrown e =>
            In (code e, statusCode e) [(VALIDATION_ERROR, 400); (NOT_FOUND, 404)]
        | Crashed => False
        end) /\
    (forall params body now,
        match outcome (userUpdateProfile params body now m) with
        | Returned _ => True
        | Thrown e =>
            In (code e, statusCode e)
               [(VALIDATION_ERROR, 400); (NOT_FOUND, 404);
                (DUPLICATE_USERNAME, 409); (DUPLICATE_EMAIL, 409)]
        | Crashed => False
        end).
Proof.
  intros m. unfold outcome. repeat split.
  - intros body newId now. unfold userRegister.
    destruct (registerSchema body); svc_unfold; simpl; auto.
    destruct (findByUsername m _); simpl; auto.
    destruct (findByEmail m _); simpl; auto.
  - intros body clock. unfold userLogin.
    destruct (loginSchema body) as [params|]; [|simpl; auto].
    unfold bind at 1. rewrite findUser_run.
    destruct (resolve m (li_username params)) as [user|]; [|simpl; auto].
    svc_unfold.
    destruct (Status_eqb (status user) bloqueado);
      [destruct (atBlockCheck clock - _ <? thirtyMinutes); simpl;
       [tauto | destruct (UserStore.update m (id user) unblockData) as [u1 m1]]|];
      simpl;
      (destruct (Status_eqb (status user) pendente); simpl; [tauto|]);
      (destruct (comparePassword (li_password params) (passwordHash user)); simpl;
       [ match goal with
         | |- context [UserStore.update ?a ?b ?c] =>
             destruct (UserStore.update a b c); simpl; exact I
         end
       | destruct (3 <=? loginAttempts user + 1);
         match goal with
         | |- context [UserStore.update ?a ?b ?c] =>
             destruct (UserStore.update a b c); simpl; tauto
         end ]).
  - intros params. unfold userGetProfile.
    destruct (paramsSchema params); svc_unfold; simpl; auto.
    destruct (getById m _); simpl; auto.
  - intros params body now. unfold userUpdateProfile.
    destruct (paramsSchema params) as [i|]; svc_unfold; [|simpl; auto].
    destruct (updateSchema body) as [updateData|]; [|simpl; auto].
    destruct (getById m i) as [user|] eqn:Hg; [|simpl; auto].
    destruct (changing (ui_username updateData) (username user));
      [destruct (findByUsername m _); [simpl; tauto|]|];
      (destruct (changing (ui_email updateData) (email user));
       [destruct (findByEmail m _); [simpl; tauto|]|]);
      rewrite (update_present m i _ user Hg); simpl; exact I.
Qed.

End ServiceContract.

(** ** Login, seen by its callers *)

Section LoginContract.
Context {L : NodeLib}.
Import UserStore StoreFacts Run.

Lemma authenticate_refused_inside_window m user password clock :
  status user = bloqueado ->
  atBlockCheck clock - blockTime user < thirtyMinutes ->
  authenticate user password clock m = (failure ACCOUNT_BLOCKED 403, m).
Proof.
  intros Hs Hin. svc_unfold. rewrite Hs. simpl. fold (blockTime user).
  apply Z.ltb_lt in Hin. now rewrite Hin.
Qed.

Lemma authenticate_refused_pending m user password clock :
  status user = pendente ->
  authenticate user password clock m = (failure ACCOUNT_PENDING 403, m).
Proof. intros Hs. svc_unfold. now rewrite Hs. Qed.

(** X15.  A valid login returns exactly when the name resolves to an
    account that is not pending, that is not blocked or was blocked at least
    thirty minutes ago, and whose hash the password matches.  An account
    that is [inativo] is let in like an active one. *)
Theorem login_succeeds_iff :
  forall (m : Records) (body : LoginInput) (clock : LoginClock),
    wf m = true ->
    loginSchema body = Some body ->
    (isReturned (outcome (userLogin body clock m)) = true <->
     exists user,
       resolve m (li_username body) = Some user /\
       status user <> pendente /\
       (status user = bloqueado ->
        thirtyMinutes <= atBlockCheck clock - blockTime user) /\
       comparePassword (li_password body) (passwordHash user) = true).
Proof.
  intros m body clock Hwf Hv. unfold outcome. split.
  - intros Hret.
    destruct (userLogin body clock m) as [[response| |] m'] eqn:Hrun;
      try discriminate.
    unfold userLogin in Hrun. rewrite Hv in Hrun.
    unfold bind in Hrun. rewrite findUser_run in Hrun.
    destruct (resolve m (li_username body)) as [user|] eqn:Hr; [|discriminate].
    pose proof (resolve_get m _ user Hwf Hr) as Hg.
    exists user. split; auto.
    destruct (status user) eqn:Hs.
    + apply authenticate_returns in Hrun as (Hp & _); auto.
      repeat split; auto; discriminate.
    + apply authenticate_returns in Hrun as (Hp & _); auto.
      repeat split; auto; discriminate.
    + destruct (Z.lt_ge_cases (atBlockCheck clock - blockTime user) thirtyMinutes)
        as [Hin | Hout].
      * now rewrite authenticate_refused_inside_window in Hrun.
      * apply authenticate_returns in Hrun as (Hp & _); auto.
        repeat split; auto; discriminate.
    + now rewrite authenticate_refused_pending in Hrun.
  - intros (user & Hr & Hnp & Hw & Hp).
    pose proof (resolve_get m _ user Hwf Hr) as Hg.
    rewrite (userLogin_found body clock m user Hv Hr).
    destruct (status user) eqn:Hs.
    + now rewrite authenticate_ok_open by auto.
    + now rewrite authenticate_ok_open by auto.
    + now rewrite authenticate_ok_after_unblock by auto.
    + congruence.
Qed.

Lemma toLowerCase_length s :
  String.length (JsString.toLowerCase s) = String.length s.
Proof. induction s as [|c s IH]; simpl; auto. Qed.

(** X16.  The login name is compared without regard to letter case, as a
    username and as an email: two logins whose names differ only by case,
    with the same password and clock, do the same to the same store. *)
Theorem login_name_ignores_case :
  forall (m : Records) (name1 name2 password : string) (clock : LoginClock),
    sameIgnoringCase name1 name2 ->
    userLogin (mkLoginInput name1 password) clock m
    = userLogin (mkLoginInput name2 password) clock m.
Proof.
  intros m name1 name2 password clock Hsame.
  assert (Hlen : String.length name1 = String.length name2).
  { rewrite <- (toLowerCase_length name1), <- (toLowerCase_length name2).
    now rewrite Hsame. }
  assert (Hres : resolve m name1 = resolve m name2).
  { unfold resolve, findByUsername, findByEmail. now rewrite Hsame. }
  unfold userLogin, loginSchema. simpl. rewrite Hlen.
  destruct (_ && _); auto. simpl.
  unfold bind. now rewrite !findUser_run, Hres.
Qed.

(** X17.  The wrong password that blocks an active account (its third
    failure or later) blocks it for thirty minutes from that attempt: until
    then the right password is refused with [ACCOUNT_BLOCKED] and nothing
    is written; from then on the right password is let in, and leaves the
    account [ativo] with the counter at 0. *)
Theorem block_lasts_thirty_minutes :
  forall (m : Records) (user : UserRecord) (b1 b2 : LoginInput)
         (c1 c2 : LoginClock),
    wf m = true ->
    loginSchema b1 = Some b1 ->
    loginSchema b2 = Some b2 ->
    resolve m (li_username b1) = Some user ->
    resolve m (li_username b2) = Some user ->
    status user = ativo ->
    2 <= loginAttempts user ->
    comparePassword (li_password b1) (passwordHash user) = false ->
    comparePassword (li_password b2) (passwordHash user) = true ->
    let m1 := storeAfter (userLogin b1 c1 m) in
    outcome (userLogin b1 c1 m) = failure ACCOUNT_BLOCKED 403 /\
    (atBlockCheck c2 - atFailure c1 < thirtyMinutes ->
     userLogin b2 c2 m1 = (failure ACCOUNT_BLOCKED 403, m1)) /\
    (thirtyMinutes <= atBlockCheck c2 - atFailure c1 ->
     isReturned (outcome (userLogin b2 c2 m1)) = true /\
     option_map status (get (id user) (storeAfter (userLogin b2 c2 m1)))
     = Some ativo /\
     option_map loginAttempts (get (id user) (storeAfter (userLogin b2 c2 m1)))
     = Some 0).
Proof.
  intros m user b1 b2 c1 c2 Hwf Hv1 Hv2 Hr1 Hr2 Hs Hn Hp1 Hp2 m1.
  pose proof (login_wrong_password_step m user b1 c1 Hwf Hv1 Hr1 Hs Hp1) as S1.
  cbv zeta in S1.
  replace (3 <=? loginAttempts user + 1) with true in S1
    by (symmetry; apply Z.leb_le; lia).
  set (blocked := spread user (blockData (loginAttempts user + 1) (atFailure c1))) in *.
  destruct S1 as (E1 & Hwf1 & Hres1).
  unfold m1, storeAfter, outcome. rewrite E1. simpl fst. simpl snd.
  set (mb := set (id user) blocked m) in *.
  pose proof (Hres1 _ Hr2) as Hrb.
  assert (Hgb : get (id blocked) mb = Some blocked)
    by (apply (resolve_get mb _ blocked Hwf1 Hrb)).
  split; [reflexivity|]. split.
  - intros Hin. rewrite (userLogin_found b2 c2 mb blocked Hv2 Hrb).
    now apply authenticate_refused_inside_window.
  - intros Hout. rewrite (userLogin_found b2 c2 mb blocked Hv2 Hrb).
    rewrite authenticate_ok_after_unblock; auto.
    simpl. change (id blocked) with (id user).
    rewrite get_set_same. auto.
Qed.

(** The store after a login: as before, or with the resolved account
    rewritten in place by a record that differs from it only in status,
    attempt counter and last attempt. *)
Lemma userLogin_store_cases m body clock :
  wf m = true ->
  storeAfter (userLogin body clock m) = m \/
  exists user v,
    resolve m (li_username body) = Some user /\
    get (id user) m = Some user /\
    storeAfter (userLogin body clock m) = set (id user) v m /\
    id v = id user /\ username v = username user /\ email v = email user /\
    passwordHash v = passwordHash user /\ profile v = profile user /\
    avatar v = avatar user /\ dateCreated v = dateCreated user /\
    dateModified v = dateModified user.
Proof.
  intros Hwf. unfold userLogin, storeAfter.
  destruct (loginSchema body) as [params|] eqn:Hv; [|now left].
  apply loginSchema_id in Hv. subst params.
  unfold bind. rewrite findUser_run.
  destruct (resolve m (li_username body)) as [user|] eqn:Hr; [|now left].
  pose proof (resolve_get m _ user Hwf Hr) as Hg.
  set (password := li_password body).
  destruct (comparePassword password (passwordHash user)) eqn:Hp;
    destruct (status user) eqn:Hs.
  - rewrite authenticate_ok_open by auto.
    right. exists user, (spread user resetData). repeat split; auto.
  - rewrite authenticate_ok_open by auto.
    right. exists user, (spread user resetData). repeat split; auto.
  - destruct (Z.lt_ge_cases (atBlockCheck clock - blockTime user) thirtyMinutes)
      as [Hin | Hout].
    + rewrite authenticate_refused_inside_window by auto. now left.
    + rewrite authenticate_ok_after_unblock by auto.
      right. exists user, (spread (spread user unblockData) resetData).
      repeat split; auto.
  - rewrite authenticate_refused_pending by auto. now left.
  - rewrite authenticate_wrong_open, (failedAttempt_run m user user _ Hg) by auto.
    right. destruct (3 <=? loginAttempts user + 1); simpl;
      eexists user, _; repeat split; auto.
  - rewrite authenticate_wrong_open, (failedAttempt_run m user user _ Hg) by auto.
    right. destruct (3 <=? loginAttempts user + 1); simpl;
      eexists user, _; repeat split; auto.
  - destruct (Z.lt_ge_cases (atBlockCheck clock - blockTime user) thirtyMinutes)
      as [Hin | Hout].
    + rewrite authenticate_refused_inside_window by auto. now left.
    + rewrite authenticate_wrong_after_unblock by auto.
      rewrite (failedAttempt_run _ user (spread user unblockData))
        by apply get_set_same.
      right. destruct (3 <=? loginAttempts user + 1); simpl; rewrite set_set;
        eexists user, _; repeat split; auto.
  - rewrite authenticate_refused_pending by auto. now left.
Qed.

(** X18.  Whatever its outcome, a login adds, drops or reorders no key,
    touches no account but the one its name resolves to, and leaves the id,
    username, email, password hash, profile, avatar, creation date and
    modification date of every account as they were. *)
Theorem login_touches_only_the_lock_fields :
  forall (m : Records) (body : LoginInput) (clock : LoginClock),
    wf m = true ->
    let m' := storeAfter (userLogin body clock m) in
    map fst m' = map fst m /\
    (forall i before,
        getById m i = Some before ->
        exists after,
          getById m' i = Some after /\
          id after = id before /\ username after = username before /\
          email after = email before /\
          passwordHash after = passwordHash before /\
          profile after = profile before /\ avatar after = avatar before /\
          dateCreated after = dateCreated before /\
          dateModified after = dateModified before) /\
    (forall i,
        (forall user, resolve m (li_username body) = Some user -> i <> id user) ->
        getById m' i = getById m i).
Proof.
  intros m body clock Hwf m'. unfold m', getById.
  destruct (userLogin_store_cases m body clock Hwf)
    as [-> | (user & v & Hr & Hg & -> & Hid & Hu & He & Hh & Hp & Ha & Hc & Hm)].
  - repeat split; auto. intros i before Hb. exists before. repeat split; auto.
  - split; [|split].
    + now apply (keys_set_get (id user) v user).
    + intros i before Hb.
      destruct (String.eqb (id user) i) eqn:E.
      * apply String.eqb_eq in E. subst i.
        assert (before = user) by congruence. subst before.
        exists v. split; [apply get_set_same|]. repeat split; auto.
      * apply String.eqb_neq in E. exists before.
        rewrite get_set_other by auto. repeat split; auto.
    + intros i Hi. apply get_set_other.
      specialize (Hi user Hr). congruence.
Qed.

(** A wrong password against an account that is [ativo] or [inativo]. *)
Lemma login_wrong_password_step_open m user body clock :
  wf m = true ->
  loginSchema body = Some body ->
  resolve m (li_username body) = Some user ->
  status user = ativo \/ status user = inativo ->
  comparePassword (li_password body) (passwordHash user) = false ->
  let n := loginAttempts user + 1 in
  let user' := spread user (if 3 <=? n then blockData n (atFailure clock)
                            else countData n (atFailure clock)) in
  userLogin body clock m
  = (failure (if 3 <=? n then ACCOUNT_BLOCKED else INVALID_CREDENTIALS)
             (if 3 <=? n then 403 else 401),
     set (id user) user' m)
  /\ wf (set (id user) user' m) = true
  /\ forall name, resolve m name = Some user ->
                  resolve (set (id user) user' m) name = Some user'.
Proof.
  intros Hwf Hv Hr Hs Hp n user'.
  pose proof (resolve_get m _ user Hwf Hr) as Hg.
  assert (Hid : id user' = id user) by (unfold user'; now destruct (3 <=? n)).
  split; [|split].
  - rewrite (userLogin_found body clock m user Hv Hr).
    rewrite authenticate_wrong_open by auto.
    rewrite (failedAttempt_run m user user _ Hg).
    fold n. unfold user'. now destruct (3 <=? n).
  - now apply (wf_set_present m (id user) user' user).
  - intros name Hn.
    rewrite (resolve_set_present m (id user) user' user name Hwf Hg).
    + rewrite Hn. simpl. now rewrite String.eqb_refl.
    + unfold user'. now destruct (3 <=? n).
    + unfold user'. now destruct (3 <=? n).
Qed.

(** X25.  The lock does not remember what the account was before it: an
    account that is [inativo] and takes the wrong password that blocks it
    (its third failure or later) is, thirty minutes after that attempt, let
    in with the right password and left [ativo]. *)
Theorem lockout_reactivates_inactive_account :
  forall (m : Records) (user : UserRecord) (b1 b2 : LoginInput)
         (c1 c2 : LoginClock),
    wf m = true ->
    loginSchema b1 = Some b1 ->
    loginSchema b2 = Some b2 ->
    resolve m (li_username b1) = Some user ->
    resolve m (li_username b2) = Some user ->
    status user = inativo ->
    2 <= loginAttempts user ->
    comparePassword (li_password b1) (passwordHash user) = false ->
    comparePassword (li_password b2) (passwordHash user) = true ->
    thirtyMinutes <= atBlockCheck c2 - atFailure c1 ->
    let m1 := storeAfter (userLogin b1 c1 m) in
    let m2 := storeAfter (userLogin b2 c2 m1) in
    option_map status (get (id user) m) = Some inativo /\
    outcome (userLogin b1 c1 m) = failure ACCOUNT_BLOCKED 403 /\
    option_map status (get (id user) m1) = Some bloqueado /\
    isReturned (outcome (userLogin b2 c2 m1)) = true /\
    option_map status (get (id user) m2) = Some ativo.
Proof.
  intros m user b1 b2 c1 c2 Hwf Hv1 Hv2 Hr1 Hr2 Hs Hn Hp1 Hp2 Hout m1 m2.
  pose proof (login_wrong_password_step_open m user b1 c1 Hwf Hv1 Hr1
                (or_intror Hs) Hp1) as S1.
  cbv zeta in S1.
  replace (3 <=? loginAttempts user + 1) with true in S1
    by (symmetry; apply Z.leb_le; lia).
  set (blocked := spread user (blockData (loginAttempts user + 1) (atFailure c1))) in *.
  destruct S1 as (E1 & Hwf1 & Hres1).
  unfold m2, m1, storeAfter, outcome. rewrite E1. simpl fst. simpl snd.
  set (mb := set (id user) blocked m) in *.
  pose proof (Hres1 _ Hr2) as Hrb.
  assert (Hgb : get (id blocked) mb = Some blocked)
    by (apply (resolve_get mb _ blocked Hwf1 Hrb)).
  split; [rewrite (resolve_get m _ user Hwf Hr1); simpl; now rewrite Hs|].
  split; [reflexivity|].
  split; [change (id user) with (id blocked); now rewrite Hgb|].
  rewrite (userLogin_found b2 c2 mb blocked Hv2 Hrb).
  rewrite authenticate_ok_after_unblock; auto.
  simpl. change (id blocked) with (id user).
  rewrite get_set_same. auto.
Qed.

End LoginContract.

(** ** The routes, over any run of requests *)

Section Routes.
Context {L : NodeLib} {Zd : Zod}.
Import UserStore StoreFacts Run.

Lemma snd_handle {A : Type} (okStatus : Z) (call : Svc A) m :
  snd (handle okStatus call m) = storeAfter (call m).
Proof. unfold handle, storeAfter. now destruct (call m). Qed.


Lemma serve_store q m :
  serve q m
  = match q with
    | PostRegister body newId now => storeAfter (userRegister body newId now m)
    | PostLogin body clock => storeAfter (userLogin body clock m)
    | PutProfile params body now =>
        storeAfter (userUpdateProfile params body now m)
    | _ => m
    end.
Proof.
  destruct q; unfold serve, registerHandler, loginHandler, getProfileHandler,
    updateProfileHandler, confirmEmailHandler, requestPasswordResetHandler,
    resetPasswordHandler; rewrite snd_handle; auto.
  - unfold storeAfter, userGetProfile.
    destruct (paramsSchema params); svc_unfold; auto.
    now destruct (getById m _).
  - unfold storeAfter, userConfirmEmail. now destruct (confirmEmailSchema token).
  - unfold storeAfter, userRequestPasswordReset.
    destruct (requestPasswordResetSchema mail); svc_unfold; auto.
    now destruct (findByEmail m _).
  - unfold storeAfter, userResetPassword.
    now destruct (resetPasswordSchema token newPassword).
Qed.

(** X19.  Served one after the other, the requests of the seven user
    routes keep the store well formed (each key once, each record under its
    own id) with usernames and emails unique up to letter case, whatever
    ids the generator hands out. *)
Theorem routes_keep_the_store_invariant :
  forall (qs : list Request) (m : Records),
    ZodLaws Zd ->
    storeInvariant m ->
    storeInvariant (serveAll qs m).
Proof.
  intros qs m Hz. revert m. unfold serveAll.
  induction qs as [|q qs IH]; simpl; intros m Hinv; auto.
  apply IH. rewrite serve_store. destruct q; auto.
  - now apply userRegister_invariant.
  - now apply userLogin_invariant.
  - now apply userUpdateProfile_invariant.
Qed.

Lemma login_refused_when_only_pending m body clock :
  onlyPending m ->
  isReturned (outcome (userLogin body clock m)) = false /\
  storeAfter (userLogin body clock m) = m.
Proof.
  intros Hp. unfold userLogin, outcome, storeAfter.
  destruct (loginSchema body) as [params|]; [|split; reflexivity].
  unfold bind. rewrite findUser_run.
  destruct (resolve m (li_username params)) as [user|] eqn:Hr;
    [|split; reflexivity].
  rewrite authenticate_refused_pending; [split; reflexivity|].
  apply Hp. now apply (resolve_In m (li_username params)).
Qed.

Lemma serve_onlyPending q m : onlyPending m -> onlyPending (serve q m).
Proof.
  intros Hp. rewrite serve_store. destruct q; auto.
  - unfold storeAfter, userRegister.
    destruct (registerSchema body); svc_unfold; auto.
    destruct (findByUsername m _); auto.
    destruct (findByEmail m _); auto. simpl.
    intros acct Hr. apply In_values_set_any in Hr as [-> | Hr]; auto.
  - now rewrite (proj2 (login_refused_when_only_pending m body clock Hp)).
  - unfold storeAfter, userUpdateProfile.
    destruct (paramsSchema params) as [i|]; svc_unfold; auto.
    destruct (updateSchema body) as [updateData|]; auto.
    destruct (getById m i) as [user|] eqn:Hg; auto.
    assert (Hu : status user = pendente)
      by (apply Hp; now apply (getById_In m i)).
    destruct (changing (ui_username updateData) (username user));
      [destruct (findByUsername m _); auto|];
      (destruct (changing (ui_email updateData) (email user));
       [destruct (findByEmail m _); auto|]);
      rewrite (update_present m i _ user Hg); simpl;
      intros acct Hr; apply In_values_set_any in Hr as [-> | Hr]; auto.
Qed.

(** X20.  No route takes an account out of [pendente]: registration
    creates accounts pending, the confirmation route always throws, and
    login refuses a pending account before it writes.  So in a store where
    every account is pending, every account is still pending after any run
    of requests, and no login returns, whatever the password. *)
Theorem pending_accounts_never_log_in :
  forall (qs : list Request) (m : Records),
    onlyPending m ->
    onlyPending (serveAll qs m) /\
    forall body clock,
      isReturned (outcome (userLogin body clock (serveAll qs m))) = false.
Proof.
  intros qs m Hp.
  assert (Hall : onlyPending (serveAll qs m)).
  { revert m Hp. unfold serveAll.
    induction qs as [|q qs IH]; simpl; intros m Hp; auto.
    apply IH. now apply serve_onlyPending. }
  split; auto. intros body clock.
  now apply login_refused_when_only_pending.
Qed.

Lemma selfServiceProfile_not_admin s p :
  selfServiceProfile s = Some p -> p <> administrador.
Proof.
  unfold selfServiceProfile.
  destruct (String.eqb s "iniciante"); [intros [= <-]; discriminate|].
  destruct (String.eqb s "experiente"); [intros [= <-]; discriminate|].
  discriminate.
Qed.

Lemma registerSchema_not_admin body params :
  registerSchema body = Some params -> ri_profile params <> administrador.
Proof.
  unfold registerSchema. destruct (_ && _); [|discriminate].
  destruct (selfServiceProfile (rb_profile body)) eqn:E; [|discriminate].
  intros [= <-]. simpl. now apply (selfServiceProfile_not_admin _ _ E).
Qed.

Lemma updateSchema_not_admin body updateData :
  updateSchema body = Some updateData ->
  ui_profile updateData <> Some administrador.
Proof.
  unfold updateSchema. destruct (_ && _); [|discriminate].
  destruct (ub_profile body) as [s|].
  - destruct (selfServiceProfile s) eqn:E; [|discriminate].
    intros [= <-]. simpl. intros [= ->].
    now apply (selfServiceProfile_not_admin _ _ E).
  - intros [= <-]. discriminate.
Qed.

(** An administrator of the store after one request was one before. *)
Lemma serve_no_new_administrator q m r :
  wf m = true ->
  In r (values (serve q m)) -> profile r = administrador ->
  exists r0, In r0 (values m) /\ id r0 = id r /\ profile r0 = administrador.
Proof.
  intros Hwf. rewrite serve_store. destruct q; try (intros; now exists r).
  - unfold storeAfter, userRegister.
    destruct (registerSchema body) as [params|] eqn:Hv; svc_unfold;
      try (intros; now exists r).
    destruct (findByUsername m _); try (intros; now exists r).
    destruct (findByEmail m _); try (intros; now exists r). simpl.
    intros Hr Hadmin. apply In_values_set_any in Hr as [-> | Hr];
      [|now exists r].
    simpl in Hadmin. now destruct (registerSchema_not_admin body params Hv).
  - destruct (@userLogin_store_cases L m body clock Hwf)
      as [-> | (user & v & Hr & Hg & -> & Hid & _ & _ & _ & Hp & _)];
      [intros; now exists r|].
    intros Hin Hadmin. apply In_values_set_any in Hin as [-> | Hin];
      [|now exists r].
    exists user. repeat split; auto.
    + now apply (resolve_In m (li_username body)).
    + congruence.
  - unfold storeAfter, userUpdateProfile.
    destruct (paramsSchema params) as [i|]; svc_unfold;
      try (intros; now exists r).
    destruct (updateSchema body) as [updateData|] eqn:Hv;
      try (intros; now exists r).
    destruct (getById m i) as [user|] eqn:Hg; try (intros; now exists r).
    assert (Hstep : In r (values (set i (spread user (updatePatch updateData now)) m)) ->
                    profile r = administrador ->
                    exists r0, In r0 (values m) /\ id r0 = id r
                               /\ profile r0 = administrador).
    { intros Hin Hadmin. apply In_values_set_any in Hin as [-> | Hin];
        [|now exists r].
      exists user. split; [now apply (getById_In m i)|]. split; auto.
      simpl in Hadmin. pose proof (updateSchema_not_admin body updateData Hv) as Hn.
      destruct (ui_profile updateData) as [p|]; simpl in Hadmin; auto.
      congruence. }
    destruct (changing (ui_username updateData) (username user));
      [destruct (findByUsername m _); try (intros; now exists r)|];
      (destruct (changing (ui_email updateData) (email user));
       [destruct (findByEmail m _); try (intros; now exists r)|]);
      rewrite (update_present m i _ user Hg); simpl; exact Hstep.
Qed.

Lemma serve_wf q m : wf m = true -> wf (serve q m) = true.
Proof.
  intros Hwf. rewrite serve_store. destruct q; auto.
  - unfold storeAfter, userRegister.
    destruct (registerSchema body); svc_unfold; auto.
    destruct (findByUsername m _); auto.
    destruct (findByEmail m _); auto. simpl. now apply wf_set.
  - destruct (@userLogin_store_cases L m body clock Hwf)
      as [-> | (user & v & _ & Hg & -> & Hid & _)]; auto.
    now apply wf_set.
  - unfold storeAfter, userUpdateProfile.
    destruct (paramsSchema params) as [i|]; svc_unfold; auto.
    destruct (updateSchema body) as [updateData|]; auto.
    destruct (getById m i) as [user|] eqn:Hg; auto.
    pose proof (wf_get_id m i user Hwf Hg) as Hid.
    destruct (changing (ui_username updateData) (username user));
      [destruct (findByUsername m _); auto|];
      (destruct (changing (ui_email updateData) (email user));
       [destruct (findByEmail m _); auto|]);
      rewrite (update_present m i _ user Hg); simpl; now apply wf_set.
Qed.

(** X21.  No run of requests makes an administrator: the register and
    update schemas admit only [iniciante] and [experiente], and login leaves
    the profile alone.  Every account that is [administrador] after the run
    was stored under the same id as [administrador] before it. *)
Theorem routes_make_no_administrator :
  forall (qs : list Request) (m : Records) (r : UserRecord),
    wf m = true ->
    In r (values (serveAll qs m)) ->
    profile r = administrador ->
    exists r0, In r0 (values m) /\ id r0 = id r /\ profile r0 = administrador.
Proof.
  intros qs. unfold serveAll.
  induction qs as [|q qs IH]; simpl; intros m r Hwf Hin Hadmin.
  - now exists r.
  - destruct (IH (serve q m) r (serve_wf q m Hwf) Hin Hadmin)
      as (r1 & Hin1 & Hid1 & Hadmin1).
    destruct (serve_no_new_administrator q m r1 Hwf Hin1 Hadmin1)
      as (r0 & Hin0 & Hid0 & Hadmin0).
    exists r0. repeat split; auto. congruence.
Qed.

(** X22.  [userRequestPasswordReset] on a valid address returns exactly
    when a stored account has that email up to letter case, and throws
    [NOT_FOUND] otherwise; it writes nothing either way. *)
Theorem requestPasswordReset_tells_registered_emails :
  forall (m : Records) (mail : string),
    emailSchema mail = true ->
    ((exists r, In r (values m) /\ sameIgnoringCase (email r) mail) ->
     userRequestPasswordReset mail m = (Returned tt, m)) /\
    ((forall r, In r (values m) -> ~ sameIgnoringCase (email r) mail) ->
     userRequestPasswordReset mail m = (failure NOT_FOUND 404, m)).
Proof.
  intros m mail Hv. unfold userRequestPasswordReset, requestPasswordResetSchema.
  rewrite Hv. svc_unfold. split.
  - intros (r & Hin & Hsame).
    now destruct (findByEmail_hit m r mail Hin Hsame) as [u ->].
  - intros Hnone. now rewrite (findByEmail_none m mail Hnone).
Qed.


End Routes.

(** ** The forms' schemas against the service's *)

Section ClientSchemas.
(** The zod of the service and the zod of the client. *)
Context (Zs Zc : Zod).


Lemma forallb_string_ext (f g : ascii -> bool) s :
  (forall c, f c = g c) ->
  JsString.forallb_string f s = JsString.forallb_string g s.
Proof. intros H. induction s as [|c s IH]; simpl; auto. now rewrite H, IH. Qed.

Lemma existsb_string_ext (f g : ascii -> bool) s :
  (forall c, f c = g c) ->
  JsString.existsb_string f s = JsString.existsb_string g s.
Proof. intros H. induction s as [|c s IH]; simpl; auto. now rewrite H, IH. Qed.

Lemma client_usernameRule s : Client.usernameRule s = usernameSchema s.
Proof.
  unfold Client.usernameRule, usernameSchema. f_equal. f_equal.
  apply forallb_string_ext. intros c. unfold JsString.isAlnum.
  now destruct (JsString.isUpper c), (JsString.isLower c).
Qed.

Lemma client_passwordRule s : Client.passwordRule s = passwordSchema s.
Proof.
  unfold Client.passwordRule, passwordSchema. f_equal.
  apply existsb_string_ext. intros c. unfold JsString.isAlnum.
  now destruct (JsString.isUpper c), (JsString.isLower c).
Qed.

(** X24.  Where the client's zod and the service's zod check emails and
    URLs alike, what the client's schemas let through, the service's schemas
    let through, with the same parsed data: for the register, login,
    password-reset request and password-reset forms the two sides accept
    exactly the same bodies, and every update form the client accepts is a
    body the service accepts.  The other way round, the service accepts
    every update body the client does, and besides only bodies with
    [avatar: null], which the form cannot produce. *)
Theorem client_schemas_agree_with_service :
  sameFormats Zs Zc ->
  (forall form, @Client.registerSchema Zc form = @registerSchema Zs form) /\
  (forall form, Client.loginSchema form = loginSchema form) /\
  (forall mail,
      @Client.requestPasswordResetSchema Zc mail
      = @requestPasswordResetSchema Zs mail) /\
  (forall token newPassword,
      Client.resetPasswordSchema token newPassword
      = resetPasswordSchema token newPassword) /\
  (forall form out,
      @Client.updateProfileSchema Zc form = Some out ->
      @updateSchema Zs (Client.updateBody form)
      = Some {| ui_username := Client.uo_username out;
                ui_email := Client.uo_email out;
                ui_profile := Client.uo_profile out;
                ui_avatar := option_map Some (Client.uo_avatar out) |}) /\
  (forall body updateData,
      @updateSchema Zs body = Some updateData ->
      ub_avatar body <> Some None ->
      exists form out,
        body = Client.updateBody form /\
        @Client.updateProfileSchema Zc form = Some out).
Proof.
  intros [Hmail Hurl].
  split; [|split; [|split; [|split; [|split]]]].
  - intros form. unfold Client.registerSchema, registerSchema, emailSchema.
    now rewrite client_usernameRule, client_passwordRule, Hmail.
  - reflexivity.
  - intros mail.
    unfold Client.requestPasswordResetSchema, requestPasswordResetSchema,
      emailSchema. now rewrite Hmail.
  - intros token pw. unfold Client.resetPasswordSchema, resetPasswordSchema.
    now rewrite client_passwordRule.
  - intros [u e pr av] out.
    unfold Client.updateProfileSchema, updateSchema, Client.updateBody.
    cbn [Client.uf_username Client.uf_email Client.uf_profile Client.uf_avatar
         ub_username ub_email ub_profile ub_avatar].
    replace (Client.optional Client.usernameRule u)
      with (optionalSchema usernameSchema u)
      by (destruct u; simpl; auto; now rewrite client_usernameRule).
    replace (Client.optional (@z_email Zc) e)
      with (optionalSchema (@emailSchema Zs) e)
      by (destruct e; simpl; auto; unfold emailSchema; now rewrite Hmail).
    replace (Client.optional (@z_url Zc) av)
      with (match option_map Some av with
            | Some (Some url) => @z_url Zs url
            | _ => true
            end) by (destruct av; simpl; auto).
    destruct (_ && _ && _); [|discriminate].
    destruct pr as [p|]; [|now intros [= <-]].
    change (Client.profileRule p) with (selfServiceProfile p).
    destruct (selfServiceProfile p); [now intros [= <-]|discriminate].
  - intros [u e pr av] updateData Hv Hav.
    cbn [ub_avatar] in Hav.
    exists (Client.mkUpdateProfileForm u e pr
              (match av with Some (Some url) => Some url | _ => None end)).
    assert (Hbody : av = option_map Some
                           (match av with Some (Some url) => Some url | _ => None end)).
    { destruct av as [[url|]|]; simpl; auto. congruence. }
    revert Hv.
    unfold Client.updateProfileSchema, updateSchema, Client.updateBody.
    cbn [Client.uf_username Client.uf_email Client.uf_profile Client.uf_avatar
         ub_username ub_email ub_profile ub_avatar].
    replace (Client.optional Client.usernameRule u)
      with (optionalSchema usernameSchema u)
      by (destruct u; simpl; auto; now rewrite client_usernameRule).
    replace (Client.optional (@z_email Zc) e)
      with (optionalSchema (@emailSchema Zs) e)
      by (destruct e; simpl; auto; unfold emailSchema; now rewrite Hmail).
    replace (Client.optional (@z_url Zc)
               (match av with Some (Some url) => Some url | _ => None end))
      with (match av with Some (Some url) => @z_url Zs url | _ => true end)
      by (destruct av as [[url|]|]; simpl; auto).
    destruct (_ && _ && _); [|discriminate].
    intros Hv.
    destruct pr as [p|].
    + change (Client.profileRule p) with (selfServiceProfile p).
      destruct (selfServiceProfile p); [|discriminate].
      eexists. split; [now rewrite <- Hbody | reflexivity].
    + eexists. split; [now rewrite <- Hbody | reflexivity].
Qed.

End ClientSchemas.

(** ** The executable platform satisfies the laws *)

Module ModelFacts.
Import JsString SplitFacts Model.

Lemma hexDigit_value k : (k < 16)%nat -> hexValue (hexDigit k) = k.
Proof.
  intros Hk.
  do 16 (destruct k as [|k]; [reflexivity|]). lia.
Qed.

Lemma hexDigit_not sep :
  forallb (fun k => negb (Ascii.eqb (hexDigit k) sep)) (seq 0 16) = true ->
  forall k, (k < 16)%nat -> negb (Ascii.eqb (hexDigit k) sep) = true.
Proof.
  intros H k Hk. rewrite forallb_forall in H. apply H, in_seq. lia.
Qed.

Lemma nibbles c :
  (nat_of_ascii c / 16 < 16)%nat /\ (nat_of_ascii c mod 16 < 16)%nat.
Proof.
  pose proof (nat_ascii_bounded c) as Hb. split.
  - apply Nat.Div0.div_lt_upper_bound. lia.
  - apply Nat.mod_upper_bound. lia.
Qed.

Lemma hexEncode_free sep s :
  forallb (fun k => negb (Ascii.eqb (hexDigit k) sep)) (seq 0 16) = true ->
  free_of sep (hexEncode s) = true.
Proof.
  intros H. unfold free_of. induction s as [|c rest IH]; [reflexivity|].
  cbn [hexEncode forallb_string].
  destruct (nibbles c) as [Hhi Hlo].
  rewrite (hexDigit_not sep H _ Hhi), (hexDigit_not sep H _ Hlo).
  exact IH.
Qed.

Lemma hexDecode_hexEncode s : hexDecode (hexEncode s) = s.
Proof.
  induction s as [|c rest IH]; [reflexivity|].
  cbn [hexEncode hexDecode].
  destruct (nibbles c) as [Hhi Hlo].
  rewrite (hexDigit_value _ Hhi), (hexDigit_value _ Hlo), IH.
  rewrite <- (Nat.div_mod_eq (nat_of_ascii c) 16).
  now rewrite ascii_nat_embedding.
Qed.

Lemma readZ_printZ z : readZ (printZ z) = Some z.
Proof.
  unfold readZ, printZ. rewrite NilEmpty.isi. simpl.
  now rewrite DecimalZ.of_to.
Qed.

Lemma printZ_free z : free_of "," (printZ z) = true.
Proof.
  unfold printZ, free_of.
  assert (Hu : forall d, forallb_string (fun c => negb (Ascii.eqb c ","))
                           (NilEmpty.string_of_uint d) = true)
    by (induction d; simpl; auto).
  destruct (Z.to_int z); simpl; auto.
Qed.

Lemma split_five a b c d e :
  free_of "," a = true -> free_of "," b = true -> free_of "," c = true ->
  free_of "," d = true -> free_of "," e = true ->
  split "," (a ++ "," ++ b ++ "," ++ c ++ "," ++ d ++ "," ++ e) = [a; b; c; d; e].
Proof.
  intros Ha Hb Hc Hd He.
  change (a ++ "," ++ b ++ "," ++ c ++ "," ++ d ++ "," ++ e)
    with (a ++ String "," (b ++ String "," (c ++ String "," (d ++ String "," e)))).
  now rewrite (split_app "," a _ Ha), (split_app "," b _ Hb),
    (split_app "," c _ Hc), (split_app "," d _ Hd), (split_free "," e He).
Qed.

Lemma parse_stringify payload iat exp :
  parse (stringify (@tokenPayload payload iat exp))
  = Some (@tokenPayload payload iat exp).
Proof.
  unfold parse, tokenPayload, stringify.
  rewrite split_five;
    try apply printZ_free; try (apply hexEncode_free; reflexivity).
  now rewrite !readZ_printZ, !hexDecode_hexEncode.
Qed.

Lemma node_laws : NodeLaws node.
Proof.
  constructor; simpl.
  - intros s. now apply hexEncode_free.
  - intros k msg. now apply hexEncode_free.
  - apply hexDecode_hexEncode.
  - apply parse_stringify.
Qed.

Lemma zod_laws : ZodLaws zod.
Proof. constructor. reflexivity. Qed.

Lemma store_uniqueUsernames : uniqueUsernames store.
Proof.
  intros a b [<- | [<- | []]] [<- | [<- | []]] H;
    try reflexivity; discriminate H.
Qed.

Lemma store_uniqueEmails : uniqueEmails store.
Proof.
  intros a b [<- | [<- | []]] [<- | [<- | []]] H;
    try reflexivity; discriminate H.
Qed.

Lemma store_invariant : storeInvariant store.
Proof.
  split; [reflexivity|]. split; [apply store_uniqueUsernames|apply store_uniqueEmails].
Qed.

End ModelFacts.

(** ** Runs on the sample data *)

Module Runs.
Import UserStore Model ModelFacts.

(** Bob is pending: his own password gets [ACCOUNT_PENDING]. *)
Lemma login_pending_account_refused_witness :
  @userLogin node (mkLoginInput "bob" "Hunter#2") (clockAt 9000) store
  = (failure ACCOUNT_PENDING 403, store).
Proof.
  apply (@login_pending_account_refused node store
           (mkLoginInput "bob" "Hunter#2") (clockAt 9000) bob);
    vm_compute; reflexivity.
Defined.

(** Alice was blocked at 5000000; 29 minutes later her own password gets
    [ACCOUNT_BLOCKED] and the store is as before. *)
Lemma login_inside_lock_window_refused_witness :
  @userLogin node (mkLoginInput "alice" "Secret#1") (clockAt 6740000) storeBlocked
  = (failure ACCOUNT_BLOCKED 403, storeBlocked).
Proof.
  apply (@login_inside_lock_window_refused node storeBlocked
           (mkLoginInput "alice" "Secret#1") (clockAt 6740000)
           aliceBlocked 5000000);
    vm_compute; reflexivity.
Defined.

(** Alice, blocked with three attempts, 31 minutes later and a wrong
    password: blocked again, with four attempts. *)
Lemma login_after_lock_window_wrong_password_witness :
  let r := @userLogin node (mkLoginInput "alice" "nope") (clockAt 6860000)
                      storeBlocked in
  outcome r = failure ACCOUNT_BLOCKED 403 /\
  exists stored,
    getById (storeAfter r) idAlice = Some stored /\
    status stored = bloqueado /\
    loginAttempts stored = 3 + 1 /\
    lastLoginAttempt stored = Some 6860000.
Proof.
  apply (@login_after_lock_window_wrong_password node storeBlocked
           (mkLoginInput "alice" "nope") (clockAt 6860000) aliceBlocked);
    vm_compute; try reflexivity; discriminate.
Defined.

(** The same from the start: three wrong passwords block Alice at 300;
    the fourth, 31 minutes later, blocks her again with four attempts. *)
Lemma blocked_again_after_the_window :
  let r1 := @userLogin node (mkLoginInput "alice" "bad1") (clockAt 100) store in
  let r2 := @userLogin node (mkLoginInput "alice" "bad2") (clockAt 200)
                       (storeAfter r1) in
  let r3 := @userLogin node (mkLoginInput "alice" "bad3") (clockAt 300)
                       (storeAfter r2) in
  let r4 := @userLogin node (mkLoginInput "alice" "bad4") (clockAt 1860300)
                       (storeAfter r3) in
  option_map loginAttempts (get idAlice (storeAfter r3)) = Some 3 /\
  outcome r4 = failure ACCOUNT_BLOCKED 403 /\
  option_map status (get idAlice (storeAfter r4)) = Some bloqueado /\
  option_map loginAttempts (get idAlice (storeAfter r4)) = Some 4.
Proof. vm_compute. repeat split. Qed.

(** Three wrong passwords for Alice, by username, by username in capitals
    and by email. *)
Lemma three_wrong_passwords_block_account_witness :
  let r1 := @userLogin node (mkLoginInput "alice" "bad1") (clockAt 100) store in
  let r2 := @userLogin node (mkLoginInput "ALICE" "bad2") (clockAt 200)
                       (storeAfter r1) in
  let r3 := @userLogin node (mkLoginInput "alice@example.com" "bad3")
                       (clockAt 300) (storeAfter r2) in
  outcome r1 = failure INVALID_CREDENTIALS 401 /\
  outcome r2 = failure INVALID_CREDENTIALS 401 /\
  outcome r3 = failure ACCOUNT_BLOCKED 403 /\
  option_map status (get idAlice (storeAfter r3)) = Some bloqueado.
Proof.
  apply (@three_wrong_passwords_block_account node store alice
           (mkLoginInput "alice" "bad1") (mkLoginInput "ALICE" "bad2")
           (mkLoginInput "alice@example.com" "bad3")
           (clockAt 100) (clockAt 200) (clockAt 300)).
  - vm_compute; reflexivity.
  - reflexivity.
  - reflexivity.
  - intros b [<- | [<- | [<- | []]]]; vm_compute; repeat split.
Defined.

(** Alice logs in with her password 31 minutes after the lockout. *)
Lemma login_success_resets_counters_witness :
  let body := mkLoginInput "alice" "Secret#1" in
  let clock := clockAt 6860000 in
  exists user stored,
    resolve storeBlocked (li_username body) = Some user /\
    comparePassword (L := node) (li_password body) (passwordHash user) = true /\
    get (id user) (storeAfter (@userLogin node body clock storeBlocked))
    = Some stored /\
    loginAttempts stored = 0 /\
    lastLoginAttempt stored = None /\
    dateModified stored = dateModified user /\
    status stored = (if Status_eqb (status user) bloqueado then ativo
                     else status user) /\
    (forall now,
        now / 1000 <= atTokenExp clock / 1000 + tokenTTL ->
        verifyToken (L := node)
          (lr_token (loginResponse (L := node) aliceBlocked clock)) now
        = TokenPayload
            (JObject [("id", JString (id user));
                      ("username", JString (username user));
                      ("profile", JString (Profile_toString (profile user)));
                      ("iat", JNumber (atTokenIat clock / 1000));
                      ("exp", JNumber (atTokenExp clock / 1000 + tokenTTL))])) /\
    forall k, k <> id user ->
              get k (storeAfter (@userLogin node body clock storeBlocked))
              = get k storeBlocked.
Proof.
  intros body clock.
  apply (@login_success_resets_counters node node_laws storeBlocked
           (storeAfter (@userLogin node body clock storeBlocked))
           body clock (loginResponse (L := node) aliceBlocked clock));
    vm_compute; reflexivity.
Defined.

(** Carol registers next to Alice and Bob. *)
Lemma register_creates_pending_account_witness :
  exists created,
    @userRegister node zod
      (mkRegisterBody "carol_9" "carol@example.com" "Passw0rd!" "experiente")
      idCarol 7000 store
    = (Returned {| res_id := idCarol;
                   res_username := "carol_9";
                   res_email := "carol@example.com";
                   res_profile := "experiente";
                   res_avatar := None;
                   res_status := pendente;
                   res_dateCreated := 7000 |},
       set idCarol created store) /\
    getById (set idCarol created store) idCarol = Some created /\
    id created = idCarol /\
    username created = "carol_9" /\
    email created = "carol@example.com" /\
    passwordHash created = hashPassword (L := node) "Passw0rd!" /\
    profile created = experiente /\
    status created = pendente /\
    loginAttempts created = 0 /\
    lastLoginAttempt created = None /\
    dateCreated created = 7000 /\
    dateModified created = 7000.
Proof.
  apply (@register_creates_pending_account node zod store
           (mkRegisterBody "carol_9" "carol@example.com" "Passw0rd!" "experiente")
           (mkRegisterInput "carol_9" "carol@example.com" "Passw0rd!" experiente)
           idCarol 7000).
  - vm_compute; reflexivity.
  - intros r [<- | [<- | []]] H; vm_compute in H; discriminate H.
  - intros r [<- | [<- | []]] H; vm_compute in H; discriminate H.
Defined.

(** Alice asks for Bob's address in capitals. *)
Lemma update_to_taken_email_rejected_witness :
  let r := @userUpdateProfile zod idAlice
             (mkUpdateBody None (Some "BOB@example.com") None None) 7000 store in
  let r2 := @userUpdateProfile zod idAlice
              (mkUpdateBody (Some "Bob") (Some "BOB@example.com") None None)
              7000 store in
  outcome r = failure DUPLICATE_EMAIL 409 /\
  storeAfter r = store /\
  getById (storeAfter r) idAlice = Some alice /\
  getById (storeAfter r) idBob = Some bob /\
  outcome r2 = failure DUPLICATE_USERNAME 409 /\
  storeAfter r2 = store.
Proof.
  pose proof (@update_to_taken_email_rejected zod store idAlice
                (mkUpdateBody None (Some "BOB@example.com") None None)
                (mkUpdateInput None (Some "BOB@example.com") None None)
                7000 alice bob "BOB@example.com"
                zod_laws eq_refl store_uniqueEmails eq_refl eq_refl eq_refl
                (or_intror (or_introl eq_refl))
                ltac:(vm_compute; discriminate) eq_refl
                ltac:(vm_compute; reflexivity)) as H.
  pose proof (@update_to_taken_email_rejected zod store idAlice
                (mkUpdateBody (Some "Bob") (Some "BOB@example.com") None None)
                (mkUpdateInput (Some "Bob") (Some "BOB@example.com") None None)
                7000 alice bob "BOB@example.com"
                zod_laws eq_refl store_uniqueEmails eq_refl eq_refl eq_refl
                (or_intror (or_introl eq_refl))
                ltac:(vm_compute; discriminate) eq_refl
                ltac:(vm_compute; reflexivity)) as H2.
  destruct H as (Hcode & _ & _ & Hstore & Ha & Hb).
  destruct H2 as (_ & Hname & _ & Hstore2 & _).
  assert (Hacc : usernameAccepted store alice
                   (mkUpdateInput None (Some "BOB@example.com") None None))
    by (intros name Hn; discriminate Hn).
  exact (conj (Hcode Hacc)
           (conj Hstore
              (conj Ha
                 (conj Hb
                    (conj (Hname "Bob" bob eq_refl
                             ltac:(vm_compute; discriminate)
                             (or_intror (or_introl eq_refl))
                             ltac:(vm_compute; reflexivity))
                          Hstore2))))).
Defined.

(** Alice asks for Bob's address and for Bob's name in one patch: every
    condition of the email refusal is met, and the error is the username
    one. *)
Lemma taken_email_with_taken_username :
  @updateSchema zod (mkUpdateBody (Some "bob") (Some "BOB@example.com") None None)
  = Some (mkUpdateInput (Some "bob") (Some "BOB@example.com") None None) /\
  getById store idAlice = Some alice /\
  In bob (values store) /\
  id bob <> id alice /\
  sameIgnoringCase "BOB@example.com" (email bob) /\
  outcome (@userUpdateProfile zod idAlice
             (mkUpdateBody (Some "bob") (Some "BOB@example.com") None None)
             7000 store)
  = failure DUPLICATE_USERNAME 409 /\
  outcome (@userUpdateProfile zod idAlice
             (mkUpdateBody (Some "bob") (Some "BOB@example.com") None None)
             7000 store)
  <> failure DUPLICATE_EMAIL 409.
Proof.
  split; [reflexivity|]. split; [reflexivity|].
  split; [right; left; reflexivity|].
  split; [vm_compute; discriminate|].
  split; [vm_compute; reflexivity|].
  split; [vm_compute; reflexivity|vm_compute; discriminate].
Qed.

(** Alice asks for her own username, then her own address, in other
    letter case. *)
Lemma update_case_only_change_rejected_witness :
  @userUpdateProfile zod idAlice
    (mkUpdateBody (Some "Alice") None None None) 7000 store
  = (failure DUPLICATE_USERNAME 409, store)
  /\
  @userUpdateProfile zod idAlice
    (mkUpdateBody None (Some "Alice@Example.com") None None) 7000 store
  = (failure DUPLICATE_EMAIL 409, store)
  /\
  @userUpdateProfile zod idAlice
    (mkUpdateBody (Some "BOB") (Some "Alice@Example.com") None None) 7000 store
  = (failure DUPLICATE_USERNAME 409, store).
Proof.
  split; [|split].
  - apply (proj1 (@update_case_only_change_rejected zod store idAlice
                    (mkUpdateBody (Some "Alice") None None None)
                    (mkUpdateInput (Some "Alice") None None None)
                    7000 alice zod_laws eq_refl eq_refl eq_refl) "Alice").
    + reflexivity.
    + vm_compute; discriminate.
    + vm_compute; reflexivity.
  - apply (proj1 (proj2 (@update_case_only_change_rejected zod store idAlice
                    (mkUpdateBody None (Some "Alice@Example.com") None None)
                    (mkUpdateInput None (Some "Alice@Example.com") None None)
                    7000 alice zod_laws eq_refl eq_refl eq_refl)
                  "Alice@Example.com" eq_refl
                  ltac:(vm_compute; discriminate)
                  ltac:(vm_compute; reflexivity))).
    intros name H; discriminate H.
  - apply (proj1 (proj2 (proj2 (@update_case_only_change_rejected zod store idAlice
                    (mkUpdateBody (Some "BOB") (Some "Alice@Example.com") None None)
                    (mkUpdateInput (Some "BOB") (Some "Alice@Example.com") None None)
                    7000 alice zod_laws eq_refl eq_refl eq_refl)
                  "Alice@Example.com" eq_refl
                  ltac:(vm_compute; discriminate)
                  ltac:(vm_compute; reflexivity))) "BOB" bob).
    + reflexivity.
    + vm_compute; discriminate.
    + right; left; reflexivity.
    + vm_compute; reflexivity.
Defined.

(** Alice asks for her own address in other letters and for Bob's name in
    one patch: the error is the username one. *)
Lemma own_email_recased_with_taken_username :
  @updateSchema zod (mkUpdateBody (Some "bob") (Some "Alice@Example.com") None None)
  = Some (mkUpdateInput (Some "bob") (Some "Alice@Example.com") None None) /\
  getById store idAlice = Some alice /\
  "Alice@Example.com" <> email alice /\
  sameIgnoringCase "Alice@Example.com" (email alice) /\
  @userUpdateProfile zod idAlice
    (mkUpdateBody (Some "bob") (Some "Alice@Example.com") None None) 7000 store
  = (failure DUPLICATE_USERNAME 409, store) /\
  outcome (@userUpdateProfile zod idAlice
             (mkUpdateBody (Some "bob") (Some "Alice@Example.com") None None)
             7000 store)
  <> failure DUPLICATE_EMAIL 409.
Proof.
  split; [reflexivity|]. split; [reflexivity|].
  split; [vm_compute; discriminate|].
  split; [vm_compute; reflexivity|].
  split; [vm_compute; reflexivity|vm_compute; discriminate].
Qed.

(** A token for Alice issued at 1700000000000: good one hour later,
    refused two days later, refused with the first code unit of its
    signature replaced by [z]. *)
Lemma token_round_trip_witness :
  let t := 1700000000000 in
  let token := generateToken (L := node) aliceClaims t t in
  let header := encodedHeader (L := node) in
  let body := tokenBody (L := node) aliceClaims t t in
  let signature := tokenSignature (L := node) header body in
  verifyToken (L := node) token (t + 3600000)
  = TokenPayload (JObject [("id", JString idAlice);
                           ("username", JString "alice");
                           ("profile", JString "iniciante");
                           ("iat", JNumber 1700000000);
                           ("exp", JNumber 1700086400)]) /\
  verifyToken (L := node) token (t + 172800000) = InvalidToken /\
  verifyToken (L := node)
    (header ++ "." ++ body ++ "." ++ JsString.setAt 0 "z" signature) t
  = InvalidToken.
Proof.
  intros t token header body signature.
  split; [|split].
  - apply (proj1 (proj2 (@token_round_trip node node_laws aliceClaims t t
                           (t + 3600000) (Z.le_refl t)))).
    vm_compute; reflexivity.
  - apply (proj1 (proj2 (proj2 (@token_round_trip node node_laws aliceClaims t t
                                  (t + 172800000) (Z.le_refl t))))).
    vm_compute; reflexivity.
  - apply (proj2 (proj2 (proj2 (@token_round_trip node node_laws aliceClaims t t
                                  t (Z.le_refl t)))) 0%nat "z"%char).
    + vm_compute; lia.
    + vm_compute; discriminate.
Defined.

(** Two components are refused; a fifth component changes nothing. *)
Lemma verifyToken_component_count_witness :
  verifyToken (L := node) "header.body" 0 = InvalidToken /\
  verifyToken (L := node) "a.b.c.d.e" 0 = verifyToken (L := node) "a.b.c" 0.
Proof.
  split.
  - apply (proj1 (@verifyToken_component_count node "header.body" 0)).
    vm_compute; lia.
  - apply (proj2 (@verifyToken_component_count node "a.b.c.d.e" 0)
                 "a" "b" "c" ["d"; "e"]).
    reflexivity.
Defined.

(** C2, against the claim as stated.  The token issued for Alice with
    [.extra] appended splits into four components, and [verifyToken]
    returns its payload. *)
Lemma verifyToken_accepts_four_components :
  let t := 1700000000000 in
  let token := (generateToken (L := node) aliceClaims t t ++ ".extra")%string in
  List.length (JsString.split "." token) = 4%nat /\
  verifyToken (L := node) token t
  = TokenPayload (tokenPayload aliceClaims 1700000000 1700086400).
Proof. vm_compute. split; reflexivity. Qed.

End Runs.

(** ** Runs of the store, token, service and route properties *)

Module MoreRuns.
Import UserStore Model Model2 ModelFacts.

Lemma store3_wf : wf store3 = true.
Proof. reflexivity. Qed.

Lemma storeTwoStrikes_wf : wf storeTwoStrikes = true.
Proof. reflexivity. Qed.

(** A patch for Bob is read back; a patch for an id that is not stored
    changes nothing. *)
Lemma update_contract_witness :
  let data := {| p_id := None; p_username := Some "robert"; p_email := None;
                 p_passwordHash := None; p_profile := None; p_avatar := None;
                 p_status := None; p_loginAttempts := Some 2;
                 p_lastLoginAttempt := None; p_dateCreated := None;
                 p_dateModified := None |} in
  getById (snd (update store idBob data)) idBob = Some (spread bob data) /\
  update store idCarol data = (None, store).
Proof.
  intro data.
  destruct (update_contract store idBob data) as (_ & _ & Hhit & _).
  destruct (update_contract store idCarol data) as (_ & Hmiss & _).
  split.
  - exact (proj2 (Hhit bob eq_refl)).
  - exact (Hmiss eq_refl).
Defined.

(** Deleting Bob takes the count from two to one; deleting Carol, who is
    not stored, changes nothing. *)
Lemma delete_contract_witness :
  S (count (snd (delete store idBob))) = count store /\
  snd (delete store idCarol) = store.
Proof.
  destruct (delete_contract store idBob) as (_ & _ & _ & _ & _ & Hcount).
  destruct (delete_contract store idCarol) as (_ & _ & _ & _ & Hmiss & _).
  split.
  - exact (Hcount eq_refl eq_refl).
  - exact (Hmiss eq_refl).
Defined.

(** [BOB] finds Bob, after Alice, who does not match. *)
Lemma find_by_name_contract_witness :
  sameIgnoringCase (username bob) "BOB" /\
  exists before after,
    values store = (before ++ bob :: after)%list /\
    forall r, In r before -> ~ sameIgnoringCase (username r) "BOB".
Proof.
  exact (proj1 (find_by_name_contract store "BOB") bob eq_refl).
Defined.

(** Alice's token, read one second after it was issued. *)
Lemma verifyToken_accepts_only_signed_witness :
  exists h b s rest,
    JsString.split "." (generateToken (L := node) aliceClaims 1000 2000)
    = h :: b :: s :: rest /\
    s = hmac_sha256_base64 (NodeLib := node) "secret-key" (h ++ "." ++ b) /\
    JSON_parse (NodeLib := node) (fromBase64 (NodeLib := node) b)
    = Some (tokenPayload aliceClaims 1 (2 + tokenTTL)) /\
    tokenPayload aliceClaims 1 (2 + tokenTTL) <> JNull /\
    forall e, getProp (tokenPayload aliceClaims 1 (2 + tokenTTL)) "exp"
              = Some (JNumber e) -> 5000 / 1000 <= e.
Proof.
  apply (@verifyToken_accepts_only_signed node
           (generateToken (L := node) aliceClaims 1000 2000) 5000
           (tokenPayload aliceClaims 1 (2 + tokenTTL))).
  vm_compute; reflexivity.
Defined.

(** A signed token whose body decodes to the empty object is accepted long
    after any token lifetime. *)
Lemma verifyToken_without_exp_never_expires_witness :
  @verifyToken looseNode
     ("7b7d.7b7d." ++ hexEncode "secret-key:7b7d.7b7d") 99999999999
  = TokenPayload (JObject []).
Proof.
  apply (@verifyToken_without_exp_never_expires looseNode
           ("7b7d.7b7d." ++ hexEncode "secret-key:7b7d.7b7d")
           "7b7d" "7b7d" (hexEncode "secret-key:7b7d.7b7d") []
           (JObject []));
    vm_compute; reflexivity.
Defined.

(** Alice's token in the last millisecond of its last second, and one
    millisecond later. *)
Lemma issued_token_accepted_until_exp_witness :
  @verifyToken node (generateToken (L := node) aliceClaims 1000 2000)
     ((2 + tokenTTL) * 1000 + 999)
  = TokenPayload (tokenPayload aliceClaims 1 (2 + tokenTTL)) /\
  @verifyToken node (generateToken (L := node) aliceClaims 1000 2000)
     ((2 + tokenTTL) * 1000 + 1000)
  <> TokenPayload (tokenPayload aliceClaims 1 (2 + tokenTTL)).
Proof.
  split.
  - apply (proj2 (@issued_token_accepted_until_exp node node_laws aliceClaims
                    1000 2000 ((2 + tokenTTL) * 1000 + 999))).
    vm_compute; reflexivity.
  - intro H.
    apply (proj1 (@issued_token_accepted_until_exp node node_laws aliceClaims
                    1000 2000 ((2 + tokenTTL) * 1000 + 1000))) in H.
    vm_compute in H; discriminate H.
Defined.

(** Dave logs in; his token reads back as his claims. *)
Lemma login_token_verifies_witness :
  exists user,
    resolve store3 "DAVE" = Some user /\
    @verifyToken node
       (lr_token (loginResponse (L := node) dave (clockAt 9000))) 60000
    = TokenPayload
        (JObject [("id", JString (id user));
                  ("username", JString (username user));
                  ("profile", JString (Profile_toString (profile user)));
                  ("iat", JNumber (9000 / 1000));
                  ("exp", JNumber (9000 / 1000 + tokenTTL))]).
Proof.
  apply (@login_token_verifies node node_laws store3
           (storeAfter (@userLogin node (mkLoginInput "DAVE" "Offline#3")
                                   (clockAt 9000) store3))
           (mkLoginInput "DAVE" "Offline#3") (clockAt 9000)
           (loginResponse (L := node) dave (clockAt 9000)) 60000).
  - reflexivity.
  - vm_compute; reflexivity.
  - vm_compute; discriminate.
Defined.

(** Registrations as [Alice] and with Bob's address in capitals. *)
Lemma register_duplicates_refused_witness :
  @userRegister node zod
     (mkRegisterBody "Alice" "new@example.com" "Passw0rd!" "iniciante")
     idCarol 7000 store
  = (failure DUPLICATE_USERNAME 409, store) /\
  @userRegister node zod
     (mkRegisterBody "carol_9" "BOB@example.com" "Passw0rd!" "iniciante")
     idCarol 7000 store
  = (failure DUPLICATE_EMAIL 409, store).
Proof.
  split.
  - apply (proj1 (@register_duplicates_refused node zod store
                    (mkRegisterBody "Alice" "new@example.com" "Passw0rd!"
                                    "iniciante")
                    (mkRegisterInput "Alice" "new@example.com" "Passw0rd!"
                                     iniciante)
                    idCarol 7000 eq_refl) alice).
    + left; reflexivity.
    + reflexivity.
  - apply (proj2 (@register_duplicates_refused node zod store
                    (mkRegisterBody "carol_9" "BOB@example.com" "Passw0rd!"
                                    "iniciante")
                    (mkRegisterInput "carol_9" "BOB@example.com" "Passw0rd!"
                                     iniciante)
                    idCarol 7000 eq_refl) bob).
    + right; left; reflexivity.
    + reflexivity.
    + intros r [<- | [<- | []]] H; vm_compute in H; discriminate H.
Defined.

(** Carol registers and reads her profile. *)
Lemma register_then_getProfile_witness :
  let r := @userRegister node zod carolBody idCarol 7000 store in
  exists response,
    outcome r = Returned response /\
    @userGetProfile zod idCarol (storeAfter r) = (Returned response, storeAfter r).
Proof.
  apply (@register_then_getProfile node zod store carolBody carolInput
           idCarol 7000).
  - reflexivity.
  - reflexivity.
  - intros r [<- | [<- | []]] H; vm_compute in H; discriminate H.
  - intros r [<- | [<- | []]] H; vm_compute in H; discriminate H.
Defined.

(** After Carol registered, [CAROL_9] and a second account on her address
    are refused. *)
Lemma register_twice_refused_witness :
  let m1 := storeAfter (@userRegister node zod carolBody idCarol 7000 store) in
  @userRegister node zod
     (mkRegisterBody "CAROL_9" "other@example.com" "Passw0rd!" "iniciante")
     idDave 8000 m1
  = (failure DUPLICATE_USERNAME 409, m1) /\
  @userRegister node zod
     (mkRegisterBody "carolyn" "Carol@Example.com" "Passw0rd!" "iniciante")
     idDave 8000 m1
  = (failure DUPLICATE_EMAIL 409, m1).
Proof.
  assert (Hu : forall r, In r (values store) ->
                         ~ sameIgnoringCase (username r) (rb_username carolBody))
    by (intros r [<- | [<- | []]] H; vm_compute in H; discriminate H).
  assert (He : forall r, In r (values store) ->
                         ~ sameIgnoringCase (email r) (rb_email carolBody))
    by (intros r [<- | [<- | []]] H; vm_compute in H; discriminate H).
  split.
  - apply (proj1 (@register_twice_refused node zod store carolBody
                    (mkRegisterBody "CAROL_9" "other@example.com" "Passw0rd!"
                                    "iniciante")
                    carolInput
                    (mkRegisterInput "CAROL_9" "other@example.com" "Passw0rd!"
                                     iniciante)
                    idCarol idDave 7000 8000 eq_refl Hu He eq_refl)).
    reflexivity.
  - apply (proj2 (@register_twice_refused node zod store carolBody
                    (mkRegisterBody "carolyn" "Carol@Example.com" "Passw0rd!"
                                    "iniciante")
                    carolInput
                    (mkRegisterInput "carolyn" "Carol@Example.com" "Passw0rd!"
                                     iniciante)
                    idCarol idDave 7000 8000 eq_refl Hu He eq_refl)).
    + reflexivity.
    + intro H; vm_compute in H; discriminate H.
    + intros r [<- | [<- | []]] H; vm_compute in H; discriminate H.
Defined.

(** A registration as [Alice] and a patch of an unknown id leave the store
    alone. *)
Lemma refused_calls_write_nothing_witness :
  storeAfter (@userRegister node zod
                (mkRegisterBody "Alice" "new@example.com" "Passw0rd!" "iniciante")
                idCarol 7000 store) = store /\
  storeAfter (@userUpdateProfile zod idCarol
                (mkUpdateBody (Some "robert") None None None) 9000 store)
  = store.
Proof.
  split.
  - apply (proj1 (@refused_calls_write_nothing node zod store)); reflexivity.
  - apply (proj1 (proj2 (@refused_calls_write_nothing node zod store)));
      reflexivity.
Defined.

(** Bob renames himself, keeps his address, changes his profile and clears
    his avatar. *)
Lemma update_accepted_patch_applied_witness :
  let body := mkUpdateBody (Some "robert") (Some "bob@example.com")
                           (Some "iniciante") (Some None) in
  exists updated,
    @userUpdateProfile zod idBob body 9000 store
    = (Returned (profileResponse updated), set idBob updated store) /\
    getById (set idBob updated store) idBob = Some updated /\
    @userGetProfile zod idBob (set idBob updated store)
    = (Returned (profileResponse updated), set idBob updated store) /\
    username updated = "robert" /\
    email updated = "bob@example.com" /\
    profile updated = iniciante /\
    avatar updated = None /\
    dateModified updated = 9000 /\
    id updated = idBob /\
    passwordHash updated = passwordHash bob /\
    status updated = pendente /\
    loginAttempts updated = 0 /\
    lastLoginAttempt updated = None /\
    dateCreated updated = 2000.
Proof.
  apply (@update_accepted_patch_applied zod store idBob
           (mkUpdateBody (Some "robert") (Some "bob@example.com")
                         (Some "iniciante") (Some None))
           (mkUpdateInput (Some "robert") (Some "bob@example.com")
                          (Some iniciante) (Some None))
           9000 bob).
  - reflexivity.
  - reflexivity.
  - reflexivity.
  - intros name [= <-]; right; reflexivity.
  - intros mail [= <-]; left; reflexivity.
Defined.

(** Dave's account is [inativo]; his password lets him in. *)
Lemma login_succeeds_iff_witness :
  isReturned (outcome (@userLogin node (mkLoginInput "dave" "Offline#3")
                                  (clockAt 9000) store3)) = true.
Proof.
  apply (proj2 (@login_succeeds_iff node store3
                  (mkLoginInput "dave" "Offline#3") (clockAt 9000)
                  store3_wf eq_refl)).
  exists dave; split; [reflexivity|].
  split; [discriminate|].
  split; [discriminate|reflexivity].
Defined.

(** Alice's address in capitals does what her address does. *)
Lemma login_name_ignores_case_witness :
  @userLogin node (mkLoginInput "ALICE@EXAMPLE.COM" "nope") (clockAt 8000) store
  = @userLogin node (mkLoginInput "alice@example.com" "nope") (clockAt 8000)
               store.
Proof.
  apply (@login_name_ignores_case node store "ALICE@EXAMPLE.COM"
           "alice@example.com" "nope" (clockAt 8000)).
  reflexivity.
Defined.

(** Alice's third wrong password at 5000000; her own password one
    millisecond before the thirty minutes are over, and at thirty
    minutes. *)
Lemma block_lasts_thirty_minutes_witness :
  let wrong := mkLoginInput "alice" "nope" in
  let right := mkLoginInput "ALICE" "Secret#1" in
  let m1 := storeAfter (@userLogin node wrong (clockAt 5000000)
                                   storeTwoStrikes) in
  outcome (@userLogin node wrong (clockAt 5000000) storeTwoStrikes)
  = failure ACCOUNT_BLOCKED 403 /\
  @userLogin node right (clockAt 6799999) m1
  = (failure ACCOUNT_BLOCKED 403, m1) /\
  isReturned (outcome (@userLogin node right (clockAt 6800000) m1)) = true /\
  option_map status
    (get idAlice (storeAfter (@userLogin node right (clockAt 6800000) m1)))
  = Some ativo /\
  option_map loginAttempts
    (get idAlice (storeAfter (@userLogin node right (clockAt 6800000) m1)))
  = Some 0.
Proof.
  intros wrong right m1.
  assert (H : forall c2,
             outcome (@userLogin node wrong (clockAt 5000000) storeTwoStrikes)
             = failure ACCOUNT_BLOCKED 403 /\
             (atBlockCheck c2 - 5000000 < thirtyMinutes ->
              @userLogin node right c2 m1 = (failure ACCOUNT_BLOCKED 403, m1)) /\
             (thirtyMinutes <= atBlockCheck c2 - 5000000 ->
              isReturned (outcome (@userLogin node right c2 m1)) = true /\
              option_map status
                (get idAlice (storeAfter (@userLogin node right c2 m1)))
              = Some ativo /\
              option_map loginAttempts
                (get idAlice (storeAfter (@userLogin node right c2 m1)))
              = Some 0)).
  { intro c2.
    apply (@block_lasts_thirty_minutes node storeTwoStrikes aliceTwoStrikes
             wrong right (clockAt 5000000) c2);
      reflexivity. }
  split; [exact (proj1 (H (clockAt 6799999)))|].
  split.
  - apply (proj1 (proj2 (H (clockAt 6799999)))). vm_compute; reflexivity.
  - apply (proj2 (proj2 (H (clockAt 6800000)))). vm_compute; discriminate.
Defined.

(** A wrong password for Alice leaves Bob's record and Alice's name,
    address and hash as they were. *)
Lemma login_touches_only_the_lock_fields_witness :
  let m' := storeAfter (@userLogin node (mkLoginInput "alice" "nope")
                                   (clockAt 8000) store) in
  map fst m' = map fst store /\
  (exists after,
      getById m' idAlice = Some after /\
      username after = "alice" /\
      passwordHash after = passwordHash alice) /\
  getById m' idBob = Some bob.
Proof.
  intro m'.
  destruct (@login_touches_only_the_lock_fields node store
              (mkLoginInput "alice" "nope") (clockAt 8000) eq_refl)
    as (Hkeys & Hfields & Hothers).
  split; [exact Hkeys|].
  split.
  - destruct (Hfields idAlice alice eq_refl)
      as (after & Hget & _ & Hname & _ & Hhash & _).
    exists after; split; [exact Hget|]; split; [exact Hname|exact Hhash].
  - apply (Hothers idBob).
    intros user [= <-]; discriminate.
Defined.

(** The sample run on the sample store. *)
Lemma routes_keep_the_store_invariant_witness :
  storeInvariant (@serveAll node zod sampleRun store).
Proof.
  exact (@routes_keep_the_store_invariant node zod sampleRun store
           zod_laws store_invariant).
Defined.

(** Bob alone in the store: however the run goes, his password does not
    let him in. *)
Lemma pending_accounts_never_log_in_witness :
  onlyPending (@serveAll node zod sampleRun [(idBob, bob)]) /\
  isReturned
    (outcome (@userLogin node (mkLoginInput "bob" "Hunter#2") (clockAt 20000)
                         (@serveAll node zod sampleRun [(idBob, bob)])))
  = false.
Proof.
  assert (H : onlyPending [(idBob, bob)])
    by (intros r [<- | []]; reflexivity).
  split.
  - exact (proj1 (@pending_accounts_never_log_in node zod sampleRun
                    [(idBob, bob)] H)).
  - exact (proj2 (@pending_accounts_never_log_in node zod sampleRun
                    [(idBob, bob)] H)
                 (mkLoginInput "bob" "Hunter#2") (clockAt 20000)).
Defined.

(** Dave is the administrator after the sample run; he was before. *)
Lemma routes_make_no_administrator_witness :
  exists r0, In r0 (values store3) /\ id r0 = idDave /\
             profile r0 = administrador.
Proof.
  apply (@routes_make_no_administrator node zod sampleRun store3 dave).
  - reflexivity.
  - vm_compute; auto 10.
  - reflexivity.
Defined.

(** Bob's address in capitals is known; Carol's is not. *)
Lemma requestPasswordReset_tells_registered_emails_witness :
  @userRequestPasswordReset zod "BOB@example.com" store = (Returned tt, store) /\
  @userRequestPasswordReset zod "carol@example.com" store
  = (failure NOT_FOUND 404, store).
Proof.
  split.
  - apply (proj1 (@requestPasswordReset_tells_registered_emails zod store
                    "BOB@example.com" eq_refl)).
    exists bob; split; [right; left; reflexivity|reflexivity].
  - apply (proj2 (@requestPasswordReset_tells_registered_emails zod store
                    "carol@example.com" eq_refl)).
    intros r [<- | [<- | []]] H; vm_compute in H; discriminate H.
Defined.

(** Both sides on the same zod: Carol's form passes on both. *)
Lemma client_schemas_agree_with_service_witness :
  @Client.registerSchema zod carolBody = @registerSchema zod carolBody /\
  @updateSchema zod
     (Client.updateBody
        (Client.mkUpdateProfileForm (Some "robert") None (Some "iniciante")
                                    (Some "https://example.com/r.png")))
  = Some {| ui_username := Some "robert";
            ui_email := None;
            ui_profile := Some iniciante;
            ui_avatar := Some (Some "https://example.com/r.png") |}.
Proof.
  assert (H : sameFormats zod zod) by (split; reflexivity).
  split.
  - exact (proj1 (client_schemas_agree_with_service zod zod H) carolBody).
  - exact (proj1 (proj2 (proj2 (proj2 (proj2
             (client_schemas_agree_with_service zod zod H)))))
             (Client.mkUpdateProfileForm (Some "robert") None (Some "iniciante")
                                         (Some "https://example.com/r.png"))
             (Client.mkUpdateProfileFormOutput (Some "robert") None
                                               (Some iniciante)
                                               (Some "https://example.com/r.png"))
             eq_refl).
Defined.

(** Dave's account is switched off and has two failures on it.  A wrong
    password at 5000000 blocks it; his own password thirty minutes later
    lets him in and leaves the account active. *)
Lemma lockout_reactivates_inactive_account_witness :
  let wrong := mkLoginInput "dave" "nope" in
  let right := mkLoginInput "dave@example.com" "Offline#3" in
  let m1 := storeAfter (@userLogin node wrong (clockAt 5000000)
                                   storeDaveTwoStrikes) in
  let m2 := storeAfter (@userLogin node right (clockAt 6800000) m1) in
  option_map status (get idDave storeDaveTwoStrikes) = Some inativo /\
  outcome (@userLogin node wrong (clockAt 5000000) storeDaveTwoStrikes)
  = failure ACCOUNT_BLOCKED 403 /\
  option_map status (get idDave m1) = Some bloqueado /\
  isReturned (outcome (@userLogin node right (clockAt 6800000) m1)) = true /\
  option_map status (get idDave m2) = Some ativo.
Proof.
  apply (@lockout_reactivates_inactive_account node storeDaveTwoStrikes
           daveTwoStrikes (mkLoginInput "dave" "nope")
           (mkLoginInput "dave@example.com" "Offline#3")
           (clockAt 5000000) (clockAt 6800000));
    try reflexivity; vm_compute; discriminate.
Defined.

End MoreRuns.
